(** * A shallow embedding of the python-sql-engine pipeline

    The development follows the source layout: [lexer.py] (module [Lexer]),
    [parser.py] (module [Parser]), [storage.py] (modules [Table] and
    [StorageEngine]), [executor.py] (modules [QueryResult] and [Executor]) and
    [sql_engine.py] (module [SQLEngine]).

    Modelling conventions.
    - SQL text is a [string] of 8-bit characters read as ASCII; the character
      predicates below are Python's [str.isspace], [str.isdigit],
      [str.isalpha], [str.isalnum] and [str.upper] on that range.
    - Python [int] is [Z] (unbounded); [int()] on a decimal text refuses
      more than 4300 digits, the interpreter's default limit.  Python
      [float] is the exact dyadic value of a binary64 number ([pyfloat]);
      the literals the lexer can build are rounded to nearest-even from
      their decimal text.
    - A Python [dict] is an insertion-ordered association list with the
      update-in-place behaviour of [d[k] = v].
    - Exceptions are values of [error]; every one of them stands for a
      [ValueError], [TypeError], [AttributeError] or [OSError], all
      subclasses of [Exception].  Stateful methods return their outcome
      together with the state they leave behind, also when they raise.
    - The directory of JSON files is the finite map [StorageEngine.files]
      from file name to the record written by [json.dump]; file names are
      compared exactly (a case-sensitive file system), and reading a file
      back with [json.load] gives the record written (the records hold
      strings, numbers, [None], lists and dictionaries with string keys
      only).
    - Writing a file can fail: [open(path, 'w')] raises [OSError] when the
      operating system refuses the file (a name that is too long, a
      read-only directory, ...), and the directory is then as it was; a
      file that has been opened is written completely.  The methods that
      write come in two forms.
      [StorageEngine.save_table_on disk], [create_table_on], [insert_row_on],
      [Executor.execute_on] and [SQLEngine.execute_on] take the answer of
      the operating system as the parameter [disk]; [save_table],
      [create_table], [insert_row], [Executor.execute] and
      [SQLEngine.execute] are the same methods on a disk that accepts every
      write ([StorageEngine.accepting]). *)

From Stdlib Require Import ZArith List String Ascii Bool Arith Lia DecimalString.
From Stdlib Require Import Sorted Permutation.
Import ListNotations.
Local Open Scope string_scope.
Local Open Scope nat_scope.

(* ------------------------------------------------------------------ *)
(** * Python scalars                                                    *)
(* ------------------------------------------------------------------ *)

(** A binary64 value as the lexer can build it: [Finite m e] is [m * 2^e],
    [Infinity] is [inf] (a literal too large for the format). *)
Inductive pyfloat : Type :=
| Finite (m e : Z)
| Infinity.

(** The scalar objects that flow through the engine. *)
Inductive pyval : Type :=
| PyNone
| PyInt (n : Z)
| PyFloat (f : pyfloat)
| PyStr (s : string).

(** [type(v).__name__] *)
Definition type_name (v : pyval) : string :=
  match v with
  | PyNone => "NoneType"
  | PyInt _ => "int"
  | PyFloat _ => "float"
  | PyStr _ => "str"
  end.

(** [isinstance(v, int)], [isinstance(v, str)] *)
Definition isinstance_int (v : pyval) : bool :=
  match v with PyInt _ => true | _ => false end.

Definition isinstance_str (v : pyval) : bool :=
  match v with PyStr _ => true | _ => false end.

Definition is_float (v : pyval) : bool :=
  match v with PyFloat _ => true | _ => false end.

(** Exact comparison of [m1 * 2^e1] with [m2 * 2^e2]. *)
Definition dyadic_compare (m1 e1 m2 e2 : Z) : comparison :=
  let e := Z.min e1 e2 in
  Z.compare (m1 * 2 ^ (e1 - e)) (m2 * 2 ^ (e2 - e)).

Definition float_compare (a b : pyfloat) : comparison :=
  match a, b with
  | Finite m1 e1, Finite m2 e2 => dyadic_compare m1 e1 m2 e2
  | Finite _ _, Infinity => Lt
  | Infinity, Finite _ _ => Gt
  | Infinity, Infinity => Eq
  end.

(** Ordering of two objects when Python defines one: numbers compare by
    value across [int] and [float], strings by code point. *)
Definition py_compare (a b : pyval) : option comparison :=
  match a, b with
  | PyInt x, PyInt y => Some (Z.compare x y)
  | PyInt x, PyFloat g => Some (float_compare (Finite x 0) g)
  | PyFloat f, PyInt y => Some (float_compare f (Finite y 0))
  | PyFloat f, PyFloat g => Some (float_compare f g)
  | PyStr s, PyStr t => Some (String.compare s t)
  | _, _ => None
  end.

(** [a == b]: never raises; objects of unrelated kinds are unequal. *)
Definition py_eq (a b : pyval) : bool :=
  match a, b with
  | PyNone, PyNone => true
  | _, _ => match py_compare a b with Some Eq => true | _ => false end
  end.

(** [bool(v)] *)
Definition truthy (v : pyval) : bool :=
  match v with
  | PyNone => false
  | PyInt n => negb (Z.eqb n 0)
  | PyFloat (Finite m _) => negb (Z.eqb m 0)
  | PyFloat Infinity => true
  | PyStr s => negb (String.eqb s EmptyString)
  end.

(** Decimal text of a Python [int], as [str(n)] prints it. *)
Definition str_of_Z (n : Z) : string := NilZero.string_of_int (Z.to_int n).
Definition str_of_nat (n : nat) : string := NilZero.string_of_uint (Nat.to_uint n).

(* ------------------------------------------------------------------ *)
(** * Characters                                                        *)
(* ------------------------------------------------------------------ *)

Definition in_range (lo hi : nat) (c : ascii) : bool :=
  let n := nat_of_ascii c in (lo <=? n) && (n <=? hi).

Definition isspace (c : ascii) : bool :=
  in_range 9 13 c || in_range 28 32 c.

Definition isdigit (c : ascii) : bool := in_range 48 57 c.

Definition isalpha (c : ascii) : bool :=
  in_range 65 90 c || in_range 97 122 c.

Definition isalnum (c : ascii) : bool := isalpha c || isdigit c.

(** A character of the ASCII range, on which the predicates above are
    those of Python. *)
Definition is_ascii (c : ascii) : bool := nat_of_ascii c <? 128.

Definition upper_char (c : ascii) : ascii :=
  if in_range 97 122 c then ascii_of_nat (nat_of_ascii c - 32) else c.

Fixpoint upper (s : string) : string :=
  match s with
  | EmptyString => EmptyString
  | String c r => String (upper_char c) (upper r)
  end.

Definition is_dot (c : ascii) : bool := Ascii.eqb c ".".

(** [c.isdigit() or c == '.'] *)
Definition number_char (c : ascii) : bool := isdigit c || is_dot c.
Definition is_quote (c : ascii) : bool := Ascii.eqb c "'".
Definition is_underscore (c : ascii) : bool := Ascii.eqb c "_".

(** [c in s] for a character *)
Fixpoint contains (p : ascii -> bool) (s : string) : bool :=
  match s with
  | EmptyString => false
  | String c r => p c || contains p r
  end.

Fixpoint all_chars (p : ascii -> bool) (s : string) : bool :=
  match s with
  | EmptyString => true
  | String c r => p c && all_chars p r
  end.

Fixpoint count_chars (p : ascii -> bool) (s : string) : nat :=
  match s with
  | EmptyString => 0
  | String c r => (if p c then 1 else 0) + count_chars p r
  end.

(** The shape of every scanning loop of the lexer,
    [while self.current_char and p(self.current_char): acc += c; advance()]:
    the longest prefix whose characters satisfy [p], and what follows it. *)
Fixpoint read_while (p : ascii -> bool) (s : string) : string * string :=
  match s with
  | EmptyString => (EmptyString, EmptyString)
  | String c r =>
      if p c then let (run, r') := read_while p r in (String c run, r')
      else (EmptyString, s)
  end.

(** [s.endswith(suffix)] *)
Definition endswith (s suffix : string) : bool :=
  (String.length suffix <=? String.length s)
  && String.eqb (substring (String.length s - String.length suffix)
                           (String.length suffix) s)
                suffix.

(** [s[:-n]] for a positive [n] *)
Definition drop_last (n : nat) (s : string) : string :=
  substring 0 (String.length s - n) s.

(** [c.isalnum() or c == '_'] *)
Definition ident_char (c : ascii) : bool := isalnum c || is_underscore c.

(* ------------------------------------------------------------------ *)
(** * Numeric literals: [int(num_str)] and [float(num_str)]             *)
(* ------------------------------------------------------------------ *)

Definition digit_value (c : ascii) : Z := Z.of_nat (nat_of_ascii c - 48).

Fixpoint digits_value (acc : Z) (s : string) : Z :=
  match s with
  | EmptyString => acc
  | String c r => digits_value (10 * acc + digit_value c) r
  end.

(** [int(s)] on a run of decimal digits (leading zeros allowed). *)
Definition int_of_digits (s : string) : Z := digits_value 0 s.

(** Round the non-negative rational [n / d] ([d > 0]) to binary64:
    53 significant bits, exponent no smaller than -1074, ties to even,
    overflow to [inf]. *)
Definition round_binary64 (n d : Z) : pyfloat :=
  if (n <=? 0)%Z then Finite 0 0 else
  let e0 := (Z.log2 n - Z.log2 d - 52)%Z in
  let scaled (e : Z) : Z * Z :=        (* numerator, denominator of n/(d*2^e) *)
    if (0 <=? e)%Z then (n, d * 2 ^ e)%Z else (n * 2 ^ (- e), d)%Z in
  let e1 := let (a, b) := scaled e0 in
            if (a / b <? 2 ^ 52)%Z then (e0 - 1)%Z else e0 in
  let e := Z.max e1 (-1074) in
  let (a, b) := scaled e in
  let q := (a / b)%Z in
  let r := (a mod b)%Z in
  let m := match Z.compare (2 * r) b with
           | Lt => q
           | Gt => (q + 1)%Z
           | Eq => if Z.even q then q else (q + 1)%Z
           end in
  if (2 ^ 1024 <=? m * 2 ^ (Z.max e 0))%Z then Infinity else Finite m e.

(* ------------------------------------------------------------------ *)
(** * Dictionaries                                                      *)
(* ------------------------------------------------------------------ *)

Definition dict (V : Type) : Type := list (string * V).

(** [d.get(k)] *)
Fixpoint dict_get {V : Type} (d : dict V) (k : string) : option V :=
  match d with
  | [] => None
  | (k', v) :: r => if String.eqb k' k then Some v else dict_get r k
  end.

(** [k in d] *)
Definition dict_mem {V : Type} (d : dict V) (k : string) : bool :=
  match dict_get d k with Some _ => true | None => false end.

(** [d[k] = v]: an existing key keeps its place, a new key goes last. *)
Fixpoint dict_set {V : Type} (d : dict V) (k : string) (v : V) : dict V :=
  match d with
  | [] => [(k, v)]
  | (k', v') :: r =>
      if String.eqb k' k then (k', v) :: r else (k', v') :: dict_set r k v
  end.

(** [dict(pairs)] and dict comprehensions: keys are set in order. *)
Definition set_pair {V : Type} (d : dict V) (kv : string * V) : dict V :=
  dict_set d (fst kv) (snd kv).

Definition dict_of_pairs {V : Type} (l : list (string * V)) : dict V :=
  fold_left set_pair l [].

(** [list(d.keys())] *)
Definition dict_keys {V : Type} (d : dict V) : list string := map fst d.

(** [x in names] for a list of strings *)
Definition str_in (x : string) (names : list string) : bool :=
  existsb (String.eqb x) names.

(* ------------------------------------------------------------------ *)
(** * Tokens ([lexer.py])                                               *)
(* ------------------------------------------------------------------ *)

Module TokenType.
Inductive t : Type :=
| SELECT | FROM | WHERE | INSERT | INTO | VALUES | CREATE | TABLE
| INT | VARCHAR | AND | OR
| IDENTIFIER | NUMBER | STRING
| EQUALS | GREATER | LESS | GREATER_EQ | LESS_EQ | NOT_EQ
| LPAREN | RPAREN | COMMA | SEMICOLON | STAR
| EOF.

Definition eqb (a b : t) : bool :=
  match a, b with
  | SELECT, SELECT | FROM, FROM | WHERE, WHERE | INSERT, INSERT
  | INTO, INTO | VALUES, VALUES | CREATE, CREATE | TABLE, TABLE
  | INT, INT | VARCHAR, VARCHAR | AND, AND | OR, OR
  | IDENTIFIER, IDENTIFIER | NUMBER, NUMBER | STRING, STRING
  | EQUALS, EQUALS | GREATER, GREATER | LESS, LESS
  | GREATER_EQ, GREATER_EQ | LESS_EQ, LESS_EQ | NOT_EQ, NOT_EQ
  | LPAREN, LPAREN | RPAREN, RPAREN | COMMA, COMMA
  | SEMICOLON, SEMICOLON | STAR, STAR | EOF, EOF => true
  | _, _ => false
  end.

(** [str(member)], as the f-strings of the parser print it. *)
Definition str (a : t) : string :=
  "TokenType." ++
  match a with
  | SELECT => "SELECT" | FROM => "FROM" | WHERE => "WHERE"
  | INSERT => "INSERT" | INTO => "INTO" | VALUES => "VALUES"
  | CREATE => "CREATE" | TABLE => "TABLE" | INT => "INT"
  | VARCHAR => "VARCHAR" | AND => "AND" | OR => "OR"
  | IDENTIFIER => "IDENTIFIER" | NUMBER => "NUMBER" | STRING => "STRING"
  | EQUALS => "EQUALS" | GREATER => "GREATER" | LESS => "LESS"
  | GREATER_EQ => "GREATER_EQ" | LESS_EQ => "LESS_EQ" | NOT_EQ => "NOT_EQ"
  | LPAREN => "LPAREN" | RPAREN => "RPAREN" | COMMA => "COMMA"
  | SEMICOLON => "SEMICOLON" | STAR => "STAR" | EOF => "EOF"
  end.
End TokenType.

(** [@dataclass class Token] *)
Module Token.
Record t : Type := mk {
  type : TokenType.t;
  value : pyval;
  position : nat
}.
End Token.
Abbreviation Token := Token.t.
Abbreviation mkToken := Token.mk.

(* ------------------------------------------------------------------ *)
(** * Exceptions                                                        *)
(* ------------------------------------------------------------------ *)

(** One constructor per [raise] site (sites that build the same message
    share a constructor), plus the failures of the built-ins the code
    calls: [float()] on a malformed literal, [int()] on a literal with more
    digits than the interpreter converts, an ordering comparison between
    unrelated kinds, attribute access on [None], and [open()] on a file the
    operating system refuses ([OSError], with the text the system gives). *)
Inductive error : Type :=
| UnexpectedCharacter (c : ascii) (pos : nat)
| UnterminatedString (pos : nat)
| InvalidFloatLiteral (s : string)
| IntegerStringTooLong (digits : nat)
| ExpectedToken (want got : TokenType.t) (pos : nat)
| UnexpectedStatement (got : TokenType.t)
| ExpectedDataType (got : TokenType.t)
| ExpectedComparisonOperator (got : TokenType.t)
| ExpectedValue (got : TokenType.t)
| NoneHasNoAttribute (attr : string)
| ColumnDoesNotExist (col table : string)
| ExpectsInt (col : string) (got : pyval)
| ExpectsVarchar (col : string) (got : pyval)
| ExceedsMaximumLength (col : string) (size : pyval)
| TableAlreadyExists (table : string)
| TableDoesNotExist (table : string)
| ColumnNotFoundInRow (col : string)
| UnknownOperator (op : string)
| UnknownLogicalOperator (op : string)
| NotSupportedBetween (op : string) (l r : pyval)
| OSError (message : string).

(** What a computation does: return, raise, or (for the loops of the lexer
    and of the parser, which the model runs on a budget of passes) use the
    budget up.  The budgets are shown below to be always sufficient. *)
Inductive outcome (A : Type) : Type :=
| Ok (a : A)
| Raise (e : error)
| Timeout.
Arguments Ok {A} a.
Arguments Raise {A} e.
Arguments Timeout {A}.

Definition bind {A B : Type} (m : outcome A) (k : A -> outcome B) : outcome B :=
  match m with
  | Ok a => k a
  | Raise e => Raise e
  | Timeout => Timeout
  end.

Declare Scope outcome_scope.
Delimit Scope outcome_scope with outcome.
Notation "'let*' x ':=' m 'in' k" := (bind m (fun x => k))
  (at level 10, x name, m at level 100, k at level 200) : outcome_scope.
Notation "'let*' ' p ':=' m 'in' k" := (bind m (fun p => k))
  (at level 10, p strict pattern, m at level 100, k at level 200) : outcome_scope.
Local Open Scope outcome_scope.

(** [a < b], [a > b], [a <= b], [a >= b]: a [TypeError] between kinds that
    have no ordering. *)
Definition py_order (op : string) (test : comparison -> bool) (a b : pyval)
  : outcome bool :=
  match py_compare a b with
  | Some c => Ok (test c)
  | None => Raise (NotSupportedBetween op a b)
  end.

Definition py_gt : pyval -> pyval -> outcome bool :=
  py_order ">" (fun c => match c with Gt => true | _ => false end).
Definition py_lt : pyval -> pyval -> outcome bool :=
  py_order "<" (fun c => match c with Lt => true | _ => false end).
Definition py_ge : pyval -> pyval -> outcome bool :=
  py_order ">=" (fun c => match c with Lt => false | _ => true end).
Definition py_le : pyval -> pyval -> outcome bool :=
  py_order "<=" (fun c => match c with Gt => false | _ => true end).

(** [sys.get_int_max_str_digits()], at its default. *)
Definition max_str_digits : Z := 4300.

(** [int(s)] on a run of decimal digits: a [ValueError] when the run has
    more digits (leading zeros included) than the interpreter converts. *)
Definition py_int (s : string) : outcome Z :=
  if (max_str_digits <? Z.of_nat (String.length s))%Z
  then Raise (IntegerStringTooLong (String.length s))
  else Ok (int_of_digits s).

(** [float(s)] for the strings [read_number] passes to it, which hold only
    decimal digits and dots: the text must be digits with at most one dot
    and at least one digit. *)
Definition py_float (s : string) : outcome pyfloat :=
  let (ip, r) := read_while isdigit s in
  match r with
  | EmptyString =>
      if Nat.eqb (String.length ip) 0 then Raise (InvalidFloatLiteral s)
      else Ok (round_binary64 (int_of_digits ip) 1)
  | String c fp =>
      if is_dot c && all_chars isdigit fp
         && negb (Nat.eqb (String.length ip + String.length fp) 0)
      then Ok (round_binary64 (int_of_digits (ip ++ fp))
                              (10 ^ Z.of_nat (String.length fp)))
      else Raise (InvalidFloatLiteral s)
  end.

(* ------------------------------------------------------------------ *)
(** * Lexer ([lexer.py])                                                *)
(* ------------------------------------------------------------------ *)

Module Lexer.

(** The scanning state.  [rest] is [sql[position:]]: [current_char] is
    its first character ([None] at the end) and [peek()] its second. *)
Record t : Type := mk {
  position : nat;
  rest : string
}.

Definition KEYWORDS : dict TokenType.t :=
  [ ("SELECT", TokenType.SELECT); ("FROM", TokenType.FROM);
    ("WHERE", TokenType.WHERE); ("INSERT", TokenType.INSERT);
    ("INTO", TokenType.INTO); ("VALUES", TokenType.VALUES);
    ("CREATE", TokenType.CREATE); ("TABLE", TokenType.TABLE);
    ("INT", TokenType.INT); ("VARCHAR", TokenType.VARCHAR);
    ("AND", TokenType.AND); ("OR", TokenType.OR) ].

Definition init (sql : string) : t := mk 0 sql.

Definition current_char (lx : t) : option ascii :=
  match rest lx with
  | EmptyString => None
  | String c _ => Some c
  end.

Definition advance (lx : t) : t :=
  mk (S (position lx))
     (match rest lx with EmptyString => EmptyString | String _ r => r end).

Definition peek (lx : t) : option ascii :=
  match rest lx with
  | String _ (String c _) => Some c
  | _ => None
  end.

(** Run one scanning loop from [lx]: the text read and the state after. *)
Definition scan (p : ascii -> bool) (lx : t) : string * t :=
  let (run, r) := read_while p (rest lx) in
  (run, mk (position lx + String.length run) r).

Definition skip_whitespace (lx : t) : t := snd (scan isspace lx).

Definition read_number (lx : t) : outcome (Token * t) :=
  let start_pos := position lx in
  let (num_str, lx') := scan number_char lx in
  let* v := (if contains is_dot num_str
             then let* f := py_float num_str in Ok (PyFloat f)
             else let* n := py_int num_str in Ok (PyInt n)) in
  Ok (mkToken TokenType.NUMBER v start_pos, lx').

Definition read_string (lx : t) : outcome (Token * t) :=
  let start_pos := position lx in
  let lx1 := advance lx in
  let (string_value, lx2) := scan (fun c => negb (is_quote c)) lx1 in
  match current_char lx2 with
  | Some c =>
      if is_quote c
      then Ok (mkToken TokenType.STRING (PyStr string_value) start_pos,
               advance lx2)
      else Raise (UnterminatedString start_pos)
  | None => Raise (UnterminatedString start_pos)
  end.

Definition read_identifier (lx : t) : Token * t :=
  let start_pos := position lx in
  let (identifier, lx') := scan (fun c => isalnum c || is_underscore c) lx in
  let identifier_upper := upper identifier in
  match dict_get KEYWORDS identifier_upper with
  | Some token_type => (mkToken token_type (PyStr identifier_upper) start_pos, lx')
  | None => (mkToken TokenType.IDENTIFIER (PyStr identifier) start_pos, lx')
  end.

Definition char_map : list (ascii * TokenType.t) :=
  [ ("="%char, TokenType.EQUALS); (">"%char, TokenType.GREATER);
    ("<"%char, TokenType.LESS); ("("%char, TokenType.LPAREN);
    (")"%char, TokenType.RPAREN); (","%char, TokenType.COMMA);
    (";"%char, TokenType.SEMICOLON); ("*"%char, TokenType.STAR) ].

Fixpoint char_map_get (m : list (ascii * TokenType.t)) (c : ascii)
  : option TokenType.t :=
  match m with
  | [] => None
  | (c', ty) :: r => if Ascii.eqb c' c then Some ty else char_map_get r c
  end.

Definition next_is (lx : t) (c : ascii) : bool :=
  match peek lx with Some d => Ascii.eqb d c | None => false end.

(** One pass of the [while self.current_char] loop of [tokenize], at a
    character [c = current_char]: the tokens so far and the state after,
    or the exception raised. *)
Definition step (lx : t) (c : ascii) (tokens : list Token)
  : outcome (list Token * t) :=
  if isspace c then Ok (tokens, skip_whitespace lx)
  else if isdigit c then
    let* '(tok, lx') := read_number lx in Ok ((tokens ++ [tok])%list, lx')
  else if is_quote c then
    let* '(tok, lx') := read_string lx in Ok ((tokens ++ [tok])%list, lx')
  else if isalpha c || is_underscore c then
    let (tok, lx') := read_identifier lx in Ok ((tokens ++ [tok])%list, lx')
  else
    let pos := position lx in
    if Ascii.eqb c ">" && next_is lx "=" then
      Ok ((tokens ++ [mkToken TokenType.GREATER_EQ (PyStr ">=") pos])%list,
          advance (advance lx))
    else if Ascii.eqb c "<" && next_is lx "=" then
      Ok ((tokens ++ [mkToken TokenType.LESS_EQ (PyStr "<=") pos])%list,
          advance (advance lx))
    else if Ascii.eqb c "!" && next_is lx "=" then
      Ok ((tokens ++ [mkToken TokenType.NOT_EQ (PyStr "!=") pos])%list,
          advance (advance lx))
    else
      match char_map_get char_map c with
      | Some ty =>
          Ok ((tokens ++ [mkToken ty (PyStr (String c EmptyString)) pos])%list,
              advance lx)
      | None => Raise (UnexpectedCharacter c pos)
      end.

Fixpoint tokenize_loop (fuel : nat) (lx : t) (tokens : list Token)
  : outcome (list Token) :=
  match current_char lx with
  | None => Ok (tokens ++ [mkToken TokenType.EOF PyNone (position lx)])%list
  | Some c =>
      match fuel with
      | O => Timeout
      | S fuel' =>
          let* '(tokens', lx') := step lx c tokens in
          tokenize_loop fuel' lx' tokens'
      end
  end.

(** [Lexer(sql).tokenize()].  Every pass of the loop consumes a
    character, so [len(sql)] passes are enough. *)
Definition tokenize (sql : string) : outcome (list Token) :=
  tokenize_loop (String.length sql) (init sql) [].

End Lexer.

(* ------------------------------------------------------------------ *)
(** * Abstract syntax ([parser.py])                                     *)
(* ------------------------------------------------------------------ *)

(** [@dataclass class Column] *)
Module Column.
(** [size] is [PyNone] when the column declares no size. *)
Record t : Type := mk {
  name : string;
  data_type : string;
  size : pyval
}.
End Column.
Abbreviation Column := Column.t.

(** [Condition] and [CompoundCondition], the two subclasses of
    [WhereClause]. *)
Inductive WhereClause : Type :=
| Condition (column operator : string) (value : pyval)
| CompoundCondition (left : WhereClause) (operator : string) (right : WhereClause).

Inductive Statement : Type :=
| SelectStatement (columns : list string) (table : string)
                  (where_ : option WhereClause)
| InsertStatement (table : string) (columns : list string)
                  (values : list pyval)
| CreateTableStatement (table : string) (columns : list Column).

(* ------------------------------------------------------------------ *)
(** * Parser ([parser.py])                                              *)
(* ------------------------------------------------------------------ *)

Module Parser.

(** The parser state is [tokens[position:]]: [current_token] is its head
    ([None] when it is empty).  A method is a function from that state to
    its outcome and the state after. *)
Definition M (A : Type) : Type := list Token -> outcome (A * list Token).

Definition ret {A : Type} (a : A) : M A := fun ts => Ok (a, ts).

Definition fail {A : Type} (e : error) : M A := fun _ => Raise e.

Definition seq {A B : Type} (m : M A) (k : A -> M B) : M B :=
  fun ts => match m ts with
            | Ok (a, ts') => k a ts'
            | Raise e => Raise e
            | Timeout => Timeout
            end.

Declare Scope parser_scope.
Delimit Scope parser_scope with parser.
Notation "x <- m ;; k" := (seq m (fun x => k))
  (at level 61, m at next level, right associativity) : parser_scope.
Notation "m ;; k" := (seq m (fun _ => k))
  (at level 61, right associativity) : parser_scope.
Local Open Scope parser_scope.

(** [self.current_token.type]; on [None] the attribute access fails. *)
Definition current_type : M TokenType.t :=
  fun ts => match ts with
            | [] => Raise (NoneHasNoAttribute "type")
            | tok :: _ => Ok (Token.type tok, ts)
            end.

(** [self.current_token.value] *)
Definition current_value : M pyval :=
  fun ts => match ts with
            | [] => Raise (NoneHasNoAttribute "value")
            | tok :: _ => Ok (Token.value tok, ts)
            end.

Definition advance : M unit := fun ts => Ok (tt, tl ts).

Definition expect (token_type : TokenType.t) : M Token :=
  fun ts => match ts with
            | [] => Raise (NoneHasNoAttribute "type")
            | tok :: r =>
                if TokenType.eqb (Token.type tok) token_type
                then Ok (tok, r)
                else Raise (ExpectedToken token_type (Token.type tok)
                                          (Token.position tok))
            end.

(** The text a token carries.  The lexer stores text in every token but
    NUMBER and EOF (lemma [tokenize_payload]), and the parser reads names
    only from IDENTIFIER, AND and OR tokens. *)
Definition text_of (v : pyval) : string :=
  match v with PyStr s => s | _ => EmptyString end.

Definition expect_name : M string :=
  tok <- expect TokenType.IDENTIFIER ;; ret (text_of (Token.value tok)).

Definition parse_value : M pyval :=
  ty <- current_type ;;
  match ty with
  | TokenType.NUMBER | TokenType.STRING =>
      v <- current_value ;; advance ;; ret v
  | _ => fail (ExpectedValue ty)
  end.

Definition operator_map (ty : TokenType.t) : option string :=
  match ty with
  | TokenType.EQUALS => Some "="
  | TokenType.GREATER => Some ">"
  | TokenType.LESS => Some "<"
  | TokenType.GREATER_EQ => Some ">="
  | TokenType.LESS_EQ => Some "<="
  | TokenType.NOT_EQ => Some "!="
  | _ => None
  end.

Definition parse_condition : M WhereClause :=
  column <- expect_name ;;
  ty <- current_type ;;
  match operator_map ty with
  | None => fail (ExpectedComparisonOperator ty)
  | Some operator =>
      advance ;;
      v <- parse_value ;;
      ret (Condition column operator v)
  end.

Definition is_logical (ty : TokenType.t) : bool :=
  match ty with TokenType.AND | TokenType.OR => true | _ => false end.

(** The [while self.current_token.type in (AND, OR)] loop, on a budget of
    passes. *)
Fixpoint where_loop (fuel : nat) (left : WhereClause) : M WhereClause :=
  ty <- current_type ;;
  if is_logical ty then
    match fuel with
    | O => fun _ => Timeout
    | S fuel' =>
        operator <- current_value ;;
        advance ;;
        right <- parse_condition ;;
        where_loop fuel' (CompoundCondition left (text_of operator) right)
    end
  else ret left.

(** Every pass consumes tokens, so the number of tokens left at the start
    bounds the number of passes. *)
Definition parse_where : M WhereClause :=
  fun ts => (left <- parse_condition ;; where_loop (List.length ts) left) ts.

(** The [while self.current_token.type == TokenType.COMMA] loops of
    [parse_select], [parse_insert] and [parse_create_table]:
    [self.advance(); items.append(item())]. *)
Fixpoint comma_loop {A : Type} (item : M A) (fuel : nat) (items : list A)
  : M (list A) :=
  ty <- current_type ;;
  if TokenType.eqb ty TokenType.COMMA then
    match fuel with
    | O => fun _ => Timeout
    | S fuel' =>
        advance ;;
        x <- item ;;
        comma_loop item fuel' (items ++ [x])%list
    end
  else ret items.

(** [items = [item()]] followed by the comma loop. *)
Definition comma_list {A : Type} (item : M A) : M (list A) :=
  fun ts => (x <- item ;; comma_loop item (List.length ts) [x]) ts.

Definition parse_column_definition : M Column :=
  column_name <- expect_name ;;
  ty <- current_type ;;
  match ty with
  | TokenType.INT =>
      advance ;; ret (Column.mk column_name "INT" PyNone)
  | TokenType.VARCHAR =>
      advance ;;
      ty' <- current_type ;;
      if TokenType.eqb ty' TokenType.LPAREN then
        advance ;;
        tok <- expect TokenType.NUMBER ;;
        expect TokenType.RPAREN ;;
        ret (Column.mk column_name "VARCHAR" (Token.value tok))
      else ret (Column.mk column_name "VARCHAR" PyNone)
  | _ => fail (ExpectedDataType ty)
  end.

Definition parse_select : M Statement :=
  expect TokenType.SELECT ;;
  ty <- current_type ;;
  columns <- (if TokenType.eqb ty TokenType.STAR
              then advance ;; ret ["*"]
              else comma_list expect_name) ;;
  expect TokenType.FROM ;;
  table <- expect_name ;;
  ty' <- current_type ;;
  where_ <- (if TokenType.eqb ty' TokenType.WHERE
             then advance ;; w <- parse_where ;; ret (Some w)
             else ret None) ;;
  ret (SelectStatement columns table where_).

Definition parse_insert : M Statement :=
  expect TokenType.INSERT ;;
  expect TokenType.INTO ;;
  table <- expect_name ;;
  expect TokenType.LPAREN ;;
  columns <- comma_list expect_name ;;
  expect TokenType.RPAREN ;;
  expect TokenType.VALUES ;;
  expect TokenType.LPAREN ;;
  values <- comma_list parse_value ;;
  expect TokenType.RPAREN ;;
  ret (InsertStatement table columns values).

Definition parse_create_table : M Statement :=
  expect TokenType.CREATE ;;
  expect TokenType.TABLE ;;
  table <- expect_name ;;
  expect TokenType.LPAREN ;;
  columns <- comma_list parse_column_definition ;;
  expect TokenType.RPAREN ;;
  ret (CreateTableStatement table columns).

Definition parse_statement : M Statement :=
  ty <- current_type ;;
  match ty with
  | TokenType.SELECT => parse_select
  | TokenType.INSERT => parse_insert
  | TokenType.CREATE => parse_create_table
  | _ => fail (UnexpectedStatement ty)
  end.

(** [Parser(tokens).parse()]: the statement; tokens after it are left
    unread. *)
Definition parse (tokens : list Token) : outcome Statement :=
  let* '(ast, _) := parse_statement tokens in Ok ast.

End Parser.

(** Tokenize, then parse: the first two steps of [SQLEngine.execute]. *)
Definition parse_sql (sql : string) : outcome Statement :=
  let* tokens := Lexer.tokenize sql in Parser.parse tokens.

(* ------------------------------------------------------------------ *)
(** * Tables ([storage.py])                                             *)
(* ------------------------------------------------------------------ *)

(** A row: [Dict[str, Any]]. *)
Definition Row : Type := dict pyval.

(** The record [Table.to_dict] builds and [json.dump] writes: for each
    column the keys [name], [data_type] and [size] ([size] may be missing
    from a record read back from disk). *)
Module ColumnDict.
Record t : Type := mk {
  name : string;
  data_type : string;
  size : option pyval
}.
End ColumnDict.

Module TableDict.
Record t : Type := mk {
  name : string;
  columns : list ColumnDict.t;
  rows : list Row
}.
End TableDict.

Module Table.

Record t : Type := mk {
  name : string;
  columns : list Column;
  rows : list Row
}.

(** [Table(name, columns)] *)
Definition new (name : string) (columns : list Column) : t :=
  mk name columns [].

Definition get_column_names (self : t) : list string :=
  map Column.name (columns self).

(** [for key in row.keys(): if key not in column_names: raise ...] *)
Fixpoint check_keys (table_name : string) (column_names keys : list string)
  : outcome unit :=
  match keys with
  | [] => Ok tt
  | key :: r =>
      if str_in key column_names then check_keys table_name column_names r
      else Raise (ColumnDoesNotExist key table_name)
  end.

(** The body of [for col in self.columns] for one column. *)
Definition check_column (row : Row) (col : Column) : outcome unit :=
  match dict_get row (Column.name col) with
  | None => Ok tt
  | Some v =>
      if String.eqb (Column.data_type col) "INT" then
        if isinstance_int v then Ok tt
        else Raise (ExpectsInt (Column.name col) v)
      else if String.eqb (Column.data_type col) "VARCHAR" then
        match v with
        | PyStr text =>
            if truthy (Column.size col) then
              let* too_long :=
                py_gt (PyInt (Z.of_nat (String.length text))) (Column.size col) in
              if too_long
              then Raise (ExceedsMaximumLength (Column.name col) (Column.size col))
              else Ok tt
            else Ok tt
        | _ => Raise (ExpectsVarchar (Column.name col) v)
        end
      else Ok tt
  end.

Fixpoint check_columns (row : Row) (cols : list Column) : outcome unit :=
  match cols with
  | [] => Ok tt
  | col :: r => let* _ := check_column row col in check_columns row r
  end.

Definition validate_row (self : t) (row : Row) : outcome bool :=
  let column_names := get_column_names self in
  let* _ := check_keys (name self) column_names (dict_keys row) in
  let* _ := check_columns row (columns self) in
  Ok true.

(** [self.validate_row(row); self.rows.append(row)]: the outcome and the
    table as the call leaves it. *)
Definition insert (self : t) (row : Row) : outcome unit * t :=
  match validate_row self row with
  | Ok _ => (Ok tt, mk (name self) (columns self) (rows self ++ [row])%list)
  | Raise e => (Raise e, self)
  | Timeout => (Timeout, self)
  end.

Definition to_dict (self : t) : TableDict.t :=
  TableDict.mk
    (name self)
    (map (fun col => ColumnDict.mk (Column.name col) (Column.data_type col)
                                   (Some (Column.size col)))
         (columns self))
    (rows self).

(** [col_data.get('size')] *)
Definition get_size (col_data : ColumnDict.t) : pyval :=
  match ColumnDict.size col_data with
  | Some v => v
  | None => PyNone
  end.

Definition from_dict (data : TableDict.t) : t :=
  let columns :=
    map (fun col_data => Column.mk (ColumnDict.name col_data)
                                   (ColumnDict.data_type col_data)
                                   (get_size col_data))
        (TableDict.columns data) in
  mk (TableDict.name data) columns (TableDict.rows data).

End Table.

(* ------------------------------------------------------------------ *)
(** * Storage engine ([storage.py])                                     *)
(* ------------------------------------------------------------------ *)

Module StorageEngine.

(** [tables] is [self.tables]; [files] is the content of the directory
    [self.db_path], file name to persisted record. *)
Record t : Type := mk {
  tables : dict Table.t;
  files : dict TableDict.t
}.

(** [save_table] when [open] accepts the file: the record of the table
    replaces the content of its file. *)
Definition save_table (self : t) (table : Table.t) : t :=
  mk (tables self)
     (dict_set (files self) (Table.name table ++ ".json") (Table.to_dict table)).

(** [create_table] when the file is accepted. *)
Definition create_table (self : t) (name : string) (columns : list Column)
  : outcome unit * t :=
  if dict_mem (tables self) name then (Raise (TableAlreadyExists name), self)
  else
    let table := Table.new name columns in
    let self1 := mk (dict_set (tables self) name table) (files self) in
    (Ok tt, save_table self1 table).

Definition get_table (self : t) (name : string) : option Table.t :=
  dict_get (tables self) name.

(** [insert_row] when the file is accepted.  The table found under
    [table_name] is updated in place by [table.insert]; it is written back
    under the same key. *)
Definition insert_row (self : t) (table_name : string) (row : Row)
  : outcome unit * t :=
  match get_table self table_name with
  | None => (Raise (TableDoesNotExist table_name), self)
  | Some table =>
      let (r, table') := Table.insert table row in
      let self1 := mk (dict_set (tables self) table_name table') (files self) in
      match r with
      | Ok _ => (Ok tt, save_table self1 table')
      | Raise e => (Raise e, self1)
      | Timeout => (Timeout, self1)
      end
  end.

Definition table_exists (self : t) (name : string) : bool :=
  dict_mem (tables self) name.

Definition list_tables (self : t) : list string := dict_keys (tables self).

(** The persisted record of a table, if its file exists. *)
Definition persisted (self : t) (table_name : string) : option TableDict.t :=
  dict_get (files self) (table_name ++ ".json").

(** One pass of [for filename in os.listdir(self.db_path)]: a file whose
    name ends in [.json] is read into the table named by the rest of the
    file name. *)
Definition load_file (tables : dict Table.t) (entry : string * TableDict.t)
  : dict Table.t :=
  let (filename, table_data) := entry in
  if endswith filename ".json"
  then dict_set tables (drop_last 5 filename) (Table.from_dict table_data)
  else tables.

(** [load_database], from an empty [self.tables]; the directory is listed
    in the order of [files]. *)
Definition load_database (files : dict TableDict.t) : dict Table.t :=
  fold_left load_file files [].

(** [StorageEngine(db_path)] on a directory that holds [files]. *)
Definition open (files : dict TableDict.t) : t :=
  mk (load_database files) files.

(** What [open(table_path, 'w')] does, by file name: [None], the file is
    opened and [json.dump] writes the record; [Some message], [open]
    raises [OSError] with that text and the directory stays as it is. *)
Definition Disk : Type := string -> option string.

(** A disk that accepts every write. *)
Definition accepting : Disk := fun _ => None.

(** [save_table]: the outcome and the store as the call leaves it. *)
Definition save_table_on (disk : Disk) (self : t) (table : Table.t)
  : outcome unit * t :=
  match disk (Table.name table ++ ".json") with
  | Some message => (Raise (OSError message), self)
  | None => (Ok tt, save_table self table)
  end.

(** [create_table]: the table is entered in [self.tables] before its file
    is written. *)
Definition create_table_on (disk : Disk) (self : t) (name : string)
    (columns : list Column) : outcome unit * t :=
  if dict_mem (tables self) name then (Raise (TableAlreadyExists name), self)
  else
    let table := Table.new name columns in
    let self1 := mk (dict_set (tables self) name table) (files self) in
    save_table_on disk self1 table.

(** [insert_row]: the row is appended in memory before the file is
    written. *)
Definition insert_row_on (disk : Disk) (self : t) (table_name : string)
    (row : Row) : outcome unit * t :=
  match get_table self table_name with
  | None => (Raise (TableDoesNotExist table_name), self)
  | Some table =>
      let (r, table') := Table.insert table row in
      let self1 := mk (dict_set (tables self) table_name table') (files self) in
      match r with
      | Ok _ => save_table_on disk self1 table'
      | Raise e => (Raise e, self1)
      | Timeout => (Timeout, self1)
      end
  end.

End StorageEngine.

(* ------------------------------------------------------------------ *)
(** * Executor ([executor.py])                                          *)
(* ------------------------------------------------------------------ *)

Module QueryResult.

Record t : Type := mk {
  columns : list string;
  rows : list Row;
  rows_affected : Z;
  message : option string
}.

(** [QueryResult(columns=None, rows=None, rows_affected=0, message=None)]:
    [columns or []], [rows or []]. *)
Definition new (columns : option (list string)) (rows : option (list Row))
    (rows_affected : Z) (message : option string) : t :=
  mk (match columns with Some l => l | None => [] end)
     (match rows with Some l => l | None => [] end)
     rows_affected message.

Definition of_message (m : string) : t := new None None 0 (Some m).

End QueryResult.

Module Executor.

Definition apply_operator (operator : string) (a b : pyval)
  : option (outcome bool) :=
  if String.eqb operator "=" then Some (Ok (py_eq a b))
  else if String.eqb operator ">" then Some (py_gt a b)
  else if String.eqb operator "<" then Some (py_lt a b)
  else if String.eqb operator ">=" then Some (py_ge a b)
  else if String.eqb operator "<=" then Some (py_le a b)
  else if String.eqb operator "!=" then Some (Ok (negb (py_eq a b)))
  else None.

Definition evaluate_condition (row : Row) (column operator : string)
    (value : pyval) : outcome bool :=
  match dict_get row column with
  | None => Raise (ColumnNotFoundInRow column)
  | Some row_value =>
      match apply_operator operator row_value value with
      | None => Raise (UnknownOperator operator)
      | Some r => r
      end
  end.

Fixpoint evaluate_where (row : Row) (where_ : WhereClause) : outcome bool :=
  match where_ with
  | Condition column operator value =>
      evaluate_condition row column operator value
  | CompoundCondition lhs operator rhs =>
      let* left_result := evaluate_where row lhs in
      let* right_result := evaluate_where row rhs in
      if String.eqb operator "AND" then Ok (left_result && right_result)
      else if String.eqb operator "OR" then Ok (left_result || right_result)
      else Raise (UnknownLogicalOperator operator)
  end.

(** [[row for row in rows if self.evaluate_where(row, where)]] *)
Fixpoint filter_rows (where_ : WhereClause) (rows : list Row)
  : outcome (list Row) :=
  match rows with
  | [] => Ok []
  | row :: r =>
      let* keep := evaluate_where row where_ in
      let* kept := filter_rows where_ r in
      Ok (if keep then row :: kept else kept)
  end.

(** [for col in columns: if col not in table_columns: raise ...] *)
Fixpoint check_requested (table_name : string) (table_columns cols : list string)
  : outcome unit :=
  match cols with
  | [] => Ok tt
  | col :: r =>
      if str_in col table_columns
      then check_requested table_name table_columns r
      else Raise (ColumnDoesNotExist col table_name)
  end.

(** [row.get(col)] *)
Definition row_get (row : Row) (col : string) : pyval :=
  match dict_get row col with Some v => v | None => PyNone end.

(** [{col: row.get(col) for col in columns}] *)
Definition project (columns : list string) (row : Row) : Row :=
  dict_of_pairs (map (fun col => (col, row_get row col)) columns).

Definition is_star (columns : list string) : bool :=
  match columns with
  | [c] => String.eqb c "*"
  | _ => false
  end.

Definition execute_select (storage : StorageEngine.t)
    (columns : list string) (table_name : string)
    (where_ : option WhereClause) : outcome QueryResult.t :=
  match StorageEngine.get_table storage table_name with
  | None => Raise (TableDoesNotExist table_name)
  | Some table =>
      let* rows := match where_ with
                   | Some w => filter_rows w (Table.rows table)
                   | None => Ok (Table.rows table)
                   end in
      let* columns' :=
        (if is_star columns then Ok (Table.get_column_names table)
         else let* _ := check_requested table_name
                          (Table.get_column_names table) columns in
              Ok columns) in
      Ok (QueryResult.new (Some columns') (Some (map (project columns') rows))
                          0 None)
  end.

Definition execute_create_table (storage : StorageEngine.t)
    (table_name : string) (columns : list Column)
  : outcome QueryResult.t * StorageEngine.t :=
  match StorageEngine.create_table storage table_name columns with
  | (Ok _, storage') =>
      (Ok (QueryResult.of_message
             ("Table '" ++ table_name ++ "' created successfully")),
       storage')
  | (Raise e, storage') => (Raise e, storage')
  | (Timeout, storage') => (Timeout, storage')
  end.

(** [dict(zip(statement.columns, statement.values))] *)
Definition build_row (columns : list string) (values : list pyval) : Row :=
  dict_of_pairs (combine columns values).

Definition execute_insert (storage : StorageEngine.t)
    (table_name : string) (columns : list string) (values : list pyval)
  : outcome QueryResult.t * StorageEngine.t :=
  let row := build_row columns values in
  match StorageEngine.insert_row storage table_name row with
  | (Ok _, storage') =>
      (Ok (QueryResult.new None None 1
             (Some ("1 row inserted into '" ++ table_name ++ "'"))),
       storage')
  | (Raise e, storage') => (Raise e, storage')
  | (Timeout, storage') => (Timeout, storage')
  end.

Definition execute (storage : StorageEngine.t) (statement : Statement)
  : outcome QueryResult.t * StorageEngine.t :=
  match statement with
  | SelectStatement columns table where_ =>
      (execute_select storage columns table where_, storage)
  | InsertStatement table columns values =>
      execute_insert storage table columns values
  | CreateTableStatement table columns =>
      execute_create_table storage table columns
  end.

(** The same methods on a disk that may refuse a write. *)
Definition execute_create_table_on (disk : StorageEngine.Disk)
    (storage : StorageEngine.t) (table_name : string) (columns : list Column)
  : outcome QueryResult.t * StorageEngine.t :=
  match StorageEngine.create_table_on disk storage table_name columns with
  | (Ok _, storage') =>
      (Ok (QueryResult.of_message
             ("Table '" ++ table_name ++ "' created successfully")),
       storage')
  | (Raise e, storage') => (Raise e, storage')
  | (Timeout, storage') => (Timeout, storage')
  end.

Definition execute_insert_on (disk : StorageEngine.Disk)
    (storage : StorageEngine.t)
    (table_name : string) (columns : list string) (values : list pyval)
  : outcome QueryResult.t * StorageEngine.t :=
  let row := build_row columns values in
  match StorageEngine.insert_row_on disk storage table_name row with
  | (Ok _, storage') =>
      (Ok (QueryResult.new None None 1
             (Some ("1 row inserted into '" ++ table_name ++ "'"))),
       storage')
  | (Raise e, storage') => (Raise e, storage')
  | (Timeout, storage') => (Timeout, storage')
  end.

Definition execute_on (disk : StorageEngine.Disk) (storage : StorageEngine.t)
    (statement : Statement) : outcome QueryResult.t * StorageEngine.t :=
  match statement with
  | SelectStatement columns table where_ =>
      (execute_select storage columns table where_, storage)
  | InsertStatement table columns values =>
      execute_insert_on disk storage table columns values
  | CreateTableStatement table columns =>
      execute_create_table_on disk storage table columns
  end.

End Executor.

(* ------------------------------------------------------------------ *)
(** * Text of exceptions and of results                                 *)
(* ------------------------------------------------------------------ *)

Definition newline : string := String (ascii_of_nat 10) EmptyString.

(** [sep.join(parts)] *)
Fixpoint join (sep : string) (parts : list string) : string :=
  match parts with
  | [] => EmptyString
  | [x] => x
  | x :: r => x ++ sep ++ join sep r
  end.

Fixpoint repeat_char (c : ascii) (n : nat) : string :=
  match n with
  | O => EmptyString
  | S k => String c (repeat_char c k)
  end.

(** [s.ljust(width)] *)
Definition ljust (s : string) (width : nat) : string :=
  s ++ repeat_char " " (width - String.length s).

Section Text.

(** [str(x)] for a float: the shortest decimal text that reads back as
    [x].  The layout of messages and of result tables does not depend on
    it. *)
Variable float_str : pyfloat -> string.

(** [str(v)] *)
Definition str_value (v : pyval) : string :=
  match v with
  | PyNone => "None"
  | PyInt n => str_of_Z n
  | PyFloat f => float_str f
  | PyStr s => s
  end.

(** [str(e)] for the exception [e]. *)
Definition describe (e : error) : string :=
  match e with
  | UnexpectedCharacter c pos =>
      "Unexpected character '" ++ String c EmptyString ++ "' at position "
      ++ str_of_nat pos
  | UnterminatedString pos =>
      "Unterminated string at position " ++ str_of_nat pos
  | InvalidFloatLiteral s =>
      "could not convert string to float: '" ++ s ++ "'"
  | IntegerStringTooLong digits =>
      "Exceeds the limit (" ++ str_of_Z max_str_digits
      ++ " digits) for integer string conversion: value has "
      ++ str_of_nat digits
      ++ " digits; use sys.set_int_max_str_digits() to increase the limit"
  | ExpectedToken want got pos =>
      "Expected " ++ TokenType.str want ++ ", got " ++ TokenType.str got
      ++ " at position " ++ str_of_nat pos
  | UnexpectedStatement got =>
      "Unexpected statement starting with " ++ TokenType.str got
  | ExpectedDataType got => "Expected data type, got " ++ TokenType.str got
  | ExpectedComparisonOperator got =>
      "Expected comparison operator, got " ++ TokenType.str got
  | ExpectedValue got => "Expected value, got " ++ TokenType.str got
  | NoneHasNoAttribute attr =>
      "'NoneType' object has no attribute '" ++ attr ++ "'"
  | ColumnDoesNotExist col table =>
      "Column '" ++ col ++ "' does not exist in table '" ++ table ++ "'"
  | ExpectsInt col got =>
      "Column '" ++ col ++ "' expects INT, got " ++ type_name got
  | ExpectsVarchar col got =>
      "Column '" ++ col ++ "' expects VARCHAR, got " ++ type_name got
  | ExceedsMaximumLength col size =>
      "Value for '" ++ col ++ "' exceeds maximum length of " ++ str_value size
  | TableAlreadyExists table => "Table '" ++ table ++ "' already exists"
  | TableDoesNotExist table => "Table '" ++ table ++ "' does not exist"
  | ColumnNotFoundInRow col => "Column '" ++ col ++ "' not found in row"
  | UnknownOperator op => "Unknown operator: " ++ op
  | UnknownLogicalOperator op => "Unknown logical operator: " ++ op
  | NotSupportedBetween op l r =>
      "'" ++ op ++ "' not supported between instances of '" ++ type_name l
      ++ "' and '" ++ type_name r ++ "'"
  | OSError message => message
  end.

(** [str(row.get(col, ''))] *)
Definition cell (row : Row) (col : string) : string :=
  match dict_get row col with
  | Some v => str_value v
  | None => EmptyString
  end.

(** [col_widths[col]], [KeyError] aside: every key read was set before. *)
Definition width_of (col_widths : dict nat) (col : string) : nat :=
  match dict_get col_widths col with Some w => w | None => 0 end.

(** [for col in self.columns: col_widths[col] = len(col)] *)
Definition header_widths (columns : list string) : dict nat :=
  fold_left (fun w col => dict_set w col (String.length col)) columns [].

(** [for col in self.columns:
       col_widths[col] = max(col_widths[col], len(str(row.get(col, ''))))] *)
Definition widen_row (columns : list string) (col_widths : dict nat) (row : Row)
  : dict nat :=
  fold_left (fun w col =>
               dict_set w col (Nat.max (width_of w col)
                                       (String.length (cell row col))))
            columns col_widths.

Definition column_widths (columns : list string) (rows : list Row) : dict nat :=
  fold_left (widen_row columns) rows (header_widths columns).

(** [QueryResult.__str__] *)
Definition render (self : QueryResult.t) : string :=
  let no_message :=
    match QueryResult.rows self with
    | [] => "(" ++ str_of_Z (QueryResult.rows_affected self) ++ " rows affected)"
    | _ :: _ =>
        let columns := QueryResult.columns self in
        let col_widths := column_widths columns (QueryResult.rows self) in
        let header :=
          join " | " (map (fun col => ljust col (width_of col_widths col)) columns) in
        let separator :=
          join "-+-" (map (fun col => repeat_char "-" (width_of col_widths col))
                          columns) in
        let row_lines :=
          map (fun row =>
                 join " | " (map (fun col => ljust (cell row col)
                                                   (width_of col_widths col))
                                 columns))
              (QueryResult.rows self) in
        let footer :=
          newline ++ "(" ++ str_of_nat (List.length (QueryResult.rows self))
          ++ " rows)" in
        join newline ([header; separator] ++ row_lines ++ [footer])%list
    end in
  match QueryResult.message self with
  | Some m => if String.eqb m EmptyString then no_message else m
  | None => no_message
  end.

End Text.

(* ------------------------------------------------------------------ *)
(** * Engine ([sql_engine.py])                                          *)
(* ------------------------------------------------------------------ *)

Module SQLEngine.

(** The body of the [try] block of [execute]: tokenize, parse, execute. *)
Definition pipeline (storage : StorageEngine.t) (sql : string)
  : outcome QueryResult.t * StorageEngine.t :=
  match Lexer.tokenize sql with
  | Ok tokens =>
      match Parser.parse tokens with
      | Ok ast => Executor.execute storage ast
      | Raise e => (Raise e, storage)
      | Timeout => (Timeout, storage)
      end
  | Raise e => (Raise e, storage)
  | Timeout => (Timeout, storage)
  end.

(** [SQLEngine.execute]: [except Exception as e] turns every exception
    into [QueryResult(message=f"Error: {str(e)}")]. *)
Definition execute (float_str : pyfloat -> string)
    (storage : StorageEngine.t) (sql : string)
  : outcome QueryResult.t * StorageEngine.t :=
  match pipeline storage sql with
  | (Ok result, storage') => (Ok result, storage')
  | (Raise e, storage') =>
      (Ok (QueryResult.of_message ("Error: " ++ describe float_str e)), storage')
  | (Timeout, storage') => (Timeout, storage')
  end.

(** [pipeline] and [execute] on a disk that may refuse a write. *)
Definition pipeline_on (disk : StorageEngine.Disk) (storage : StorageEngine.t)
    (sql : string) : outcome QueryResult.t * StorageEngine.t :=
  match Lexer.tokenize sql with
  | Ok tokens =>
      match Parser.parse tokens with
      | Ok ast => Executor.execute_on disk storage ast
      | Raise e => (Raise e, storage)
      | Timeout => (Timeout, storage)
      end
  | Raise e => (Raise e, storage)
  | Timeout => (Timeout, storage)
  end.

Definition execute_on (float_str : pyfloat -> string)
    (disk : StorageEngine.Disk) (storage : StorageEngine.t) (sql : string)
  : outcome QueryResult.t * StorageEngine.t :=
  match pipeline_on disk storage sql with
  | (Ok result, storage') => (Ok result, storage')
  | (Raise e, storage') =>
      (Ok (QueryResult.of_message ("Error: " ++ describe float_str e)), storage')
  | (Timeout, storage') => (Timeout, storage')
  end.

Definition list_tables (storage : StorageEngine.t) : list string :=
  StorageEngine.list_tables storage.

(** One line of [describe_table] per column; the size is shown when
    [if col.size] holds. *)
Definition col_info (float_str : pyfloat -> string) (col : Column) : string :=
  "  - " ++ Column.name col ++ ": " ++ Column.data_type col
  ++ (if truthy (Column.size col)
      then "(" ++ str_value float_str (Column.size col) ++ ")"
      else EmptyString).

Definition describe_table (float_str : pyfloat -> string)
    (storage : StorageEngine.t) (table_name : string) : string :=
  match StorageEngine.get_table storage table_name with
  | None => "Table '" ++ table_name ++ "' does not exist"
  | Some table =>
      let title := "Table: " ++ table_name in
      let total :=
        newline ++ "Total rows: " ++ str_of_nat (List.length (Table.rows table)) in
      join newline
        ([title; "Columns:"] ++ map (col_info float_str) (Table.columns table)
         ++ [total])%list
  end.

(** A fresh engine on an empty directory. *)
Definition empty : StorageEngine.t := StorageEngine.mk [] [].

(** Run statements one after the other, collecting the results. *)
Fixpoint run (float_str : pyfloat -> string) (storage : StorageEngine.t)
    (script : list string) : list (outcome QueryResult.t) * StorageEngine.t :=
  match script with
  | [] => ([], storage)
  | sql :: r =>
      let (res, storage') := execute float_str storage sql in
      let (rest, storage'') := run float_str storage' r in
      (res :: rest, storage'')
  end.

End SQLEngine.

(* ------------------------------------------------------------------ *)
(** * Fixtures                                                          *)
(* ------------------------------------------------------------------ *)

(** The table of [test_data_validation] in [test.py], after
    [CREATE TABLE test (id INT, code VARCHAR(10))] and
    [INSERT INTO test (id, code) VALUES (1, 'ABC')]. *)
Definition test_columns : list Column :=
  [Column.mk "id" "INT" PyNone; Column.mk "code" "VARCHAR" (PyInt 10)].

Definition test_table : Table.t :=
  Table.mk "test" test_columns [[("id", PyInt 1); ("code", PyStr "ABC")]].

Definition test_storage : StorageEngine.t :=
  StorageEngine.mk [("test", test_table)]
                   [("test.json", Table.to_dict test_table)].

Definition long_code_row : Row :=
  [("id", PyInt 2); ("code", PyStr "VERYLONGCODE123")].

Definition float_row : Row :=
  [("id", PyFloat (Finite 3 (-1))); ("code", PyStr "XYZ")].

(** Scenario A: [CREATE TABLE users (id INT, name VARCHAR(50), age INT)]
    and its three rows. *)
Definition users_columns : list Column :=
  [Column.mk "id" "INT" PyNone; Column.mk "name" "VARCHAR" (PyInt 50);
   Column.mk "age" "INT" PyNone].

Definition users_rows : list Row :=
  [[("id", PyInt 1); ("name", PyStr "Alice"); ("age", PyInt 25)];
   [("id", PyInt 2); ("name", PyStr "Bob"); ("age", PyInt 30)];
   [("id", PyInt 3); ("name", PyStr "Charlie"); ("age", PyInt 35)]].

Definition users_table : Table.t := Table.mk "users" users_columns users_rows.

Definition users_storage : StorageEngine.t :=
  StorageEngine.mk [("users", users_table)]
                   [("users.json", Table.to_dict users_table)].

(** [age > 26 AND age < 32] *)
Definition age_between : WhereClause :=
  CompoundCondition (Condition "age" ">" (PyInt 26)) "AND"
                    (Condition "age" "<" (PyInt 32)).

(** A float formatter for running examples that print no float. *)
Definition no_float_text (f : pyfloat) : string := EmptyString.

(* ------------------------------------------------------------------ *)
(** * Vocabulary of the statements                                      *)
(* ------------------------------------------------------------------ *)

(** [evaluate_where(row, where)] returns [True]. *)
Definition holds (where_ : WhereClause) (row : Row) : bool :=
  match Executor.evaluate_where row where_ with
  | Ok true => true
  | _ => false
  end.

(** [evaluate_where(row, where)] returns (it does not raise). *)
Definition evaluates (where_ : WhereClause) (row : Row) : Prop :=
  exists b, Executor.evaluate_where row where_ = Ok b.

(** The rows a SELECT works on once its WHERE clause, if any, is applied. *)
Definition surviving_rows (where_ : option WhereClause) (table : Table.t)
  : outcome (list Row) :=
  match where_ with
  | Some w => Executor.filter_rows w (Table.rows table)
  | None => Ok (Table.rows table)
  end.

(** The widest of a column's header and its values, as text. *)
Definition widest (float_str : pyfloat -> string) (rows : list Row) (col : string)
  : nat :=
  list_max (String.length col
            :: map (fun row => String.length (cell float_str row col)) rows).

(** The lines of a result table, every column at its [widest]. *)
Definition header_line (float_str : pyfloat -> string) (columns : list string)
    (rows : list Row) : string :=
  join " | " (map (fun col => ljust col (widest float_str rows col)) columns).

Definition separator_line (float_str : pyfloat -> string) (columns : list string)
    (rows : list Row) : string :=
  join "-+-" (map (fun col => repeat_char "-" (widest float_str rows col)) columns).

Definition row_line (float_str : pyfloat -> string) (columns : list string)
    (rows : list Row) (row : Row) : string :=
  join " | " (map (fun col => ljust (cell float_str row col)
                                    (widest float_str rows col)) columns).

(** The last element joined: it starts with a newline, which leaves an
    empty line before the count. *)
Definition footer_line (rows : list Row) : string :=
  newline ++ "(" ++ str_of_nat (List.length rows) ++ " rows)".

(** [if self.message] fails: no message, or the empty one. *)
Definition no_message (self : QueryResult.t) : Prop :=
  QueryResult.message self = None \/ QueryResult.message self = Some EmptyString.

(** The three tokens of a condition [column op literal]. *)
Record CondTokens : Type := mkCondTokens {
  ct_column : Token;
  ct_operator : Token;
  ct_literal : Token
}.

Definition cond_tokens_ok (c : CondTokens) : bool :=
  TokenType.eqb (Token.type (ct_column c)) TokenType.IDENTIFIER
  && match Parser.operator_map (Token.type (ct_operator c)) with
     | Some _ => true
     | None => false
     end
  && (TokenType.eqb (Token.type (ct_literal c)) TokenType.NUMBER
      || TokenType.eqb (Token.type (ct_literal c)) TokenType.STRING).

Definition tokens_of (c : CondTokens) : list Token :=
  [ct_column c; ct_operator c; ct_literal c].

Definition condition_of (c : CondTokens) : WhereClause :=
  Condition (Parser.text_of (Token.value (ct_column c)))
            (match Parser.operator_map (Token.type (ct_operator c)) with
             | Some op => op
             | None => EmptyString
             end)
            (Token.value (ct_literal c)).

(** The tokens of [c1 op1 c2 ... opn c(n+1)]: the first condition, then
    each logical operator with the condition after it. *)
Definition clause_tokens (first : CondTokens) (more : list (Token * CondTokens))
  : list Token :=
  (tokens_of first ++ flat_map (fun p => fst p :: tokens_of (snd p)) more)%list.

(** [((c1 op1 c2) op2 c3) ... opn c(n+1)] *)
Definition left_nested (first : WhereClause) (more : list (Token * CondTokens))
  : WhereClause :=
  fold_left (fun acc p =>
               CompoundCondition acc (Parser.text_of (Token.value (fst p)))
                                 (condition_of (snd p)))
            more first.

(** The next token exists and is neither AND nor OR. *)
Definition clause_ends (rest : list Token) : bool :=
  match rest with
  | tok :: _ => negb (Parser.is_logical (Token.type tok))
  | [] => false
  end.

(** [rest] does not continue a run of characters satisfying [p]. *)
Definition run_ends (p : ascii -> bool) (rest : string) : bool :=
  match rest with
  | EmptyString => true
  | String c _ => negb (p c)
  end.

(** What a token of each kind carries, as the lexer builds it: a number
    in NUMBER, [None] in EOF, text in every other kind. *)
Definition payload_ok (tok : Token) : bool :=
  match Token.type tok with
  | TokenType.NUMBER =>
      isinstance_int (Token.value tok) || is_float (Token.value tok)
  | TokenType.EOF =>
      match Token.value tok with PyNone => true | _ => false end
  | _ => isinstance_str (Token.value tok)
  end.

(** A parser method that returns or raises on every token list (it never
    exhausts a loop budget) and never moves backwards. *)
Definition safe {A : Type} (m : Parser.M A) : Prop :=
  forall ts,
    match m ts with
    | Ok (_, ts') => List.length ts' <= List.length ts
    | Raise _ => True
    | Timeout => False
    end.

(** Token positions grow strictly along a token list. *)
Definition positions_increase (tokens : list Token) : Prop :=
  StronglySorted lt (map Token.position tokens).

(** The last token of the list is an EOF. *)
Definition ends_eof (ts : list Token) : Prop :=
  exists pre eof, ts = (pre ++ [eof])%list /\ Token.type eof = TokenType.EOF.

(** AND and OR tokens carry the name of their keyword. *)
Definition logical_text_ok (tok : Token) : bool :=
  match Token.type tok with
  | TokenType.AND => String.eqb (Parser.text_of (Token.value tok)) "AND"
  | TokenType.OR => String.eqb (Parser.text_of (Token.value tok)) "OR"
  | _ => true
  end.

Definition token_ok (tok : Token) : bool := payload_ok tok && logical_text_ok tok.

(** What [tokenize] hands to the parser: tokens that carry what their kind
    announces, the last of which is an EOF. *)
Definition lexed (ts : list Token) : Prop :=
  ends_eof ts /\ Forall (fun tok => token_ok tok = true) ts.

Definition head_type (ts : list Token) : option TokenType.t :=
  match ts with
  | tok :: _ => Some (Token.type tok)
  | [] => None
  end.

(** The parser state after [self.current_token.type] was read as [ty]. *)
Definition at_type (ty : TokenType.t) (ts : list Token) : Prop :=
  lexed ts /\ head_type ts = Some ty.

(** The three families of errors of section 7 of the design: what the
    lexer raises, what the parser raises on a token mismatch, and what the
    table store and the executor raise.  [io_error], below, is a fourth:
    what the operating system raises when a file cannot be written. *)
Definition lexical_error (e : error) : bool :=
  match e with
  | UnexpectedCharacter _ _ | UnterminatedString _ | InvalidFloatLiteral _
  | IntegerStringTooLong _ => true
  | _ => false
  end.

Definition syntax_error (e : error) : bool :=
  match e with
  | ExpectedToken _ _ _ | UnexpectedStatement _ | ExpectedDataType _
  | ExpectedComparisonOperator _ | ExpectedValue _ => true
  | _ => false
  end.

Definition semantic_error (e : error) : bool :=
  match e with
  | ColumnDoesNotExist _ _ | ExpectsInt _ _ | ExpectsVarchar _ _
  | ExceedsMaximumLength _ _ | TableAlreadyExists _ | TableDoesNotExist _
  | ColumnNotFoundInRow _ | NotSupportedBetween _ _ _ => true
  | _ => false
  end.

(** From a state satisfying [pre], the method [m] returns a [good] value
    and leaves a state the lexer could have produced, or raises a syntax
    error. *)
Definition parses {A : Type} (pre : list Token -> Prop) (m : Parser.M A)
    (good : A -> Prop) : Prop :=
  forall ts,
    pre ts ->
    match m ts with
    | Ok (a, ts') => lexed ts' /\ good a
    | Raise e => syntax_error e = true
    | Timeout => True
    end.

(** The statements the parser builds. *)
Definition comparison_operator (op : string) : bool :=
  existsb (String.eqb op) ["="; ">"; "<"; ">="; "<="; "!="].

Definition is_number (v : pyval) : bool := isinstance_int v || is_float v.

Definition is_literal (v : pyval) : bool := is_number v || isinstance_str v.

Fixpoint wf_where (w : WhereClause) : Prop :=
  match w with
  | Condition _ operator v =>
      comparison_operator operator = true /\ is_literal v = true
  | CompoundCondition l operator r =>
      wf_where l /\ (operator = "AND" \/ operator = "OR") /\ wf_where r
  end.

Definition wf_column (col : Column) : Prop :=
  (Column.data_type col = "INT" /\ Column.size col = PyNone)
  \/ (Column.data_type col = "VARCHAR"
      /\ (Column.size col = PyNone \/ is_number (Column.size col) = true)).

Definition wf_statement (statement : Statement) : Prop :=
  match statement with
  | SelectStatement columns _ where_ =>
      columns <> []
      /\ match where_ with Some w => wf_where w | None => True end
  | InsertStatement _ columns values =>
      columns <> [] /\ values <> []
      /\ Forall (fun v => is_literal v = true) values
  | CreateTableStatement _ columns =>
      columns <> [] /\ Forall wf_column columns
  end.

(** Token sequences of the grammar.  [has_type ty tok]: the token is of
    kind [ty]. *)
Definition has_type (ty : TokenType.t) (tok : Token) : bool :=
  TokenType.eqb (Token.type tok) ty.

Definition is_literal_token (tok : Token) : bool :=
  has_type TokenType.NUMBER tok || has_type TokenType.STRING tok.

Definition starts_with (p : Token -> bool) (ts : list Token) : bool :=
  match ts with
  | tok :: _ => p tok
  | [] => false
  end.

(** [item (',' item)*] for one-token items: the first item, then each
    comma with the item after it. *)
Definition Separated : Type := (Token * list (Token * Token))%type.

Definition separated_tokens (s : Separated) : list Token :=
  fst s :: flat_map (fun p => [fst p; snd p]) (snd s).

Definition separated_items (s : Separated) : list Token :=
  fst s :: map snd (snd s).

Definition separated_ok (is_item : Token -> bool) (s : Separated) : bool :=
  is_item (fst s)
  && forallb (fun p => has_type TokenType.COMMA (fst p) && is_item (snd p)) (snd s).

(** The tokens of an item of a comma-separated list, with the value the
    item parses to; [spells item follows p]: [item] reads exactly these
    tokens, before any continuation satisfying [follows]. *)
Definition spells {A : Type} (item : Parser.M A) (follows : list Token -> Prop)
    (p : list Token * A) : Prop :=
  forall ts, follows ts -> item (fst p ++ ts)%list = Ok (snd p, ts).

(** [column_def := ident ( INT | VARCHAR [ '(' NUMBER ')' ] )] *)
Inductive ColumnTokens : Type :=
| IntColumn (ident kw : Token)
| VarcharColumn (ident kw : Token)
| SizedVarcharColumn (ident kw lparen number rparen : Token).

Definition column_tokens (c : ColumnTokens) : list Token :=
  match c with
  | IntColumn ident kw => [ident; kw]
  | VarcharColumn ident kw => [ident; kw]
  | SizedVarcharColumn ident kw lparen number rparen =>
      [ident; kw; lparen; number; rparen]
  end.

Definition column_tokens_ok (c : ColumnTokens) : bool :=
  match c with
  | IntColumn ident kw =>
      has_type TokenType.IDENTIFIER ident && has_type TokenType.INT kw
  | VarcharColumn ident kw =>
      has_type TokenType.IDENTIFIER ident && has_type TokenType.VARCHAR kw
  | SizedVarcharColumn ident kw lparen number rparen =>
      has_type TokenType.IDENTIFIER ident && has_type TokenType.VARCHAR kw
      && has_type TokenType.LPAREN lparen && has_type TokenType.NUMBER number
      && has_type TokenType.RPAREN rparen
  end.

Definition column_of (c : ColumnTokens) : Column :=
  match c with
  | IntColumn ident _ =>
      Column.mk (Parser.text_of (Token.value ident)) "INT" PyNone
  | VarcharColumn ident _ =>
      Column.mk (Parser.text_of (Token.value ident)) "VARCHAR" PyNone
  | SizedVarcharColumn ident _ _ number _ =>
      Column.mk (Parser.text_of (Token.value ident)) "VARCHAR" (Token.value number)
  end.

Definition column_list_tokens (first : ColumnTokens)
    (more : list (Token * ColumnTokens)) : list Token :=
  (column_tokens first
   ++ flat_map (fun p => fst p :: column_tokens (snd p)) more)%list.

(** ['*' | ident (',' ident)*] *)
Inductive SelectColumns : Type :=
| StarColumn (star : Token)
| NamedColumns (names : Separated).

Definition select_columns_tokens (c : SelectColumns) : list Token :=
  match c with
  | StarColumn star => [star]
  | NamedColumns names => separated_tokens names
  end.

Definition select_columns_ok (c : SelectColumns) : bool :=
  match c with
  | StarColumn star => has_type TokenType.STAR star
  | NamedColumns names => separated_ok (has_type TokenType.IDENTIFIER) names
  end.

Definition select_columns_of (c : SelectColumns) : list string :=
  match c with
  | StarColumn _ => ["*"]
  | NamedColumns names =>
      map (fun tok => Parser.text_of (Token.value tok)) (separated_items names)
  end.

(** [[ WHERE where_expr ]] *)
Definition WhereTokens : Type :=
  option (Token * (CondTokens * list (Token * CondTokens))).

Definition where_tokens (w : WhereTokens) : list Token :=
  match w with
  | None => []
  | Some (kw, (first, more)) => kw :: clause_tokens first more
  end.

Definition where_of (w : WhereTokens) : option WhereClause :=
  match w with
  | None => None
  | Some (_, (first, more)) => Some (left_nested (condition_of first) more)
  end.

(** The WHERE part is well formed and [rest] does not continue it. *)
Definition where_tokens_ok (w : WhereTokens) (rest : list Token) : bool :=
  match w with
  | None => starts_with (fun tok => negb (has_type TokenType.WHERE tok)) rest
  | Some (kw, (first, more)) =>
      has_type TokenType.WHERE kw && cond_tokens_ok first
      && forallb (fun p => Parser.is_logical (Token.type (fst p))
                           && cond_tokens_ok (snd p)) more
      && clause_ends rest
  end.

(** ** WHERE trees, row by row *)

(** The simple conditions of a WHERE tree, left to right. *)
Fixpoint conditions (w : WhereClause) : list (string * string * pyval) :=
  match w with
  | Condition column operator value => [(column, operator, value)]
  | CompoundCondition lhs _ rhs => (conditions lhs ++ conditions rhs)%list
  end.

(** Evaluate conditions one after the other; the first exception ends the
    evaluation. *)
Fixpoint evaluate_all (row : Row) (l : list (string * string * pyval))
  : outcome unit :=
  match l with
  | [] => Ok tt
  | (column, operator, value) :: r =>
      let* _ := Executor.evaluate_condition row column operator value in
      evaluate_all row r
  end.

(** The truth value of a tree whose conditions all return: AND is
    conjunction, any other connective is read as OR. *)
Fixpoint truth (row : Row) (w : WhereClause) : bool :=
  match w with
  | Condition column operator value => holds (Condition column operator value) row
  | CompoundCondition lhs operator rhs =>
      if String.eqb operator "AND" then truth row lhs && truth row rhs
      else truth row lhs || truth row rhs
  end.

(** Every connective of the tree is AND or OR. *)
Fixpoint connectives_ok (w : WhereClause) : bool :=
  match w with
  | Condition _ _ _ => true
  | CompoundCondition lhs operator rhs =>
      connectives_ok lhs
      && (String.eqb operator "AND" || String.eqb operator "OR")
      && connectives_ok rhs
  end.

(** The columns a WHERE tree reads. *)
Definition where_columns (w : WhereClause) : list string :=
  map (fun q => fst (fst q)) (conditions w).

(** Two objects Python can order: two numbers, or two strings. *)
Definition comparable (a b : pyval) : bool :=
  (is_number a && is_number b) || (isinstance_str a && isinstance_str b).

(** Exactly one of three booleans is true. *)
Definition exactly_one (a b c : bool) : bool :=
  match a, b, c with
  | true, false, false | false, true, false | false, false, true => true
  | _, _, _ => false
  end.

(** ** States of the store *)

(** The store after any number of calls of [SQLEngine.execute] on a fresh
    engine, on a disk that accepts every write; [execute] leaves the store
    as its [try] block does. *)
Inductive reachable : StorageEngine.t -> Prop :=
| reachable_empty : reachable SQLEngine.empty
| reachable_execute (storage : StorageEngine.t) (sql : string) :
    reachable storage -> reachable (snd (SQLEngine.pipeline storage sql)).

(** Memory and disk agree: no two files and no two tables share a name,
    the file of every table holds the table as it is in memory, a table
    that is not in memory has no file, and every table is stored under its
    own name. *)
Definition synced (storage : StorageEngine.t) : Prop :=
  NoDup (dict_keys (StorageEngine.files storage))
  /\ NoDup (dict_keys (StorageEngine.tables storage))
  /\ (forall name,
        StorageEngine.persisted storage name
        = option_map Table.to_dict (StorageEngine.get_table storage name))
  /\ (forall name table,
        StorageEngine.get_table storage name = Some table ->
        Table.name table = name).

(** The [OSError] of a refused write. *)
Definition io_error (e : error) : bool :=
  match e with
  | OSError _ => true
  | _ => false
  end.

(** A call that did not end on a refused write. *)
Definition write_accepted (o : outcome QueryResult.t) : Prop :=
  forall message, o <> Raise (OSError message).

Definition any_outcome (o : outcome QueryResult.t) : Prop := True.

(** The store after any number of calls of [SQLEngine.execute] on a fresh
    engine, on a disk that answers each call as it pleases, every call
    ending with an [allowed] outcome of its [try] block. *)
Inductive reached (allowed : outcome QueryResult.t -> Prop)
  : StorageEngine.t -> Prop :=
| reached_empty : reached allowed SQLEngine.empty
| reached_execute (disk : StorageEngine.Disk) (storage : StorageEngine.t)
    (sql : string) :
    reached allowed storage ->
    allowed (fst (SQLEngine.pipeline_on disk storage sql)) ->
    reached allowed (snd (SQLEngine.pipeline_on disk storage sql)).

(** [table'] is [table] with rows appended: same name, same schema. *)
Definition extends (table table' : Table.t) : Prop :=
  Table.name table' = Table.name table
  /\ Table.columns table' = Table.columns table
  /\ exists new, Table.rows table' = (Table.rows table ++ new)%list.

(** The disk lags behind memory: every file holds a table as it was in
    memory at some point, under its own name, and the table is still in
    memory with the same schema and with those rows first. *)
Definition lagging (storage : StorageEngine.t) : Prop :=
  NoDup (dict_keys (StorageEngine.files storage))
  /\ NoDup (dict_keys (StorageEngine.tables storage))
  /\ (forall name table,
        StorageEngine.get_table storage name = Some table ->
        Table.name table = name)
  /\ (forall name data,
        StorageEngine.persisted storage name = Some data ->
        exists saved table,
          data = Table.to_dict saved
          /\ StorageEngine.get_table storage name = Some table
          /\ extends saved table).

(** The table a statement names. *)
Definition statement_table (statement : Statement) : string :=
  match statement with
  | SelectStatement _ table _ => table
  | InsertStatement table _ _ => table
  | CreateTableStatement table _ => table
  end.

(** Every stored row passes the validation of its table. *)
Definition rows_valid (table : Table.t) : Prop :=
  Forall (fun row => Table.validate_row table row = Ok true) (Table.rows table).

(** ** Where the lexer stands *)

(** The lexer has read [position] characters of [sql]; [rest] remains. *)
Definition reads (sql : string) (lx : Lexer.t) : Prop :=
  exists before,
    sql = before ++ Lexer.rest lx /\ String.length before = Lexer.position lx.

(** A character, followed by [after], at which no token starts: it is
    neither blank, digit, quote, letter nor underscore, it is no operator
    or delimiter, and if it is [!] no [=] follows it. *)
Definition starts_no_token (c : ascii) (after : string) : bool :=
  negb (isspace c) && negb (isdigit c) && negb (is_quote c)
  && negb (isalpha c || is_underscore c)
  && match Lexer.char_map_get Lexer.char_map c with
     | Some _ => false
     | None => true
     end
  && negb (Ascii.eqb c "!" && Lexer.next_is (Lexer.mk 0 (String c after)) "=").

(** What an exception of the lexer says about the text it was raised on. *)
Definition located (sql : string) (e : error) : Prop :=
  match e with
  | UnexpectedCharacter c pos =>
      exists before after,
        sql = before ++ String c after
        /\ String.length before = pos
        /\ starts_no_token c after = true
  | UnterminatedString pos =>
      exists before after,
        sql = before ++ String "'" after
        /\ String.length before = pos
        /\ contains is_quote after = false
  | InvalidFloatLiteral s =>
      exists before after,
        sql = before ++ s ++ after
        /\ all_chars number_char s = true
        /\ run_ends number_char after = true
        /\ 2 <= count_chars is_dot s
  | IntegerStringTooLong digits =>
      exists before s after,
        sql = before ++ s ++ after
        /\ all_chars isdigit s = true
        /\ run_ends number_char after = true
        /\ String.length s = digits
        /\ (max_str_digits < Z.of_nat digits)%Z
  | _ => False
  end.

(* ================================================================== *)
(** * Properties                                                        *)
(* ================================================================== *)

(** ** Dictionaries *)

Section DictFacts.
Context {V : Type}.
Implicit Types (d : dict V) (k : string) (v : V).

Lemma dict_get_set_same d k v : dict_get (dict_set d k v) k = Some v.
Proof.
  induction d as [|[k' v'] r IH]; simpl.
  - now rewrite String.eqb_refl.
  - destruct (String.eqb k' k) eqn:E; simpl; rewrite E; auto.
Qed.

Lemma dict_get_set_other d k k' v :
  k <> k' -> dict_get (dict_set d k v) k' = dict_get d k'.
Proof.
  intros Hne. induction d as [|[k0 v0] r IH]; simpl.
  - destruct (String.eqb k k') eqn:E; auto.
    apply String.eqb_eq in E. contradiction.
  - destruct (String.eqb k0 k) eqn:E; simpl.
    + apply String.eqb_eq in E. subst k0.
      destruct (String.eqb k k') eqn:E'; auto.
      apply String.eqb_eq in E'. contradiction.
    + now rewrite IH.
Qed.

(** Writing back the value a key already has changes nothing. *)
Lemma dict_set_id d k v : dict_get d k = Some v -> dict_set d k v = d.
Proof.
  induction d as [|[k' v'] r IH]; simpl; [discriminate|].
  destruct (String.eqb k' k); intros H.
  - now inversion H.
  - now rewrite IH.
Qed.

Lemma dict_get_some_in_keys d k v : dict_get d k = Some v -> In k (dict_keys d).
Proof.
  induction d as [|[k' v'] r IH]; simpl; [discriminate|].
  destruct (String.eqb k' k) eqn:E; intros H.
  - left. now apply String.eqb_eq.
  - right. auto.
Qed.

Lemma dict_keys_set d k v :
  dict_keys (dict_set d k v)
  = if dict_mem d k then dict_keys d else (dict_keys d ++ [k])%list.
Proof.
  unfold dict_mem. induction d as [|[k' v'] r IH]; simpl; auto.
  destruct (String.eqb k' k) eqn:E; simpl; auto.
  rewrite IH. now destruct (dict_get r k).
Qed.

Lemma dict_mem_in_keys d k : dict_mem d k = true <-> In k (dict_keys d).
Proof.
  unfold dict_mem. induction d as [|[k' v'] r IH]; simpl.
  - split; [discriminate | tauto].
  - destruct (String.eqb k' k) eqn:E.
    + apply String.eqb_eq in E. tauto.
    + apply String.eqb_neq in E. rewrite IH. tauto.
Qed.

End DictFacts.

Lemma str_in_In x names : str_in x names = true <-> In x names.
Proof.
  unfold str_in. rewrite existsb_exists. split.
  - intros [y [Hy E]]. apply String.eqb_eq in E. now subst.
  - intros H. exists x. split; auto. apply String.eqb_refl.
Qed.

(** ** Table store *)

Lemma check_keys_cases table_name names keys :
  Table.check_keys table_name names keys = Ok tt
  \/ exists e, Table.check_keys table_name names keys = Raise e.
Proof.
  induction keys as [|key r IH]; simpl; auto.
  destruct (str_in key names); eauto.
Qed.

Lemma check_keys_ok table_name names keys :
  Table.check_keys table_name names keys = Ok tt ->
  forall key, In key keys -> In key names.
Proof.
  induction keys as [|key r IH]; simpl; [tauto|].
  destruct (str_in key names) eqn:E; [|discriminate].
  intros H k [<-|Hk]; auto. now apply str_in_In.
Qed.

Lemma check_column_cases row col :
  Table.check_column row col = Ok tt
  \/ exists e, Table.check_column row col = Raise e.
Proof.
  unfold Table.check_column.
  destruct (dict_get row (Column.name col)) as [v|]; auto.
  destruct (String.eqb (Column.data_type col) "INT").
  { destruct (isinstance_int v); eauto. }
  destruct (String.eqb (Column.data_type col) "VARCHAR"); auto.
  destruct v; eauto.
  destruct (truthy (Column.size col)); auto.
  unfold py_gt, py_order. destruct (py_compare _ _) as [c|]; simpl; eauto.
  destruct c; eauto.
Qed.

Lemma check_columns_cases row cols :
  Table.check_columns row cols = Ok tt
  \/ exists e, Table.check_columns row cols = Raise e.
Proof.
  induction cols as [|col r IH]; simpl; auto.
  destruct (check_column_cases row col) as [-> | [e ->]]; simpl; eauto.
Qed.

(** Validation has two outcomes: it returns [True] or it raises. *)
Lemma validate_row_cases table row :
  Table.validate_row table row = Ok true
  \/ exists e, Table.validate_row table row = Raise e.
Proof.
  unfold Table.validate_row.
  destruct (check_keys_cases (Table.name table) (Table.get_column_names table)
              (dict_keys row)) as [-> | [e ->]]; simpl; eauto.
  destruct (check_columns_cases row (Table.columns table)) as [-> | [e ->]];
    simpl; eauto.
Qed.

Lemma check_keys_raises_iff table_name names keys :
  (exists e, Table.check_keys table_name names keys = Raise e)
  <-> exists key, In key keys /\ ~ In key names.
Proof.
  induction keys as [|key r IH]; simpl.
  - split; [intros [e H]; discriminate | intros [key [[] _]]].
  - destruct (str_in key names) eqn:E.
    + apply str_in_In in E. rewrite IH. split.
      * intros [k [Hk Hn]]. eauto.
      * intros [k [[<- | Hk] Hn]]; [contradiction | eauto].
    + split; [|eauto]. intros _. exists key. split; auto.
      intros Hin. apply str_in_In in Hin. congruence.
Qed.

Lemma check_columns_raises_iff row cols :
  (exists e, Table.check_columns row cols = Raise e)
  <-> exists col, In col cols /\ exists e, Table.check_column row col = Raise e.
Proof.
  induction cols as [|col r IH]; simpl.
  - split; [intros [e H]; discriminate | intros [col [[] _]]].
  - destruct (check_column_cases row col) as [Hok | [e He]].
    + rewrite Hok. simpl. rewrite IH. split.
      * intros [c [Hc He]]. eauto.
      * intros [c [[<- | Hc] [e He]]]; [congruence | eauto].
    + rewrite He. simpl. split; eauto.
Qed.

(** What failing validation means: the row has a key that is no declared
    column, or the check of some declared column (value kind, text length)
    raises. *)
Lemma validate_row_raises_iff table row :
  (exists e, Table.validate_row table row = Raise e)
  <-> (exists key, In key (dict_keys row)
                   /\ ~ In key (Table.get_column_names table))
      \/ (exists col, In col (Table.columns table)
                      /\ exists e, Table.check_column row col = Raise e).
Proof.
  rewrite <- (check_keys_raises_iff (Table.name table)), <- check_columns_raises_iff.
  unfold Table.validate_row.
  destruct (check_keys_cases (Table.name table) (Table.get_column_names table)
              (dict_keys row)) as [-> | [e ->]]; simpl.
  - destruct (check_columns_cases row (Table.columns table)) as [-> | [e ->]]; simpl.
    + split; [intros [e H]; discriminate|].
      intros [[e H] | [e H]]; discriminate.
    + split; eauto.
  - split; eauto.
Qed.

(** A row that fails validation changes neither the table nor the store. *)
Lemma insert_raises_unchanged storage table_name table row e :
  StorageEngine.get_table storage table_name = Some table ->
  Table.validate_row table row = Raise e ->
  Table.insert table row = (Raise e, table)
  /\ StorageEngine.insert_row storage table_name row = (Raise e, storage).
Proof.
  intros Hget He. unfold StorageEngine.insert_row, Table.insert.
  rewrite Hget, He. split; [reflexivity|].
  unfold StorageEngine.get_table in Hget. rewrite (dict_set_id _ _ _ Hget).
  now destruct storage.
Qed.

(** C2. Insertion is atomic with respect to validation.  For a table
    stored under [table_name]: a row either passes validation or raises;
    if [validate_row] raises, [Table.insert] raises the same exception and
    leaves the table as it was, and [StorageEngine.insert_row] leaves the
    whole store as it was, the row sequence and the persisted records
    included; if it passes, the row is appended, the row count grows by
    exactly one, and the table's record is persisted anew. *)
Theorem insert_atomic_wrt_validation
    (storage : StorageEngine.t) (table_name : string) (table : Table.t) (row : Row) :
  StorageEngine.get_table storage table_name = Some table ->
  (Table.validate_row table row = Ok true
   \/ exists e, Table.validate_row table row = Raise e)
  /\ (forall e, Table.validate_row table row = Raise e ->
        Table.insert table row = (Raise e, table)
        /\ StorageEngine.insert_row storage table_name row = (Raise e, storage))
  /\ (Table.validate_row table row = Ok true ->
        exists table' storage',
          Table.insert table row = (Ok tt, table')
          /\ Table.rows table' = (Table.rows table ++ [row])%list
          /\ List.length (Table.rows table') = S (List.length (Table.rows table))
          /\ StorageEngine.insert_row storage table_name row = (Ok tt, storage')
          /\ StorageEngine.get_table storage' table_name = Some table'
          /\ StorageEngine.persisted storage' (Table.name table)
             = Some (Table.to_dict table')).
Proof.
  intros Hget. split; [apply validate_row_cases|]. split.
  - intros e He. now apply insert_raises_unchanged.
  - intros Hok.
    unfold StorageEngine.insert_row, Table.insert. rewrite Hget, Hok.
    eexists _, _. repeat split; simpl.
    + rewrite length_app. simpl. lia.
    + unfold StorageEngine.get_table. simpl. apply dict_get_set_same.
    + unfold StorageEngine.persisted. simpl. apply dict_get_set_same.
Qed.

Lemma insert_atomic_wrt_validation_witness :
  StorageEngine.get_table test_storage "test" = Some test_table
  /\ StorageEngine.insert_row test_storage "test" long_code_row
     = (Raise (ExceedsMaximumLength "code" (PyInt 10)), test_storage).
Proof.
  split; [reflexivity|].
  destruct (insert_atomic_wrt_validation test_storage "test" test_table
              long_code_row eq_refl) as [_ [H _]].
  apply H. reflexivity.
Defined.

(** The fixture is the state the engine reaches on the statements of
    [test.py]; the over-long code and the ill-typed id are refused and
    leave it as it is (Scenario D). *)
Example test_storage_reached :
  SQLEngine.run no_float_text SQLEngine.empty
    ["CREATE TABLE test (id INT, code VARCHAR(10))";
     "INSERT INTO test (id, code) VALUES (1, 'ABC')";
     "INSERT INTO test (id, code) VALUES (2, 'VERYLONGCODE123')";
     "INSERT INTO test (id, code) VALUES ('not_a_number', 'XYZ')"]
  = ([Ok (QueryResult.of_message "Table 'test' created successfully");
      Ok (QueryResult.new None None 1 (Some "1 row inserted into 'test'"));
      Ok (QueryResult.of_message
            "Error: Value for 'code' exceeds maximum length of 10");
      Ok (QueryResult.of_message "Error: Column 'id' expects INT, got str")],
     test_storage).
Proof. vm_compute. reflexivity. Qed.

(** Under a schema of INT and VARCHAR columns, a column the row gives a
    float to is refused by the type check. *)
Lemma check_columns_float row cols k f :
  dict_get row k = Some (PyFloat f) ->
  (forall col, In col cols ->
     Column.data_type col = "INT" \/ Column.data_type col = "VARCHAR") ->
  (exists col, In col cols /\ Column.name col = k) ->
  exists e, Table.check_columns row cols = Raise e.
Proof.
  intros Hk. induction cols as [|col r IH]; intros Hty [c [Hin Hname]].
  - destruct Hin.
  - simpl. destruct (check_column_cases row col) as [Hok | [e He]].
    + rewrite Hok. simpl. apply IH.
      * intros c' Hc'. apply Hty. now right.
      * destruct Hin as [<- | Hin]; [|eauto].
        exfalso. unfold Table.check_column in Hok. rewrite Hname, Hk in Hok.
        destruct (Hty col (or_introl eq_refl)) as [E | E]; rewrite E in Hok;
          simpl in Hok; discriminate.
    + rewrite He. simpl. eauto.
Qed.

(** C10. Floating-point values are never storable.  For a table whose
    columns are all declared INT or VARCHAR and a row that holds a float
    under some key, [validate_row] raises; so [Table.insert] raises and
    leaves the table as it was, and [StorageEngine.insert_row] leaves the
    store (rows in memory and persisted records) as it was. *)
Theorem float_row_rejected (table : Table.t) (row : Row) (k : string) (f : pyfloat) :
  (forall col, In col (Table.columns table) ->
     Column.data_type col = "INT" \/ Column.data_type col = "VARCHAR") ->
  dict_get row k = Some (PyFloat f) ->
  exists e,
    Table.validate_row table row = Raise e
    /\ Table.insert table row = (Raise e, table)
    /\ forall storage table_name,
         StorageEngine.get_table storage table_name = Some table ->
         StorageEngine.insert_row storage table_name row = (Raise e, storage).
Proof.
  intros Hty Hk.
  assert (Hv : exists e, Table.validate_row table row = Raise e).
  { unfold Table.validate_row.
    destruct (check_keys_cases (Table.name table) (Table.get_column_names table)
                (dict_keys row)) as [Hok | [e He]].
    - rewrite Hok. simpl.
      destruct (check_columns_float row (Table.columns table) k f Hk Hty)
        as [e He]; [|rewrite He; simpl; eauto].
      pose proof (check_keys_ok _ _ _ Hok k (dict_get_some_in_keys _ _ _ Hk)) as Hin.
      unfold Table.get_column_names in Hin. apply in_map_iff in Hin.
      destruct Hin as [col [Hn Hc]]. eauto.
    - rewrite He. simpl. eauto. }
  destruct Hv as [e He]. exists e. split; [exact He|]. split.
  - unfold Table.insert. now rewrite He.
  - intros storage table_name Hget.
    now apply (insert_raises_unchanged storage table_name table row e).
Qed.

Lemma float_row_rejected_witness :
  dict_get float_row "id" = Some (PyFloat (Finite 3 (-1)))
  /\ exists e, Table.insert test_table float_row = (Raise e, test_table).
Proof.
  split; [reflexivity|].
  destruct (float_row_rejected test_table float_row "id" (Finite 3 (-1)))
    as [e [_ [H _]]].
  - intros col [<- | [<- | []]]; [left | right]; reflexivity.
  - reflexivity.
  - exists e. exact H.
Defined.

(** ** Dictionaries built from pairs *)

Section DictOfPairs.
Context {V : Type}.
Implicit Types (d : dict V) (l : list (string * V)) (k : string).

Lemma dict_get_app d1 d2 k :
  dict_get (d1 ++ d2)%list k
  = match dict_get d1 k with Some v => Some v | None => dict_get d2 k end.
Proof.
  induction d1 as [|[k' v'] r IH]; simpl; auto.
  now destruct (String.eqb k' k).
Qed.

(** The last pair written for a key is the one that is read. *)
Lemma dict_get_fold_set l d k :
  dict_get (fold_left set_pair l d) k
  = match dict_get (rev l) k with Some v => Some v | None => dict_get d k end.
Proof.
  revert d. induction l as [|[k' v'] r IH]; intros d; simpl; auto.
  rewrite IH, dict_get_app. destruct (dict_get (rev r) k); auto.
  simpl. destruct (String.eqb k' k) eqn:E.
  - apply String.eqb_eq in E. subst. apply dict_get_set_same.
  - apply String.eqb_neq in E. now apply dict_get_set_other.
Qed.

Lemma dict_keys_fold_set l d k :
  In k (dict_keys (fold_left set_pair l d))
  <-> In k (dict_keys d) \/ In k (map fst l).
Proof.
  revert d. induction l as [|[k' v'] r IH]; intros d; simpl; [tauto|].
  rewrite IH. change (set_pair d (k', v')) with (dict_set d k' v').
  rewrite dict_keys_set.
  destruct (dict_mem d k') eqn:E.
  - apply dict_mem_in_keys in E. intuition (subst; auto).
  - rewrite in_app_iff. simpl. tauto.
Qed.

Lemma dict_keys_fold_set_NoDup l d :
  NoDup (dict_keys d) -> NoDup (dict_keys (fold_left set_pair l d)).
Proof.
  revert d. induction l as [|[k' v'] r IH]; intros d Hd; simpl; auto.
  apply IH. change (set_pair d (k', v')) with (dict_set d k' v').
  rewrite dict_keys_set.
  destruct (dict_mem d k') eqn:E; auto.
  apply NoDup_app; auto.
  - repeat constructor. simpl. tauto.
  - intros x Hx [<- | []].
    apply dict_mem_in_keys in Hx. congruence.
Qed.

Lemma dict_set_fresh d k (v : V) :
  ~ In k (dict_keys d) -> dict_set d k v = (d ++ [(k, v)])%list.
Proof.
  induction d as [|[k' v'] r IH]; simpl; auto.
  intros Hn. destruct (String.eqb k' k) eqn:E.
  - apply String.eqb_eq in E. tauto.
  - rewrite IH; auto.
Qed.

(** Pairs with pairwise distinct fresh keys are appended as they come. *)
Lemma fold_set_distinct l d :
  NoDup (dict_keys d ++ map fst l) -> fold_left set_pair l d = (d ++ l)%list.
Proof.
  revert d. induction l as [|[k' v'] r IH]; intros d Hd; simpl.
  - now rewrite app_nil_r.
  - change (set_pair d (k', v')) with (dict_set d k' v').
    rewrite dict_set_fresh.
    + rewrite IH.
      * now rewrite <- app_assoc.
      * unfold dict_keys. rewrite map_app. simpl. rewrite <- app_assoc. exact Hd.
    + apply NoDup_remove_2 in Hd. intros Hin. apply Hd.
      apply in_or_app. now left.
Qed.

Lemma dict_of_pairs_get l k :
  dict_get (dict_of_pairs l) k = dict_get (rev l) k.
Proof.
  unfold dict_of_pairs.
  rewrite dict_get_fold_set. now destruct (dict_get (rev l) k).
Qed.

Lemma dict_of_pairs_keys l k :
  In k (dict_keys (dict_of_pairs l)) <-> In k (map fst l).
Proof.
  unfold dict_of_pairs.
  rewrite dict_keys_fold_set. simpl. tauto.
Qed.

Lemma dict_of_pairs_NoDup l : NoDup (dict_keys (dict_of_pairs l)).
Proof.
  unfold dict_of_pairs.
  apply dict_keys_fold_set_NoDup. constructor.
Qed.

Lemma dict_of_pairs_distinct l : NoDup (map fst l) -> dict_of_pairs l = l.
Proof.
  intros H. unfold dict_of_pairs.
 
  now rewrite fold_set_distinct.
Qed.

End DictOfPairs.

(** ** SELECT *)

Lemma evaluate_condition_cases row column operator value :
  (exists b, Executor.evaluate_condition row column operator value = Ok b)
  \/ exists e, Executor.evaluate_condition row column operator value = Raise e.
Proof.
  unfold Executor.evaluate_condition.
  destruct (dict_get row column) as [v|]; [|eauto].
  unfold Executor.apply_operator, py_gt, py_lt, py_ge, py_le, py_order.
  repeat (match goal with |- context [if ?c then _ else _] => destruct c end; eauto);
    destruct (py_compare v value); eauto.
Qed.

Lemma evaluate_where_cases row where_ :
  evaluates where_ row \/ exists e, Executor.evaluate_where row where_ = Raise e.
Proof.
  unfold evaluates.
  induction where_ as [column operator value | l IHl operator r IHr]; simpl.
  - apply evaluate_condition_cases.
  - destruct IHl as [[bl ->] | [e ->]]; simpl; [|eauto].
    destruct IHr as [[br ->] | [e ->]]; simpl; [|eauto].
    destruct (String.eqb operator "AND"); [eauto|].
    destruct (String.eqb operator "OR"); eauto.
Qed.

(** The comprehension keeps exactly the rows on which the clause holds,
    provided the clause can be evaluated on every row. *)
Lemma filter_rows_ok where_ rows kept :
  Executor.filter_rows where_ rows = Ok kept
  <-> Forall (evaluates where_) rows /\ kept = filter (holds where_) rows.
Proof.
  revert kept. induction rows as [|row r IH]; intros kept; simpl.
  - split.
    + intros H. inversion H. auto.
    + intros [_ ->]. reflexivity.
  - unfold holds at 1. split.
    + destruct (Executor.evaluate_where row where_) as [b| |] eqn:E; simpl;
        try discriminate.
      destruct (Executor.filter_rows where_ r) as [k| |] eqn:F; simpl;
        try discriminate.
      intros H. inversion H; subst; clear H.
      destruct (proj1 (IH k) eq_refl) as [Hall ->].
      split; [constructor; [now exists b | assumption]|].
      now destruct b.
    + intros [Hall ->]. inversion Hall as [|? ? [b Hb] Hr]; subst.
      rewrite Hb. simpl.
      rewrite (proj2 (IH (filter (holds where_) r)) (conj Hr eq_refl)). simpl.
      now destruct b.
Qed.

Lemma filter_rows_cases where_ rows :
  (exists kept, Executor.filter_rows where_ rows = Ok kept)
  \/ exists e, Executor.filter_rows where_ rows = Raise e.
Proof.
  induction rows as [|row r IH]; simpl; [eauto|].
  destruct (evaluate_where_cases row where_) as [[b ->] | [e ->]]; simpl; [|eauto].
  destruct IH as [[k ->] | [e ->]]; simpl; eauto.
Qed.

Lemma check_requested_ok table_name names cols :
  (forall c, In c cols -> In c names) ->
  Executor.check_requested table_name names cols = Ok tt.
Proof.
  induction cols as [|c r IH]; simpl; auto.
  intros H. rewrite (proj2 (str_in_In c names) (H c (or_introl eq_refl))).
  apply IH. intros x Hx. apply H. now right.
Qed.

Lemma check_requested_first_missing table_name names pre c post :
  (forall x, In x pre -> In x names) -> ~ In c names ->
  Executor.check_requested table_name names (pre ++ c :: post)
  = Raise (ColumnDoesNotExist c table_name).
Proof.
  intros Hpre Hc. induction pre as [|x r IH]; simpl.
  - destruct (str_in c names) eqn:E; auto.
    apply str_in_In in E. contradiction.
  - rewrite (proj2 (str_in_In x names) (Hpre x (or_introl eq_refl))).
    apply IH. intros y Hy. apply Hpre. now right.
Qed.

Lemma check_requested_missing table_name names cols c :
  In c cols -> ~ In c names ->
  exists c', Executor.check_requested table_name names cols
             = Raise (ColumnDoesNotExist c' table_name).
Proof.
  induction cols as [|x r IH]; simpl; [tauto|].
  intros Hin Hc. destruct (str_in x names) eqn:E; [|eauto].
  destruct Hin as [-> | Hin]; [|auto].
  apply str_in_In in E. contradiction.
Qed.



(** Scenario A, from the SQL text to the result. *)
Example scenario_a :
  SQLEngine.run no_float_text SQLEngine.empty
    ["CREATE TABLE users (id INT, name VARCHAR(50), age INT)";
     "INSERT INTO users (id, name, age) VALUES (1, 'Alice', 25)";
     "INSERT INTO users (id, name, age) VALUES (2, 'Bob', 30)";
     "INSERT INTO users (id, name, age) VALUES (3, 'Charlie', 35)";
     "SELECT name, age FROM users WHERE age > 26 AND age < 32"]
  = ([Ok (QueryResult.of_message "Table 'users' created successfully");
      Ok (QueryResult.new None None 1 (Some "1 row inserted into 'users'"));
      Ok (QueryResult.new None None 1 (Some "1 row inserted into 'users'"));
      Ok (QueryResult.new None None 1 (Some "1 row inserted into 'users'"));
      Ok (QueryResult.mk ["name"; "age"]
            [[("name", PyStr "Bob"); ("age", PyInt 30)]] 0 None)],
     users_storage).
Proof. vm_compute. reflexivity. Qed.

(** *** Projection *)

Lemma dict_get_tabulate {V : Type} (g : string -> V) (l : list string) (c : string) :
  In c l -> dict_get (map (fun col => (col, g col)) l) c = Some (g c).
Proof.
  induction l as [|x r IH]; simpl; [tauto|].
  destruct (String.eqb x c) eqn:E.
  - apply String.eqb_eq in E. now subst.
  - apply String.eqb_neq in E. intros [-> | H]; [contradiction | auto].
Qed.

Lemma map_fst_tabulate {V : Type} (g : string -> V) (l : list string) :
  map fst (map (fun col => (col, g col)) l) = l.
Proof. rewrite map_map. simpl. apply map_id. Qed.

Lemma project_keys columns row c :
  In c (dict_keys (Executor.project columns row)) <-> In c columns.
Proof.
  unfold Executor.project. rewrite dict_of_pairs_keys.
  now rewrite map_fst_tabulate.
Qed.

Lemma project_get columns row c :
  In c columns ->
  dict_get (Executor.project columns row) c = Some (Executor.row_get row c).
Proof.
  intros H. unfold Executor.project.
  rewrite dict_of_pairs_get, <- map_rev.
  apply dict_get_tabulate. now apply -> in_rev.
Qed.

(** The error of a filter is the one [evaluate_where] raises on the first
    row on which it raises. *)
Lemma filter_rows_first_raise w rows e :
  Executor.filter_rows w rows = Raise e ->
  exists pre row post,
    rows = (pre ++ row :: post)%list
    /\ Forall (evaluates w) pre
    /\ Executor.evaluate_where row w = Raise e.
Proof.
  induction rows as [|row r IH]; simpl; [discriminate|].
  destruct (Executor.evaluate_where row w) as [keep| e' |] eqn:Hrow; simpl.
  - destruct (Executor.filter_rows w r) as [kept| e' |]; simpl; try discriminate.
    intros H. inversion H; subst e'.
    destruct (IH eq_refl) as [pre [row' [post [-> [Hpre Hr]]]]].
    exists (row :: pre), row', post. repeat split; auto.
    constructor; auto. now exists keep.
  - intros H. inversion H; subst e'. exists [], row, r. repeat split; auto.
  - discriminate.
Qed.

(** C5 (amended). SELECT column resolution, for a table stored under
    [table_name].  When the WHERE step (absent, or evaluated on every row
    without raising) leaves [rows]: the sentinel [['*']] resolves to the
    declared column order; an explicit list whose names are all declared
    is returned verbatim, in the requested order; an explicit list with an
    undeclared name fails with "column does not exist" for the first such
    name.  Whatever the WHERE step does, an explicit list with an
    undeclared name makes the statement fail.  If the WHERE step raises,
    the statement fails with that error, whatever columns are requested,
    declared or not; the error is the one [evaluate_where] raises on the
    first stored row on which it raises.  Each row of a result is
    projected to exactly the resolved columns, with [row.get(col)] under
    each. *)
Theorem select_column_resolution
    (storage : StorageEngine.t) (columns : list string) (table_name : string)
    (where_ : option WhereClause) (table : Table.t) :
  StorageEngine.get_table storage table_name = Some table ->
  (forall rows,
      surviving_rows where_ table = Ok rows ->
      Executor.is_star columns = true ->
      Executor.execute_select storage columns table_name where_
      = Ok (QueryResult.mk (Table.get_column_names table)
              (map (Executor.project (Table.get_column_names table)) rows) 0 None))
  /\ (forall rows,
        surviving_rows where_ table = Ok rows ->
        Executor.is_star columns = false ->
        (forall c, In c columns -> In c (Table.get_column_names table)) ->
        Executor.execute_select storage columns table_name where_
        = Ok (QueryResult.mk columns (map (Executor.project columns) rows) 0 None))
  /\ (forall rows pre c post,
        surviving_rows where_ table = Ok rows ->
        Executor.is_star columns = false ->
        columns = (pre ++ c :: post)%list ->
        (forall x, In x pre -> In x (Table.get_column_names table)) ->
        ~ In c (Table.get_column_names table) ->
        Executor.execute_select storage columns table_name where_
        = Raise (ColumnDoesNotExist c table_name))
  /\ (forall c,
        Executor.is_star columns = false ->
        In c columns -> ~ In c (Table.get_column_names table) ->
        exists e, Executor.execute_select storage columns table_name where_ = Raise e)
  /\ (forall e,
        surviving_rows where_ table = Raise e ->
        Executor.execute_select storage columns table_name where_ = Raise e)
  /\ (forall w e,
        where_ = Some w ->
        surviving_rows where_ table = Raise e ->
        exists pre row post,
          Table.rows table = (pre ++ row :: post)%list
          /\ Forall (evaluates w) pre
          /\ Executor.evaluate_where row w = Raise e)
  /\ (forall cs row c,
        (In c (dict_keys (Executor.project cs row)) <-> In c cs)
        /\ (In c cs ->
            dict_get (Executor.project cs row) c = Some (Executor.row_get row c))).
Proof.
  intros Hget. unfold Executor.execute_select, surviving_rows. rewrite Hget.
  repeat split.
  - intros rows -> ->. reflexivity.
  - intros rows -> -> Hall. simpl. now rewrite check_requested_ok.
  - intros rows pre c post -> -> -> Hpre Hc. simpl.
    now rewrite check_requested_first_missing.
  - intros c Hs Hin Hc. rewrite Hs.
    assert (Hrows : (exists rows, surviving_rows where_ table = Ok rows)
                    \/ exists e, surviving_rows where_ table = Raise e).
    { destruct where_ as [w|]; simpl; [apply filter_rows_cases | eauto]. }
    unfold surviving_rows in Hrows.
    destruct Hrows as [[rows ->] | [e ->]]; simpl; [|eauto].
    destruct (check_requested_missing table_name _ _ _ Hin Hc) as [c' ->].
    simpl. eauto.
  - intros e ->. reflexivity.
  - intros w e -> He. now apply filter_rows_first_raise.
  - apply project_keys.
  - apply project_keys.
  - apply project_get.
Qed.

Lemma select_column_resolution_witness :
  StorageEngine.get_table users_storage "users" = Some users_table
  /\ Executor.execute_select users_storage ["age"; "zzz"] "users" (Some age_between)
     = Raise (ColumnDoesNotExist "zzz" "users").
Proof.
  split; [reflexivity|].
  destruct (select_column_resolution users_storage ["age"; "zzz"] "users"
              (Some age_between) users_table eq_refl) as [_ [_ [H _]]].
  apply (H [[("id", PyInt 2); ("name", PyStr "Bob"); ("age", PyInt 30)]]
           ["age"] "zzz" []); try reflexivity.
  - intros x [<- | []]. simpl. tauto.
  - simpl. intros [H0 | [H0 | [H0 | []]]]; discriminate.
Defined.

(** C5 as stated fails: the WHERE filter runs before the requested
    columns are checked, so a SELECT of an undeclared column whose WHERE
    clause cannot be evaluated fails with the error of the comparison, not
    with "column does not exist". *)
Lemma select_undeclared_column_other_error :
  StorageEngine.get_table users_storage "users" = Some users_table
  /\ ~ In "zzz" (Table.get_column_names users_table)
  /\ parse_sql "SELECT zzz FROM users WHERE name > 5"
     = Ok (SelectStatement ["zzz"] "users" (Some (Condition "name" ">" (PyInt 5))))
  /\ Executor.execute_select users_storage ["zzz"] "users"
       (Some (Condition "name" ">" (PyInt 5)))
     = Raise (NotSupportedBetween ">" (PyStr "Alice") (PyInt 5))
  /\ Executor.execute_select users_storage ["zzz"] "users"
       (Some (Condition "name" ">" (PyInt 5)))
     <> Raise (ColumnDoesNotExist "zzz" "users")
  /\ SQLEngine.execute no_float_text users_storage
       "SELECT zzz FROM users WHERE name > 5"
     = (Ok (QueryResult.of_message
              "Error: '>' not supported between instances of 'str' and 'int'"),
        users_storage).
Proof.
  split; [reflexivity|]. split.
  { simpl. intros [H | [H | [H | []]]]; discriminate. }
  split; [vm_compute; reflexivity|].
  split; [vm_compute; reflexivity|].
  split; [vm_compute; discriminate|].
  vm_compute. reflexivity.
Qed.

(** ** INSERT: pairing names with values *)

Lemma map_fst_combine {A B : Type} (l : list A) (l' : list B) :
  map fst (combine l l') = firstn (Nat.min (List.length l) (List.length l')) l.
Proof.
  revert l'. induction l as [|x r IH]; intros [|y r']; simpl; auto.
  now rewrite IH.
Qed.

(** C8 (amended). [dict(zip(columns, values))] pairs names with values
    position by position and stops at the shorter list; a name paired more
    than once is one entry, holding the value of its last pairing.  So the
    row's keys are the names among the first [min(len(columns),
    len(values))] columns, each once; the row has at most that many
    entries, and exactly that many precisely when those names are pairwise
    distinct, in which case the row is the list of pairs itself.  The
    pairing raises nothing: whatever [execute_insert] raises,
    [insert_row] raised on the built row. *)
Theorem build_row_pairing (columns : list string) (values : list pyval) :
  (forall k, In k (dict_keys (Executor.build_row columns values))
             <-> In k (firstn (Nat.min (List.length columns) (List.length values))
                              columns))
  /\ NoDup (dict_keys (Executor.build_row columns values))
  /\ (forall k, dict_get (Executor.build_row columns values) k
                = dict_get (rev (combine columns values)) k)
  /\ List.length (Executor.build_row columns values)
     <= Nat.min (List.length columns) (List.length values)
  /\ (List.length (Executor.build_row columns values)
      = Nat.min (List.length columns) (List.length values)
      <-> NoDup (firstn (Nat.min (List.length columns) (List.length values)) columns))
  /\ (NoDup (firstn (Nat.min (List.length columns) (List.length values)) columns) ->
      Executor.build_row columns values = combine columns values)
  /\ (forall storage table_name e,
        fst (Executor.execute_insert storage table_name columns values) = Raise e ->
        fst (StorageEngine.insert_row storage table_name
               (Executor.build_row columns values)) = Raise e).
Proof.
  set (n := Nat.min (List.length columns) (List.length values)).
  set (row := Executor.build_row columns values).
  assert (Hkeys : forall k, In k (dict_keys row) <-> In k (firstn n columns)).
  { intros k. unfold row, Executor.build_row.
    now rewrite dict_of_pairs_keys, map_fst_combine. }
  assert (Hnd : NoDup (dict_keys row)) by apply dict_of_pairs_NoDup.
  assert (Hlen : List.length (firstn n columns) = n).
  { rewrite length_firstn. unfold n. lia. }
  assert (Hrow : List.length row = List.length (dict_keys row)).
  { unfold dict_keys. now rewrite length_map. }
  assert (Hle : List.length row <= n).
  { rewrite Hrow, <- Hlen. apply NoDup_incl_length; auto.
    intros k. apply Hkeys. }
  split; [exact Hkeys|]. split; [exact Hnd|].
  split; [intros k; apply dict_of_pairs_get|]. split; [exact Hle|].
  split; [split|split].
  - intros Heq. apply (NoDup_incl_NoDup Hnd).
    + rewrite Hlen, <- Hrow. lia.
    + intros k. apply Hkeys.
  - intros Hd. unfold row, Executor.build_row.
    rewrite dict_of_pairs_distinct.
    + rewrite length_combine. reflexivity.
    + now rewrite map_fst_combine.
  - intros Hd. unfold row, Executor.build_row.
    apply dict_of_pairs_distinct. now rewrite map_fst_combine.
  - intros storage table_name e. unfold Executor.execute_insert.
    fold row. destruct (StorageEngine.insert_row storage table_name row)
      as [[[]|e'|] storage']; simpl; congruence.
Qed.

(** C8 as stated fails: with a repeated column name the row has fewer
    entries than the shorter list. *)
Lemma build_row_repeated_name :
  parse_sql "INSERT INTO t (a, a, b) VALUES (1, 2)"
  = Ok (InsertStatement "t" ["a"; "a"; "b"] [PyInt 1; PyInt 2])
  /\ List.length ["a"; "a"; "b"] <> List.length [PyInt 1; PyInt 2]
  /\ Executor.build_row ["a"; "a"; "b"] [PyInt 1; PyInt 2] = [("a", PyInt 2)]
  /\ List.length (Executor.build_row ["a"; "a"; "b"] [PyInt 1; PyInt 2])
     <> Nat.min (List.length ["a"; "a"; "b"]) (List.length [PyInt 1; PyInt 2]).
Proof.
  split; [vm_compute; reflexivity|].
  split; [simpl; lia|].
  split; [reflexivity|].
  simpl. lia.
Qed.

(** ** Rendering of results *)

Lemma length_append_str (s1 s2 : string) :
  String.length (s1 ++ s2) = String.length s1 + String.length s2.
Proof. induction s1; simpl; auto. Qed.

Lemma length_repeat_char c n : String.length (repeat_char c n) = n.
Proof. induction n; simpl; auto. Qed.

Lemma length_ljust s width :
  String.length (ljust s width) = Nat.max (String.length s) width.
Proof. unfold ljust. rewrite length_append_str, length_repeat_char. lia. Qed.

Section RenderFacts.
Variable float_str : pyfloat -> string.

Let L (row : Row) (col : string) : nat := String.length (cell float_str row col).

Lemma fold_set_as_pairs (f : string -> nat) (cols : list string) (w : dict nat) :
  fold_left (fun w col => dict_set w col (f col)) cols w
  = fold_left set_pair (map (fun col => (col, f col)) cols) w.
Proof. revert w. induction cols as [|c r IH]; intros w; simpl; auto. Qed.

Lemma header_widths_get columns col :
  In col columns -> width_of (header_widths columns) col = String.length col.
Proof.
  intros H. unfold width_of, header_widths.
  rewrite fold_set_as_pairs, dict_get_fold_set, <- map_rev.
  rewrite (dict_get_tabulate _ _ _ (proj1 (in_rev _ _) H)). reflexivity.
Qed.

Lemma width_of_set w col v c :
  width_of (dict_set w col v) c = if String.eqb col c then v else width_of w c.
Proof.
  unfold width_of. destruct (String.eqb col c) eqn:E.
  - apply String.eqb_eq in E. subst. now rewrite dict_get_set_same.
  - apply String.eqb_neq in E. now rewrite dict_get_set_other.
Qed.

Lemma widen_row_get columns w row c :
  width_of (widen_row float_str columns w row) c
  = if in_dec string_dec c columns
    then Nat.max (width_of w c) (L row c) else width_of w c.
Proof.
  unfold widen_row. revert w. induction columns as [|col r IH]; intros w; simpl.
  - reflexivity.
  - rewrite IH, width_of_set. fold (L row col).
    destruct (string_dec col c) as [-> | Hne].
    + rewrite String.eqb_refl. destruct (in_dec string_dec c r); lia.
    + rewrite (proj2 (String.eqb_neq col c) Hne).
      destruct (in_dec string_dec c r); reflexivity.
Qed.

Lemma widen_rows_get columns rows w c :
  In c columns ->
  width_of (fold_left (widen_row float_str columns) rows w) c
  = Nat.max (width_of w c) (list_max (map (fun row => L row c) rows)).
Proof.
  intros Hc. revert w. induction rows as [|row r IH]; intros w; simpl.
  - lia.
  - rewrite IH, widen_row_get.
    destruct (in_dec string_dec c columns); [lia | contradiction].
Qed.

(** The width table the two loops of [__str__] build holds, for every
    column, the widest of its header and its values. *)
Lemma column_widths_widest columns rows col :
  In col columns ->
  width_of (column_widths float_str columns rows) col = widest float_str rows col.
Proof.
  intros H. unfold column_widths, widest.
  rewrite widen_rows_get, header_widths_get by assumption. reflexivity.
Qed.

Lemma widest_bounds rows col :
  String.length col <= widest float_str rows col
  /\ forall row, In row rows ->
       String.length (cell float_str row col) <= widest float_str rows col.
Proof.
  unfold widest.
  pose proof (proj1 (list_max_le
    (String.length col :: map (fun row => String.length (cell float_str row col)) rows)
    _) (le_n _)) as H.
  inversion H as [|? ? Hh Ht]; subst. split; [exact Hh|].
  intros row Hin. rewrite Forall_forall in Ht. apply Ht.
  apply in_map_iff. now exists row.
Qed.

End RenderFacts.

(** C9 (amended). Rendering of a [QueryResult].  A non-empty message is
    rendered verbatim.  Without one (no message, or the empty message): with
    no rows the text is [(<rows_affected> rows affected)]; otherwise it is
    the header of column names, a separator of dashes, one line per row,
    an empty line and [(<N> rows)], joined by newlines, where every column
    is as wide as the widest of its header and its values, headers and
    values are left-justified (filled with spaces on the right) to that
    width and joined by [" | "], and the dashes by ["-+-"]. *)
Theorem render_layout (float_str : pyfloat -> string) (self : QueryResult.t) :
  (forall m, QueryResult.message self = Some m -> m <> EmptyString ->
             render float_str self = m)
  /\ (no_message self -> QueryResult.rows self = [] ->
      render float_str self
      = "(" ++ str_of_Z (QueryResult.rows_affected self) ++ " rows affected)")
  /\ (no_message self -> QueryResult.rows self <> [] ->
      render float_str self
      = join newline
          ([header_line float_str (QueryResult.columns self) (QueryResult.rows self);
            separator_line float_str (QueryResult.columns self) (QueryResult.rows self)]
           ++ map (row_line float_str (QueryResult.columns self) (QueryResult.rows self))
                  (QueryResult.rows self)
           ++ [footer_line (QueryResult.rows self)])%list)
  /\ (forall col row, In row (QueryResult.rows self) ->
        String.length (repeat_char "-" (widest float_str (QueryResult.rows self) col))
        = widest float_str (QueryResult.rows self) col
        /\ String.length (ljust col (widest float_str (QueryResult.rows self) col))
           = widest float_str (QueryResult.rows self) col
        /\ String.length (ljust (cell float_str row col)
                                (widest float_str (QueryResult.rows self) col))
           = widest float_str (QueryResult.rows self) col
        /\ ljust (cell float_str row col) (widest float_str (QueryResult.rows self) col)
           = cell float_str row col
             ++ repeat_char " " (widest float_str (QueryResult.rows self) col
                                 - String.length (cell float_str row col))).
Proof.
  assert (Hno : no_message self ->
                render float_str self
                = match QueryResult.rows self with
                  | [] => "(" ++ str_of_Z (QueryResult.rows_affected self)
                          ++ " rows affected)"
                  | _ :: _ =>
                      join newline
                        ([header_line float_str (QueryResult.columns self)
                            (QueryResult.rows self);
                          separator_line float_str (QueryResult.columns self)
                            (QueryResult.rows self)]
                         ++ map (row_line float_str (QueryResult.columns self)
                                   (QueryResult.rows self))
                                (QueryResult.rows self)
                         ++ [footer_line (QueryResult.rows self)])%list
                  end).
  { intros Hm. unfold render.
    assert (E : forall A (f : string -> nat -> A),
               map (fun col => f col (width_of (column_widths float_str
                      (QueryResult.columns self) (QueryResult.rows self)) col))
                   (QueryResult.columns self)
               = map (fun col => f col (widest float_str (QueryResult.rows self) col))
                     (QueryResult.columns self)).
    { intros A f. apply map_ext_in. intros col Hc.
      now rewrite column_widths_widest. }
    unfold header_line, separator_line, row_line.
    rewrite <- (E _ (fun col w => ljust col w)).
    rewrite <- (E _ (fun col w => repeat_char "-" w)).
    assert (E' : map (fun row => join " | "
                        (map (fun col => ljust (cell float_str row col)
                           (widest float_str (QueryResult.rows self) col))
                           (QueryResult.columns self))) (QueryResult.rows self)
                 = map (fun row => join " | "
                        (map (fun col => ljust (cell float_str row col)
                           (width_of (column_widths float_str
                              (QueryResult.columns self) (QueryResult.rows self)) col))
                           (QueryResult.columns self))) (QueryResult.rows self)).
    { apply map_ext. intros row.
      now rewrite <- (E _ (fun col w => ljust (cell float_str row col) w)). }
    rewrite E'.
    destruct Hm as [-> | ->]; simpl; destruct (QueryResult.rows self); reflexivity. }
  split; [|split; [|split]].
  - intros m Hm Hne. unfold render. rewrite Hm.
    destruct (String.eqb m EmptyString) eqn:E; auto.
    apply String.eqb_eq in E. contradiction.
  - intros Hm Hr. rewrite (Hno Hm), Hr. reflexivity.
  - intros Hm Hr. rewrite (Hno Hm).
    destruct (QueryResult.rows self); [contradiction | reflexivity].
  - intros col row Hin.
    destruct (widest_bounds float_str (QueryResult.rows self) col) as [Hh Hc].
    specialize (Hc row Hin).
    rewrite length_repeat_char, !length_ljust. repeat split; lia.
Qed.

(** C9 as stated fails on the empty message: it is set, but [if
    self.message] treats it as absent, so the text is the rows-affected line
    and not the message. *)
Lemma render_empty_message :
  QueryResult.message (QueryResult.new None None 0 (Some EmptyString))
  = Some EmptyString
  /\ render no_float_text (QueryResult.new None None 0 (Some EmptyString))
     = "(0 rows affected)"
  /\ render no_float_text (QueryResult.new None None 0 (Some EmptyString))
     <> EmptyString.
Proof.
  split; [reflexivity|]. split; [reflexivity|]. discriminate.
Qed.

(** The result of Scenario A, rendered. *)
Example render_scenario_a :
  render no_float_text
    (QueryResult.mk ["name"; "age"] [[("name", PyStr "Bob"); ("age", PyInt 30)]] 0 None)
  = "name | age" ++ newline
    ++ "-----+----" ++ newline
    ++ "Bob  | 30 " ++ newline
    ++ newline
    ++ "(1 rows)".
Proof. vm_compute. reflexivity. Qed.

(** ** Parser: WHERE clauses *)

Lemma parse_condition_ok c ts :
  cond_tokens_ok c = true ->
  Parser.parse_condition (tokens_of c ++ ts)%list = Ok (condition_of c, ts).
Proof.
  destruct c as [t1 t2 t3]. unfold cond_tokens_ok, condition_of, tokens_of. simpl.
  intros H. apply andb_prop in H. destruct H as [H H3].
  apply andb_prop in H. destruct H as [H1 H2].
  unfold Parser.parse_condition, Parser.expect_name, Parser.seq, Parser.expect,
    Parser.current_type, Parser.ret. simpl. rewrite H1.
  destruct (Parser.operator_map (Token.type t2)) as [op|]; [|discriminate].
  unfold Parser.advance. simpl.
  unfold Parser.parse_value, Parser.seq, Parser.current_type. simpl.
  destruct (Token.type t3); simpl in H3; try discriminate; reflexivity.
Qed.

Lemma where_loop_step fuel left lg ts :
  Parser.is_logical (Token.type lg) = true ->
  Parser.where_loop (S fuel) left (lg :: ts)
  = match Parser.parse_condition ts with
    | Ok (rhs, ts') =>
        Parser.where_loop fuel
          (CompoundCondition left (Parser.text_of (Token.value lg)) rhs) ts'
    | Raise e => Raise e
    | Timeout => Timeout
    end.
Proof.
  intros H. simpl. unfold Parser.seq, Parser.current_type, Parser.current_value,
    Parser.advance. simpl. rewrite H. change (tl (lg :: ts)) with ts.
  destruct (Parser.parse_condition ts) as [[rhs ts']| |]; reflexivity.
Qed.

Lemma where_loop_stop fuel left tok ts :
  Parser.is_logical (Token.type tok) = false ->
  Parser.where_loop fuel left (tok :: ts) = Ok (left, tok :: ts).
Proof.
  intros H. destruct fuel; simpl; unfold Parser.seq, Parser.current_type; simpl;
    rewrite H; reflexivity.
Qed.

Lemma where_loop_ok more :
  forall fuel left rest,
    List.length more <= fuel ->
    Forall (fun p => Parser.is_logical (Token.type (fst p)) = true
                     /\ cond_tokens_ok (snd p) = true) more ->
    clause_ends rest = true ->
    Parser.where_loop fuel left
      (flat_map (fun p => fst p :: tokens_of (snd p)) more ++ rest)%list
    = Ok (left_nested left more, rest).
Proof.
  induction more as [|[lg c] m IH]; intros fuel left rest Hfuel Hall Hend.
  - simpl. destruct rest as [|tok r]; [discriminate|]. simpl in Hend.
    apply negb_true_iff in Hend. now apply where_loop_stop.
  - inversion Hall as [|? ? [Hlg Hc] Hm]; subst. simpl in Hlg, Hc, Hfuel.
    destruct fuel as [|fuel]; [lia|].
    change (flat_map (fun p => fst p :: tokens_of (snd p)) ((lg, c) :: m) ++ rest)%list
      with (lg :: (tokens_of c
                   ++ (flat_map (fun p => fst p :: tokens_of (snd p)) m ++ rest)))%list.
    rewrite (where_loop_step _ _ _ _ Hlg), (parse_condition_ok c _ Hc).
    apply IH; auto. lia.
Qed.

(** C6. For the tokens of [c1 op1 c2 op2 ... opn c(n+1)], every [opi] an
    AND or OR token, followed by a token that is neither, [parse_where]
    returns the strictly left-nested tree
    [((c1 op1 c2) op2 c3) ... opn c(n+1)] and stops before that token: the
    nesting follows the order of the operators only, whichever of AND and OR
    they are. *)
Theorem parse_where_left_assoc
    (first : CondTokens) (more : list (Token * CondTokens)) (rest : list Token) :
  cond_tokens_ok first = true ->
  Forall (fun p => Parser.is_logical (Token.type (fst p)) = true
                   /\ cond_tokens_ok (snd p) = true) more ->
  clause_ends rest = true ->
  Parser.parse_where (clause_tokens first more ++ rest)%list
  = Ok (left_nested (condition_of first) more, rest).
Proof.
  intros Hfirst Hmore Hend. unfold Parser.parse_where, clause_tokens.
  unfold Parser.seq at 1. rewrite <- app_assoc.
  rewrite (parse_condition_ok first _ Hfirst).
  apply where_loop_ok; auto.
  rewrite !length_app, length_flat_map. simpl.
  clear. induction more as [|p m IH]; simpl; lia.
Qed.

Lemma parse_where_left_assoc_witness :
  let a := mkCondTokens (mkToken TokenType.IDENTIFIER (PyStr "a") 0)
                        (mkToken TokenType.EQUALS (PyStr "=") 2)
                        (mkToken TokenType.NUMBER (PyInt 1) 4) in
  let b := mkCondTokens (mkToken TokenType.IDENTIFIER (PyStr "b") 10)
                        (mkToken TokenType.GREATER (PyStr ">") 12)
                        (mkToken TokenType.NUMBER (PyInt 2) 14) in
  let c := mkCondTokens (mkToken TokenType.IDENTIFIER (PyStr "c") 19)
                        (mkToken TokenType.NOT_EQ (PyStr "!=") 21)
                        (mkToken TokenType.STRING (PyStr "x") 24) in
  let and_ := mkToken TokenType.AND (PyStr "AND") 6 in
  let or_ := mkToken TokenType.OR (PyStr "OR") 16 in
  let eof := mkToken TokenType.EOF PyNone 27 in
  Lexer.tokenize "a = 1 AND b > 2 OR c != 'x'"
  = Ok (clause_tokens a [(and_, b); (or_, c)] ++ [eof])%list
  /\ Parser.parse_where (clause_tokens a [(and_, b); (or_, c)] ++ [eof])%list
     = Ok (CompoundCondition
             (CompoundCondition (Condition "a" "=" (PyInt 1)) "AND"
                                (Condition "b" ">" (PyInt 2)))
             "OR" (Condition "c" "!=" (PyStr "x")),
           [eof]).
Proof.
  intros a b c and_ or_ eof. split; [vm_compute; reflexivity|].
  apply (parse_where_left_assoc a [(and_, b); (or_, c)] [eof]).
  - reflexivity.
  - repeat constructor.
  - reflexivity.
Defined.

(** [a AND b OR c] parses as [(a AND b) OR c], and [a OR b AND c] as
    [(a OR b) AND c]. *)
Example parse_and_or :
  parse_sql "SELECT * FROM t WHERE a = 1 AND b = 2 OR c = 3"
  = Ok (SelectStatement ["*"] "t"
          (Some (CompoundCondition
                   (CompoundCondition (Condition "a" "=" (PyInt 1)) "AND"
                                      (Condition "b" "=" (PyInt 2)))
                   "OR" (Condition "c" "=" (PyInt 3)))))
  /\ parse_sql "SELECT * FROM t WHERE a = 1 OR b = 2 AND c = 3"
     = Ok (SelectStatement ["*"] "t"
             (Some (CompoundCondition
                      (CompoundCondition (Condition "a" "=" (PyInt 1)) "OR"
                                         (Condition "b" "=" (PyInt 2)))
                      "AND" (Condition "c" "=" (PyInt 3))))).
Proof. split; vm_compute; reflexivity. Qed.

(** ** Lexer: numeric literals *)

Lemma read_while_app p run rest :
  all_chars p run = true -> run_ends p rest = true ->
  read_while p (run ++ rest) = (run, rest).
Proof.
  intros Hrun Hend. induction run as [|c r IH]; simpl in *.
  - destruct rest as [|c r]; simpl in *; auto.
    apply negb_true_iff in Hend. now rewrite Hend.
  - apply andb_prop in Hrun. destruct Hrun as [Hc Hr].
    now rewrite Hc, IH.
Qed.

Lemma read_while_split p s :
  s = fst (read_while p s) ++ snd (read_while p s)
  /\ all_chars p (fst (read_while p s)) = true
  /\ run_ends p (snd (read_while p s)) = true.
Proof.
  induction s as [|c r IH]; simpl; auto.
  destruct (p c) eqn:E.
  - destruct (read_while p r) as [run r']. simpl in *.
    destruct IH as [E1 [E2 E3]]. rewrite E. repeat split; auto. now f_equal.
  - simpl. rewrite E. auto.
Qed.

Lemma count_chars_app p s1 s2 :
  count_chars p (s1 ++ s2) = count_chars p s1 + count_chars p s2.
Proof. induction s1 as [|c r IH]; simpl; auto. rewrite IH. lia. Qed.

Lemma contains_count p s : contains p s = negb (Nat.eqb (count_chars p s) 0).
Proof.
  induction s as [|c r IH]; simpl; auto.
  destruct (p c); simpl; auto.
Qed.

Lemma digit_not_dot c : isdigit c = true -> is_dot c = false.
Proof.
  unfold is_dot. intros H. destruct (Ascii.eqb c ".") eqn:E; auto.
  apply Ascii.eqb_eq in E. subst. discriminate.
Qed.

Lemma digit_not_space c : isdigit c = true -> isspace c = false.
Proof.
  unfold isdigit, isspace, in_range. intros H.
  apply andb_prop in H. destruct H as [H1 H2].
  apply Nat.leb_le in H1. apply Nat.leb_le in H2.
  apply orb_false_iff. split; apply andb_false_iff.
  - right. apply Nat.leb_gt. lia.
  - right. apply Nat.leb_gt. lia.
Qed.

Lemma digits_no_dot s : all_chars isdigit s = true -> count_chars is_dot s = 0.
Proof.
  induction s as [|c r IH]; simpl; auto.
  intros H. apply andb_prop in H. destruct H as [Hc Hr].
  now rewrite (digit_not_dot c Hc), IH.
Qed.

Lemma number_chars_no_dot s :
  all_chars number_char s = true -> count_chars is_dot s = 0 ->
  all_chars isdigit s = true.
Proof.
  induction s as [|c r IH]; simpl; auto.
  unfold number_char at 1. intros H. apply andb_prop in H. destruct H as [Hc Hr].
  destruct (is_dot c); simpl; [discriminate|].
  rewrite orb_false_r in Hc. intros H0. now rewrite Hc, IH.
Qed.

Lemma dot_breaks_digits s :
  1 <= count_chars is_dot s -> all_chars isdigit s = false.
Proof.
  intros H. destruct (all_chars isdigit s) eqn:E; auto.
  apply digits_no_dot in E. lia.
Qed.

Lemma all_chars_app p s1 s2 :
  all_chars p (s1 ++ s2) = all_chars p s1 && all_chars p s2.
Proof. induction s1 as [|c r IH]; simpl; auto. now rewrite IH, andb_assoc. Qed.

(** What [float()] makes of a digit-led run of digits and dots. *)
Lemma py_float_run d run' :
  isdigit d = true -> all_chars number_char run' = true ->
  (count_chars is_dot (String d run') = 1 ->
   exists f, py_float (String d run') = Ok f)
  /\ (2 <= count_chars is_dot (String d run') ->
      py_float (String d run') = Raise (InvalidFloatLiteral (String d run'))).
Proof.
  intros Hd Hrun. remember (String d run') as run eqn:Erun.
  assert (Hall : all_chars number_char run = true).
  { subst run. simpl. unfold number_char at 1. now rewrite Hd. }
  destruct (read_while_split isdigit run) as [Hs [Hip Hend]].
  assert (Hlen : 1 <= String.length (fst (read_while isdigit run))).
  { subst run. simpl. rewrite Hd. destruct (read_while isdigit run'). simpl. lia. }
  unfold py_float.
  destruct (read_while isdigit run) as [ip r]. cbn [fst snd] in *.
  assert (Hcount : count_chars is_dot run = count_chars is_dot r).
  { rewrite Hs at 1. now rewrite count_chars_app, (digits_no_dot ip Hip). }
  assert (Hr : all_chars number_char r = true).
  { rewrite Hs, all_chars_app in Hall. now apply andb_prop in Hall. }
  rewrite Hcount. clear Hs Hcount Hall Erun.
  destruct r as [|c fp]; simpl in *.
  - split; intros; lia.
  - apply andb_prop in Hr. destruct Hr as [Hc Hfp].
    apply negb_true_iff in Hend. unfold number_char in Hc. rewrite Hend in Hc.
    simpl in Hc. rewrite Hc. simpl.
    replace (Nat.eqb (String.length ip + String.length fp) 0) with false
      by (symmetry; apply Nat.eqb_neq; lia).
    split; intros Hn.
    + rewrite (number_chars_no_dot fp Hfp) by lia. simpl. eauto.
    + rewrite (dot_breaks_digits fp) by lia. reflexivity.
Qed.

Lemma scan_run p pos run rest :
  all_chars p run = true -> run_ends p rest = true ->
  Lexer.scan p (Lexer.mk pos (run ++ rest))
  = (run, Lexer.mk (pos + String.length run) rest).
Proof.
  intros H1 H2. unfold Lexer.scan. simpl. now rewrite read_while_app.
Qed.

(** C7 (amended). For a maximal run of digits and dots that starts with
    a digit, met at position [pos]: with no dot and no more digits than
    [int()] converts (4300), [read_number] returns a NUMBER token holding
    the integer the digits spell; with exactly one dot, a NUMBER token
    holding the float that [float()] reads; in both cases [tokenize]
    appends that token and goes on after the run.  With no dot and more
    than 4300 digits, [int()] raises ("Exceeds the limit ... for integer
    string conversion"), and with more than one dot [float()] raises
    ("could not convert string to float"); in both cases [read_number] and
    [tokenize] raise: the literal is rejected. *)
Theorem read_number_by_dot_count
    (pos : nat) (d : ascii) (run' rest : string) (fuel : nat) (tokens : list Token) :
  isdigit d = true ->
  all_chars number_char run' = true ->
  run_ends number_char rest = true ->
  (count_chars is_dot (String d run') = 0 ->
   (Z.of_nat (String.length (String d run')) <= max_str_digits)%Z ->
   Lexer.read_number (Lexer.mk pos (String d run' ++ rest))
   = Ok (mkToken TokenType.NUMBER (PyInt (int_of_digits (String d run'))) pos,
         Lexer.mk (pos + String.length (String d run')) rest)
   /\ Lexer.tokenize_loop (S fuel) (Lexer.mk pos (String d run' ++ rest)) tokens
      = Lexer.tokenize_loop fuel
          (Lexer.mk (pos + String.length (String d run')) rest)
          (tokens ++ [mkToken TokenType.NUMBER
                        (PyInt (int_of_digits (String d run'))) pos])%list)
  /\ (count_chars is_dot (String d run') = 1 ->
      exists f,
        py_float (String d run') = Ok f
        /\ Lexer.read_number (Lexer.mk pos (String d run' ++ rest))
           = Ok (mkToken TokenType.NUMBER (PyFloat f) pos,
                 Lexer.mk (pos + String.length (String d run')) rest)
        /\ Lexer.tokenize_loop (S fuel) (Lexer.mk pos (String d run' ++ rest)) tokens
           = Lexer.tokenize_loop fuel
               (Lexer.mk (pos + String.length (String d run')) rest)
               (tokens ++ [mkToken TokenType.NUMBER (PyFloat f) pos])%list)
  /\ (2 <= count_chars is_dot (String d run') ->
      Lexer.read_number (Lexer.mk pos (String d run' ++ rest))
      = Raise (InvalidFloatLiteral (String d run'))
      /\ Lexer.tokenize_loop (S fuel) (Lexer.mk pos (String d run' ++ rest)) tokens
         = Raise (InvalidFloatLiteral (String d run'))
      /\ Lexer.tokenize (String d run' ++ rest)
         = Raise (InvalidFloatLiteral (String d run')))
  /\ (count_chars is_dot (String d run') = 0 ->
      (max_str_digits < Z.of_nat (String.length (String d run')))%Z ->
      Lexer.read_number (Lexer.mk pos (String d run' ++ rest))
      = Raise (IntegerStringTooLong (String.length (String d run')))
      /\ Lexer.tokenize_loop (S fuel) (Lexer.mk pos (String d run' ++ rest)) tokens
         = Raise (IntegerStringTooLong (String.length (String d run')))
      /\ Lexer.tokenize (String d run' ++ rest)
         = Raise (IntegerStringTooLong (String.length (String d run')))).
Proof.
  intros Hd Hrun Hend.
  destruct (py_float_run d run' Hd Hrun) as [Hone Hmany].
  assert (Hloop : forall n toks p0,
            Lexer.tokenize_loop (S n) (Lexer.mk p0 (String d run' ++ rest)) toks
            = let* '(tok, lx') :=
                Lexer.read_number (Lexer.mk p0 (String d run' ++ rest)) in
              Lexer.tokenize_loop n lx' (toks ++ [tok])%list).
  { intros n toks p0. simpl. unfold Lexer.step.
    rewrite (digit_not_space d Hd), Hd.
    destruct (Lexer.read_number _) as [[tok lx']| |]; reflexivity. }
  assert (Hlen : String.length (String d run' ++ rest)
                 = S (String.length (run' ++ rest))) by reflexivity.
  remember (String d run') as run eqn:Erun.
  assert (Hall : all_chars number_char run = true).
  { subst run. simpl. unfold number_char at 1. now rewrite Hd. }
  assert (Hread : forall p0,
            Lexer.read_number (Lexer.mk p0 (run ++ rest))
            = let* v := (if negb (Nat.eqb (count_chars is_dot run) 0)
                         then let* f := py_float run in Ok (PyFloat f)
                         else let* n := py_int run in Ok (PyInt n)) in
              Ok (mkToken TokenType.NUMBER v p0,
                  Lexer.mk (p0 + String.length run) rest)).
  { intros p0. unfold Lexer.read_number.
    rewrite (scan_run _ _ _ _ Hall Hend). cbn [Lexer.position].
    now rewrite contains_count. }
  split; [|split; [|split]].
  - intros H0 Hshort. rewrite Hloop, Hread, H0. unfold py_int.
    replace (max_str_digits <? Z.of_nat (String.length run))%Z with false
      by (symmetry; apply Z.ltb_ge; exact Hshort).
    simpl. auto.
  - intros H1. destruct (Hone H1) as [f Hf]. exists f.
    rewrite Hloop, Hread, H1, Hf. simpl. auto.
  - intros H2.
    assert (Hr : forall p0, Lexer.read_number (Lexer.mk p0 (run ++ rest))
                            = Raise (InvalidFloatLiteral run)).
    { intros p0. rewrite Hread, (Hmany H2).
      destruct (count_chars is_dot run) as [|n]; [lia | reflexivity]. }
    split; [apply Hr|]. split.
    + now rewrite Hloop, Hr.
    + unfold Lexer.tokenize, Lexer.init. rewrite Hlen, Hloop, Hr. reflexivity.
  - intros H0 Hlong.
    assert (Hr : forall p0, Lexer.read_number (Lexer.mk p0 (run ++ rest))
                            = Raise (IntegerStringTooLong (String.length run))).
    { intros p0. rewrite Hread, H0. unfold py_int.
      replace (max_str_digits <? Z.of_nat (String.length run))%Z with true
        by (symmetry; apply Z.ltb_lt; exact Hlong).
      reflexivity. }
    split; [apply Hr|]. split.
    + now rewrite Hloop, Hr.
    + unfold Lexer.tokenize, Lexer.init. rewrite Hlen, Hloop, Hr. reflexivity.
Qed.

Lemma read_number_by_dot_count_witness :
  isdigit "2" = true
  /\ Lexer.read_number (Lexer.mk 12 "26.5 AND")
     = Ok (mkToken TokenType.NUMBER (PyFloat (Finite 7459086882832384 (-48))) 12,
           Lexer.mk 16 " AND").
Proof.
  split; [reflexivity|].
  destruct (read_number_by_dot_count 12 "2" "6.5" " AND" 0 []
              eq_refl eq_refl eq_refl) as [_ [H _]].
  destruct (H eq_refl) as [f [Hf [Hr _]]].
  vm_compute in Hf. inversion Hf; subst. exact Hr.
Defined.

(** C7 as stated fails: a run with two dots is rejected, by the
    [ValueError] of [float('1.2.3')], which [SQLEngine.execute] reports. *)
Lemma tokenize_rejects_two_dots :
  Lexer.tokenize "1.2.3" = Raise (InvalidFloatLiteral "1.2.3")
  /\ (forall tokens, Lexer.tokenize "1.2.3" <> Ok tokens)
  /\ SQLEngine.execute no_float_text SQLEngine.empty "SELECT * FROM t WHERE a = 1.2.3"
     = (Ok (QueryResult.of_message
              "Error: could not convert string to float: '1.2.3'"),
        SQLEngine.empty).
Proof.
  split; [vm_compute; reflexivity|].
  split; [intros tokens; vm_compute; discriminate|].
  vm_compute. reflexivity.
Qed.

(** A run of 4301 digits is rejected too, by the [ValueError] of [int()];
    4300 digits are accepted. *)
Example tokenize_rejects_long_integer :
  Lexer.tokenize (repeat_char "7" 4301) = Raise (IntegerStringTooLong 4301)
  /\ exists n,
      Lexer.tokenize (repeat_char "7" 4300)
      = Ok [mkToken TokenType.NUMBER (PyInt n) 0; mkToken TokenType.EOF PyNone 4300].
Proof.
  split; [vm_compute; reflexivity|].
  eexists. vm_compute. reflexivity.
Qed.

(** ** The pipeline always returns or raises *)

(** *** Lexer *)

Lemma read_while_length p s :
  String.length (fst (read_while p s)) + String.length (snd (read_while p s))
  = String.length s.
Proof.
  destruct (read_while_split p s) as [E _].
  rewrite E at 3. now rewrite length_append_str.
Qed.

Lemma scan_rest_le p lx :
  String.length (Lexer.rest (snd (Lexer.scan p lx))) <= String.length (Lexer.rest lx).
Proof.
  unfold Lexer.scan. pose proof (read_while_length p (Lexer.rest lx)) as H.
  destruct (read_while p (Lexer.rest lx)) as [run r]. simpl in *. lia.
Qed.

Lemma scan_rest_lt p lx c :
  Lexer.current_char lx = Some c -> p c = true ->
  String.length (Lexer.rest (snd (Lexer.scan p lx))) < String.length (Lexer.rest lx).
Proof.
  unfold Lexer.scan, Lexer.current_char. destruct lx as [pos s]. simpl.
  destruct s as [|c' r]; [discriminate|]. intros H Hp. inversion H; subst.
  simpl. rewrite Hp. pose proof (read_while_length p r) as Hl.
  destruct (read_while p r) as [run r']. simpl in *. lia.
Qed.

Lemma advance_rest_lt lx c :
  Lexer.current_char lx = Some c ->
  String.length (Lexer.rest (Lexer.advance lx)) < String.length (Lexer.rest lx).
Proof.
  unfold Lexer.current_char, Lexer.advance. destruct lx as [pos s]. simpl.
  destruct s; [discriminate|]. simpl. lia.
Qed.

Lemma advance_rest_le lx :
  String.length (Lexer.rest (Lexer.advance lx)) <= String.length (Lexer.rest lx).
Proof.
  unfold Lexer.advance. destruct lx as [pos s]. simpl. destruct s; simpl; lia.
Qed.

Lemma py_float_cases s :
  (exists f, py_float s = Ok f) \/ exists e, py_float s = Raise e.
Proof.
  unfold py_float. destruct (read_while isdigit s) as [ip r].
  destruct r as [|c fp].
  - destruct (Nat.eqb (String.length ip) 0); eauto.
  - destruct (is_dot c && all_chars isdigit fp
              && negb (Nat.eqb (String.length ip + String.length fp) 0)); eauto.
Qed.

(** A pass of the [tokenize] loop consumes at least one character. *)
Lemma step_progress lx c tokens :
  Lexer.current_char lx = Some c ->
  match Lexer.step lx c tokens with
  | Ok (_, lx') => String.length (Lexer.rest lx') < String.length (Lexer.rest lx)
  | Raise _ => True
  | Timeout => False
  end.
Proof.
  intros Hc. unfold Lexer.step.
  destruct (isspace c) eqn:Hs.
  { unfold Lexer.skip_whitespace. now apply (scan_rest_lt isspace lx c). }
  destruct (isdigit c) eqn:Hd.
  { unfold Lexer.read_number.
    pose proof (scan_rest_lt number_char lx c Hc) as Hlt.
    unfold number_char at 1 in Hlt. rewrite Hd in Hlt. specialize (Hlt eq_refl).
    destruct (Lexer.scan number_char lx) as [num_str lx']. simpl in Hlt.
    destruct (contains is_dot num_str); simpl;
      [|unfold py_int; destruct (max_str_digits <? _)%Z; simpl; auto].
    destruct (py_float_cases num_str) as [[f ->] | [e ->]]; simpl; auto. }
  destruct (is_quote c) eqn:Hq.
  { unfold Lexer.read_string.
    pose proof (advance_rest_lt lx c Hc) as H1.
    pose proof (scan_rest_le (fun c0 => negb (is_quote c0)) (Lexer.advance lx)) as H2.
    destruct (Lexer.scan _ (Lexer.advance lx)) as [sv lx2]. cbn [snd] in H2.
    pose proof (advance_rest_le lx2) as H3.
    remember (Lexer.advance lx) as lx1. remember (Lexer.advance lx2) as lx3.
    destruct (Lexer.current_char lx2) as [c2|] eqn:E2; simpl; auto.
    destruct (is_quote c2); simpl; auto. lia. }
  destruct (isalpha c || is_underscore c) eqn:Ha.
  { unfold Lexer.read_identifier.
    pose proof (scan_rest_lt (fun c0 => isalnum c0 || is_underscore c0) lx c Hc) as Hlt.
    simpl in Hlt. unfold isalnum in Hlt.
    assert (Hp : (isalpha c || isdigit c || is_underscore c) = true).
    { destruct (isalpha c); simpl in *; auto. rewrite Ha. now rewrite orb_true_r. }
    specialize (Hlt Hp).
    destruct (Lexer.scan _ lx) as [identifier lx']. simpl in Hlt.
    destruct (dict_get Lexer.KEYWORDS (upper identifier)); simpl; auto. }
  pose proof (advance_rest_lt lx c Hc) as H1.
  pose proof (advance_rest_le (Lexer.advance lx)) as H2.
  remember (Lexer.advance lx) as lx1. remember (Lexer.advance lx1) as lx2.
  destruct (Ascii.eqb c ">" && Lexer.next_is lx "="); [simpl; lia|].
  destruct (Ascii.eqb c "<" && Lexer.next_is lx "="); [simpl; lia|].
  destruct (Ascii.eqb c "!" && Lexer.next_is lx "="); [simpl; lia|].
  destruct (Lexer.char_map_get Lexer.char_map c); simpl; auto.
Qed.

Lemma tokenize_loop_cases fuel :
  forall lx tokens,
    String.length (Lexer.rest lx) <= fuel ->
    (exists result, Lexer.tokenize_loop fuel lx tokens = Ok result)
    \/ exists e, Lexer.tokenize_loop fuel lx tokens = Raise e.
Proof.
  induction fuel as [|fuel IH]; intros lx tokens Hlen.
  - destruct lx as [pos s]. destruct s; simpl in *; [eauto | lia].
  - simpl. destruct (Lexer.current_char lx) as [c|] eqn:Hc; [|eauto].
    pose proof (step_progress lx c tokens Hc) as Hp.
    destruct (Lexer.step lx c tokens) as [[tokens' lx']|e|]; simpl;
      [| eauto | contradiction].
    apply IH. lia.
Qed.

(** [tokenize] returns a token list or raises, for every text. *)
Lemma tokenize_cases sql :
  (exists tokens, Lexer.tokenize sql = Ok tokens)
  \/ exists e, Lexer.tokenize sql = Raise e.
Proof. unfold Lexer.tokenize. apply tokenize_loop_cases. simpl. lia. Qed.

Lemma keyword_payload u ty s pos :
  dict_get Lexer.KEYWORDS u = Some ty -> payload_ok (mkToken ty (PyStr s) pos) = true.
Proof.
  unfold Lexer.KEYWORDS. cbn [dict_get].
  repeat (destruct (String.eqb _ u); [intros H; inversion H; reflexivity|]).
  discriminate.
Qed.

Lemma char_map_payload c ty s pos :
  Lexer.char_map_get Lexer.char_map c = Some ty ->
  payload_ok (mkToken ty (PyStr s) pos) = true.
Proof.
  unfold Lexer.char_map. cbn [Lexer.char_map_get].
  repeat (destruct (Ascii.eqb _ c); [intros H; inversion H; reflexivity|]).
  discriminate.
Qed.

Lemma step_payload lx c tokens tokens' lx' :
  Lexer.step lx c tokens = Ok (tokens', lx') ->
  Forall (fun tok => payload_ok tok = true) tokens ->
  Forall (fun tok => payload_ok tok = true) tokens'.
Proof.
  assert (Hadd : forall tok, payload_ok tok = true ->
            Forall (fun tok => payload_ok tok = true) tokens ->
            Forall (fun tok => payload_ok tok = true) (tokens ++ [tok])%list).
  { intros tok Htok Hall. apply Forall_app. split; auto. }
  unfold Lexer.step.
  destruct (isspace c). { intros H. now inversion H. }
  destruct (isdigit c).
  { unfold Lexer.read_number. destruct (Lexer.scan number_char lx) as [num_str lx1].
    destruct (contains is_dot num_str); simpl.
    - destruct (py_float num_str) as [f| |]; simpl; try discriminate.
      intros H. inversion H; subst. now apply Hadd.
    - destruct (py_int num_str) as [n| |]; simpl; try discriminate.
      intros H. inversion H; subst. now apply Hadd. }
  destruct (is_quote c).
  { unfold Lexer.read_string.
    destruct (Lexer.scan _ (Lexer.advance lx)) as [sv lx2].
    destruct (Lexer.current_char lx2) as [c2|]; simpl; try discriminate.
    destruct (is_quote c2); simpl; try discriminate.
    intros H. inversion H; subst. now apply Hadd. }
  destruct (isalpha c || is_underscore c).
  { unfold Lexer.read_identifier. destruct (Lexer.scan _ lx) as [identifier lx1].
    destruct (dict_get Lexer.KEYWORDS (upper identifier)) as [ty|] eqn:E.
    - intros H. inversion H; subst. apply Hadd; auto.
      now apply (keyword_payload (upper identifier)).
    - intros H. inversion H; subst. now apply Hadd. }
  destruct (Ascii.eqb c ">" && Lexer.next_is lx "=").
  { intros H. inversion H; subst. now apply Hadd. }
  destruct (Ascii.eqb c "<" && Lexer.next_is lx "=").
  { intros H. inversion H; subst. now apply Hadd. }
  destruct (Ascii.eqb c "!" && Lexer.next_is lx "=").
  { intros H. inversion H; subst. now apply Hadd. }
  destruct (Lexer.char_map_get Lexer.char_map c) as [ty|] eqn:E; try discriminate.
  intros H. inversion H; subst. apply Hadd; auto.
  now apply (char_map_payload c).
Qed.

(** Every token of [tokenize] carries what its kind announces; in
    particular IDENTIFIER, AND and OR tokens carry text. *)
Lemma tokenize_payload sql tokens :
  Lexer.tokenize sql = Ok tokens ->
  Forall (fun tok => payload_ok tok = true) tokens.
Proof.
  unfold Lexer.tokenize.
  generalize (String.length sql) (Lexer.init sql).
  assert (H0 : Forall (fun tok => payload_ok tok = true) (@nil Token)) by constructor.
  revert H0. generalize (@nil Token) as acc.
  intros acc H0 fuel. revert acc H0.
  induction fuel as [|fuel IH]; intros acc H0 lx; simpl.
  - destruct (Lexer.current_char lx); [discriminate|].
    intros H. inversion H; subst. apply Forall_app. split; auto.
  - destruct (Lexer.current_char lx) as [c|].
    + destruct (Lexer.step lx c acc) as [[acc' lx']| |] eqn:E; simpl;
        try discriminate.
      apply IH. now apply (step_payload lx c acc acc' lx').
    + intros H. inversion H; subst. apply Forall_app. split; auto.
Qed.

(** *** Parser *)

Lemma safe_ret {A : Type} (a : A) : safe (Parser.ret a).
Proof. intros ts. simpl. lia. Qed.

Lemma safe_fail {A : Type} (e : error) : safe (@Parser.fail A e).
Proof. intros ts. exact I. Qed.

Lemma safe_seq {A B : Type} (m : Parser.M A) (k : A -> Parser.M B) :
  safe m -> (forall a, safe (k a)) -> safe (Parser.seq m k).
Proof.
  intros Hm Hk ts. unfold Parser.seq. specialize (Hm ts).
  destruct (m ts) as [[a ts']| |]; auto.
  specialize (Hk a ts'). destruct (k a ts') as [[b ts'']| |]; auto. lia.
Qed.

Lemma safe_current_type : safe Parser.current_type.
Proof. intros [|tok r]; simpl; auto. Qed.

Lemma safe_current_value : safe Parser.current_value.
Proof. intros [|tok r]; simpl; auto. Qed.

Lemma safe_advance : safe Parser.advance.
Proof. intros [|tok r]; simpl; lia. Qed.

Lemma safe_expect token_type : safe (Parser.expect token_type).
Proof.
  intros [|tok r]; simpl; auto.
  destruct (TokenType.eqb (Token.type tok) token_type); simpl; auto.
Qed.

Create HintDb safe.

#[local] Hint Resolve safe_ret safe_fail safe_current_type safe_current_value
  safe_advance safe_expect : safe.

Ltac safe_step :=
  match goal with
  | |- safe (Parser.seq _ _) => apply safe_seq; [|intros]
  | |- safe (if ?c then _ else _) => destruct c
  | |- safe (match ?x with _ => _ end) => destruct x
  | |- safe _ => solve [auto with safe]
  end.

Lemma safe_expect_name : safe Parser.expect_name.
Proof. unfold Parser.expect_name. repeat safe_step. Qed.

Lemma safe_parse_value : safe Parser.parse_value.
Proof. unfold Parser.parse_value. repeat safe_step. Qed.

#[local] Hint Resolve safe_expect_name safe_parse_value : safe.

Lemma safe_parse_condition : safe Parser.parse_condition.
Proof. unfold Parser.parse_condition. repeat safe_step. Qed.

#[local] Hint Resolve safe_parse_condition : safe.

(** A loop pass consumes its first token, so a budget of the number of
    tokens left is never used up. *)
Lemma comma_loop_safe {A : Type} (item : Parser.M A) :
  safe item ->
  forall fuel items ts,
    List.length ts <= fuel ->
    match Parser.comma_loop item fuel items ts with
    | Ok (_, ts') => List.length ts' <= List.length ts
    | Raise _ => True
    | Timeout => False
    end.
Proof.
  intros Hitem. induction fuel as [|fuel IH]; intros items ts Hlen.
  - destruct ts; simpl in *; [exact I | lia].
  - destruct ts as [|tok r]; simpl; [exact I|].
    unfold Parser.seq at 1. simpl.
    destruct (TokenType.eqb (Token.type tok) TokenType.COMMA); [|simpl; lia].
    unfold Parser.seq at 1. simpl. unfold Parser.seq at 1.
    specialize (Hitem r). destruct (item r) as [[x r']| |]; auto.
    simpl in Hlen. specialize (IH (items ++ [x])%list r').
    destruct (Parser.comma_loop item fuel (items ++ [x])%list r') as [[l r'']| |].
    + assert (List.length r' <= fuel) by lia. specialize (IH H). simpl. lia.
    + exact I.
    + apply IH. lia.
Qed.

Lemma safe_comma_list {A : Type} (item : Parser.M A) :
  safe item -> safe (Parser.comma_list item).
Proof.
  intros Hitem ts. unfold Parser.comma_list, Parser.seq.
  pose proof (Hitem ts) as H. destruct (item ts) as [[x ts1]| |]; auto.
  pose proof (comma_loop_safe item Hitem (List.length ts) [x] ts1 H) as H1.
  destruct (Parser.comma_loop item (List.length ts) [x] ts1) as [[l ts2]| |]; auto.
  lia.
Qed.

Lemma where_loop_safe :
  forall fuel left ts,
    List.length ts <= fuel ->
    match Parser.where_loop fuel left ts with
    | Ok (_, ts') => List.length ts' <= List.length ts
    | Raise _ => True
    | Timeout => False
    end.
Proof.
  induction fuel as [|fuel IH]; intros left ts Hlen.
  - destruct ts; simpl in *; [exact I | lia].
  - destruct ts as [|tok r]; simpl; [exact I|].
    unfold Parser.seq at 1. simpl.
    destruct (Parser.is_logical (Token.type tok)); [|simpl; lia].
    unfold Parser.seq at 1. simpl. unfold Parser.seq at 1. simpl.
    unfold Parser.seq at 1.
    pose proof (safe_parse_condition r) as Hc.
    destruct (Parser.parse_condition r) as [[c r']| |]; auto.
    simpl in Hlen.
    specialize (IH (CompoundCondition left (Parser.text_of (Token.value tok)) c) r').
    destruct (Parser.where_loop fuel _ r') as [[w r'']| |].
    + assert (List.length r' <= fuel) by lia. specialize (IH H). simpl. lia.
    + exact I.
    + apply IH. lia.
Qed.

Lemma safe_parse_where : safe Parser.parse_where.
Proof.
  intros ts. unfold Parser.parse_where, Parser.seq.
  pose proof (safe_parse_condition ts) as H.
  destruct (Parser.parse_condition ts) as [[c ts1]| |]; auto.
  pose proof (where_loop_safe (List.length ts) c ts1 H) as H1.
  destruct (Parser.where_loop (List.length ts) c ts1) as [[w ts2]| |]; auto.
  lia.
Qed.

#[local] Hint Resolve safe_comma_list safe_parse_where : safe.

Lemma safe_parse_column_definition : safe Parser.parse_column_definition.
Proof. unfold Parser.parse_column_definition. repeat safe_step. Qed.

#[local] Hint Resolve safe_parse_column_definition : safe.

Lemma safe_parse_select : safe Parser.parse_select.
Proof. unfold Parser.parse_select. repeat safe_step. Qed.

Lemma safe_parse_insert : safe Parser.parse_insert.
Proof. unfold Parser.parse_insert. repeat safe_step. Qed.

Lemma safe_parse_create_table : safe Parser.parse_create_table.
Proof. unfold Parser.parse_create_table. repeat safe_step. Qed.

#[local] Hint Resolve safe_parse_select safe_parse_insert safe_parse_create_table
  : safe.

Lemma safe_parse_statement : safe Parser.parse_statement.
Proof. unfold Parser.parse_statement. repeat safe_step. Qed.

(** [parse] returns a statement or raises, for every token list. *)
Lemma parse_cases tokens :
  (exists ast, Parser.parse tokens = Ok ast)
  \/ exists e, Parser.parse tokens = Raise e.
Proof.
  unfold Parser.parse. pose proof (safe_parse_statement tokens) as H.
  destruct (Parser.parse_statement tokens) as [[ast ts]|e|]; simpl;
    [eauto | eauto | contradiction].
Qed.

(** *** Executor *)

Lemma execute_select_cases storage columns table_name where_ :
  (exists result,
      Executor.execute_select storage columns table_name where_ = Ok result)
  \/ exists e, Executor.execute_select storage columns table_name where_ = Raise e.
Proof.
  unfold Executor.execute_select.
  destruct (StorageEngine.get_table storage table_name) as [table|]; [|eauto].
  assert (Hrows : (exists rows, surviving_rows where_ table = Ok rows)
                  \/ exists e, surviving_rows where_ table = Raise e).
  { destruct where_ as [w|]; simpl; [apply filter_rows_cases | eauto]. }
  unfold surviving_rows in Hrows.
  destruct Hrows as [[rows ->] | [e ->]]; simpl; [|eauto].
  destruct (Executor.is_star columns); simpl; [eauto|].
  destruct (Executor.check_requested table_name (Table.get_column_names table)
              columns) as [[]|e|] eqn:E; simpl; eauto.
  exfalso. revert E. clear.
  induction columns as [|c r IH]; simpl; [discriminate|].
  destruct (str_in c (Table.get_column_names table)); [exact IH | discriminate].
Qed.

Lemma executor_execute_cases storage statement :
  (exists result, fst (Executor.execute storage statement) = Ok result)
  \/ exists e, fst (Executor.execute storage statement) = Raise e.
Proof.
  destruct statement as [columns table where_ | table columns values | table columns];
    simpl.
  - apply execute_select_cases.
  - unfold Executor.execute_insert, StorageEngine.insert_row.
    destruct (StorageEngine.get_table storage table) as [t|]; simpl; [|eauto].
    unfold Table.insert.
    destruct (validate_row_cases t (Executor.build_row columns values))
      as [-> | [e ->]]; simpl; eauto.
  - unfold Executor.execute_create_table, StorageEngine.create_table.
    destruct (dict_mem (StorageEngine.tables storage) table); simpl; eauto.
Qed.

(** A statement that raises leaves the store, rows and persisted records,
    as it found it. *)
Lemma executor_raise_unchanged storage statement e :
  fst (Executor.execute storage statement) = Raise e ->
  snd (Executor.execute storage statement) = storage.
Proof.
  destruct statement as [columns table where_ | table columns values | table columns];
    simpl; auto.
  - unfold Executor.execute_insert, StorageEngine.insert_row.
    destruct (StorageEngine.get_table storage table) as [t|] eqn:Hget; simpl; auto.
    unfold Table.insert.
    destruct (validate_row_cases t (Executor.build_row columns values))
      as [-> | [e' ->]]; simpl; [discriminate|].
    intros _. unfold StorageEngine.get_table in Hget.
    rewrite (dict_set_id _ _ _ Hget). now destruct storage.
  - unfold Executor.execute_create_table, StorageEngine.create_table.
    destruct (dict_mem (StorageEngine.tables storage) table); simpl; auto.
    discriminate.
Qed.

Lemma pipeline_raise_unchanged storage sql e :
  fst (SQLEngine.pipeline storage sql) = Raise e ->
  snd (SQLEngine.pipeline storage sql) = storage.
Proof.
  unfold SQLEngine.pipeline.
  destruct (Lexer.tokenize sql) as [tokens| |]; simpl; auto.
  destruct (Parser.parse tokens) as [ast| |]; simpl; auto.
  apply executor_raise_unchanged.
Qed.

(** The body of the [try] block returns a result or raises. *)
Lemma pipeline_cases storage sql :
  (exists result, fst (SQLEngine.pipeline storage sql) = Ok result)
  \/ exists e, fst (SQLEngine.pipeline storage sql) = Raise e.
Proof.
  unfold SQLEngine.pipeline.
  destruct (tokenize_cases sql) as [[tokens ->] | [e ->]]; [|simpl; eauto].
  destruct (parse_cases tokens) as [[ast ->] | [e ->]]; [|simpl; eauto].
  apply executor_execute_cases.
Qed.

(** C1. [SQLEngine.execute] never raises: for every text and every state
    of the store it returns a [QueryResult].  If tokenizing, parsing or
    executing raised [e], the result is the [QueryResult] whose message is
    ["Error: "] followed by [str(e)] (no columns, no rows) and the store is
    as it was before the call; otherwise it is the result of the
    executor. *)
Theorem execute_never_raises
    (float_str : pyfloat -> string) (storage : StorageEngine.t) (sql : string) :
  exists result storage',
    SQLEngine.execute float_str storage sql = (Ok result, storage')
    /\ storage' = snd (SQLEngine.pipeline storage sql)
    /\ (forall r, fst (SQLEngine.pipeline storage sql) = Ok r -> result = r)
    /\ (forall e, fst (SQLEngine.pipeline storage sql) = Raise e ->
          result = QueryResult.of_message ("Error: " ++ describe float_str e)
          /\ QueryResult.message result = Some ("Error: " ++ describe float_str e)
          /\ storage' = storage)
    /\ (forall e, Lexer.tokenize sql = Raise e ->
          QueryResult.message result = Some ("Error: " ++ describe float_str e))
    /\ (forall tokens e,
          Lexer.tokenize sql = Ok tokens -> Parser.parse tokens = Raise e ->
          QueryResult.message result = Some ("Error: " ++ describe float_str e))
    /\ (forall tokens ast e,
          Lexer.tokenize sql = Ok tokens -> Parser.parse tokens = Ok ast ->
          fst (Executor.execute storage ast) = Raise e ->
          QueryResult.message result = Some ("Error: " ++ describe float_str e)).
Proof.
  assert (Hstage :
    (forall e, Lexer.tokenize sql = Raise e ->
               fst (SQLEngine.pipeline storage sql) = Raise e)
    /\ (forall tokens e,
          Lexer.tokenize sql = Ok tokens -> Parser.parse tokens = Raise e ->
          fst (SQLEngine.pipeline storage sql) = Raise e)
    /\ (forall tokens ast e,
          Lexer.tokenize sql = Ok tokens -> Parser.parse tokens = Ok ast ->
          fst (Executor.execute storage ast) = Raise e ->
          fst (SQLEngine.pipeline storage sql) = Raise e)).
  { unfold SQLEngine.pipeline. repeat split.
    - intros e ->. reflexivity.
    - intros tokens e -> ->. reflexivity.
    - intros tokens ast e -> ->. auto. }
  destruct Hstage as [Hlex [Hparse Hexec]].
  unfold SQLEngine.execute.
  pose proof (pipeline_cases storage sql) as Hcases.
  pose proof (pipeline_raise_unchanged storage sql) as Hsame.
  destruct (SQLEngine.pipeline storage sql) as [o storage']. simpl in *.
  destruct Hcases as [[r ->] | [e ->]].
  - exists r, storage'.
    split; [reflexivity|]. split; [reflexivity|].
    split; [intros r0 H; now inversion H|].
    split; [intros e H; discriminate|].
    split; [intros e H; specialize (Hlex e H); discriminate|].
    split; [intros tokens e Ht H; specialize (Hparse tokens e Ht H); discriminate|].
    intros tokens ast e Ht Ha H. specialize (Hexec tokens ast e Ht Ha H).
    discriminate.
  - exists (QueryResult.of_message ("Error: " ++ describe float_str e)), storage'.
    split; [reflexivity|]. split; [reflexivity|].
    split; [intros r0 H; discriminate|].
    split; [intros e' H; inversion H; subst; repeat split; now apply (Hsame e')|].
    split; [intros e' H; specialize (Hlex e' H); now inversion Hlex|].
    split; [intros tokens e' Ht H; specialize (Hparse tokens e' Ht H);
            now inversion Hparse|].
    intros tokens ast e' Ht Ha H. specialize (Hexec tokens ast e' Ht Ha H).
    now inversion Hexec.
Qed.

(** Scenario B and one failure of each stage, as [execute] reports them. *)
Example execute_reports_errors :
  map (fun sql => fst (SQLEngine.execute no_float_text test_storage sql))
      ["SELECT * FROM nonexistent";
       "SELECT # FROM test";
       "SELECT 'abc FROM test";
       "SELECT * FROM";
       "DROP TABLE test";
       "INSERT INTO test (id, code) VALUES ('x', 'XYZ')";
       "SELECT * FROM test WHERE code > 5"]
  = map (fun m => Ok (QueryResult.of_message m))
      ["Error: Table 'nonexistent' does not exist";
       "Error: Unexpected character '#' at position 7";
       "Error: Unterminated string at position 7";
       "Error: Expected TokenType.IDENTIFIER, got TokenType.EOF at position 13";
       "Error: Unexpected statement starting with TokenType.IDENTIFIER";
       "Error: Column 'id' expects INT, got str";
       "Error: '>' not supported between instances of 'str' and 'int'"].
Proof. vm_compute. reflexivity. Qed.

(** ** Serialization *)

(** C4. Serialization round trip: [Table.from_dict(t.to_dict())] is a
    table with the name of [t], its column definitions in the same order
    (name, data type, size or [None]) and its row sequence. *)
Theorem from_dict_to_dict (table : Table.t) :
  Table.from_dict (Table.to_dict table) = table
  /\ Table.name (Table.from_dict (Table.to_dict table)) = Table.name table
  /\ Table.columns (Table.from_dict (Table.to_dict table)) = Table.columns table
  /\ Table.rows (Table.from_dict (Table.to_dict table)) = Table.rows table.
Proof.
  assert (E : Table.from_dict (Table.to_dict table) = table).
  { destruct table as [name columns rows].
    unfold Table.from_dict, Table.to_dict; simpl. f_equal.
    rewrite map_map. rewrite <- (map_id columns) at 2.
    apply map_ext. now intros [n dt sz]. }
  now rewrite E.
Qed.

(* ================================================================== *)
(** * Further properties                                                *)
(* ================================================================== *)

(** ** Lexer: the token list *)

Lemma scan_effect p lx :
  Lexer.position (snd (Lexer.scan p lx))
  = Lexer.position lx + String.length (fst (Lexer.scan p lx))
  /\ String.length (fst (Lexer.scan p lx))
     + String.length (Lexer.rest (snd (Lexer.scan p lx)))
     = String.length (Lexer.rest lx).
Proof.
  unfold Lexer.scan. pose proof (read_while_length p (Lexer.rest lx)) as H.
  destruct (read_while p (Lexer.rest lx)) as [run r]. simpl in *. auto.
Qed.

Lemma scan_first p lx c :
  Lexer.current_char lx = Some c -> p c = true ->
  1 <= String.length (fst (Lexer.scan p lx)).
Proof.
  unfold Lexer.scan, Lexer.current_char. destruct lx as [pos s]. simpl.
  destruct s as [|c' r]; [discriminate|]. intros H Hp. inversion H; subst.
  simpl. rewrite Hp. destruct (read_while p r). simpl. lia.
Qed.

Lemma advance_effect lx c :
  Lexer.current_char lx = Some c ->
  Lexer.position (Lexer.advance lx) = S (Lexer.position lx)
  /\ S (String.length (Lexer.rest (Lexer.advance lx)))
     = String.length (Lexer.rest lx).
Proof.
  unfold Lexer.current_char, Lexer.advance. destruct lx as [pos s]. simpl.
  destruct s; [discriminate|]. auto.
Qed.

Lemma keyword_not_eof u ty :
  dict_get Lexer.KEYWORDS u = Some ty -> ty <> TokenType.EOF.
Proof.
  unfold Lexer.KEYWORDS. cbn [dict_get].
  repeat (destruct (String.eqb _ u); [intros H; inversion H; discriminate|]).
  discriminate.
Qed.

Lemma char_map_not_eof c ty :
  Lexer.char_map_get Lexer.char_map c = Some ty -> ty <> TokenType.EOF.
Proof.
  unfold Lexer.char_map. cbn [Lexer.char_map_get].
  repeat (destruct (Ascii.eqb _ c); [intros H; inversion H; discriminate|]).
  discriminate.
Qed.

(** What a pass of the loop does to the state and to the token list: the
    position moves forward by the characters consumed, and at most one
    token is appended, which is no EOF and starts where the pass began. *)
Lemma step_effect lx c tokens tokens' lx' :
  Lexer.current_char lx = Some c ->
  Lexer.step lx c tokens = Ok (tokens', lx') ->
  Lexer.position lx' + String.length (Lexer.rest lx')
  = Lexer.position lx + String.length (Lexer.rest lx)
  /\ Lexer.position lx < Lexer.position lx'
  /\ (tokens' = tokens
      \/ exists tok, tokens' = (tokens ++ [tok])%list
                     /\ Token.position tok = Lexer.position lx
                     /\ Token.type tok <> TokenType.EOF).
Proof.
  intros Hc. unfold Lexer.step.
  destruct (isspace c) eqn:Hs.
  { unfold Lexer.skip_whitespace. intros H. inversion H; subst.
    destruct (scan_effect isspace lx) as [E1 E2].
    pose proof (scan_first isspace lx c Hc Hs). split; [lia|]. split; [lia|]. auto. }
  destruct (isdigit c) eqn:Hd.
  { unfold Lexer.read_number.
    destruct (scan_effect number_char lx) as [E1 E2].
    assert (Hn : number_char c = true) by (unfold number_char; now rewrite Hd).
    pose proof (scan_first number_char lx c Hc Hn) as E3.
    destruct (Lexer.scan number_char lx) as [num_str lx1]. simpl in E1, E2, E3.
    destruct (contains is_dot num_str); simpl.
    - destruct (py_float num_str) as [f| |]; simpl; try discriminate.
      intros H. inversion H; subst. split; [lia|]. split; [lia|].
      right. eexists. split; [reflexivity|]. simpl. split; [auto | discriminate].
    - destruct (py_int num_str) as [n| |]; simpl; try discriminate.
      intros H. inversion H; subst. split; [lia|]. split; [lia|].
      right. eexists. split; [reflexivity|]. simpl. split; [auto | discriminate]. }
  destruct (is_quote c) eqn:Hq.
  { unfold Lexer.read_string.
    destruct (advance_effect lx c Hc) as [A1 A2].
    remember (Lexer.advance lx) as lx1 eqn:Hlx1 in *.
    destruct (scan_effect (fun c0 => negb (is_quote c0)) lx1) as [E1 E2].
    destruct (Lexer.scan _ lx1) as [sv lx2]. cbn [fst snd] in E1, E2.
    destruct (Lexer.current_char lx2) as [c2|] eqn:Hc2; try discriminate.
    destruct (advance_effect lx2 c2 Hc2) as [B1 B2].
    remember (Lexer.advance lx2) as lx3 eqn:Hlx3 in *.
    destruct (is_quote c2); cbn [bind]; try discriminate.
    intros H. inversion H. subst tokens' lx'. split; [lia|]. split; [lia|].
    right. eexists. split; [reflexivity|]. cbn [Token.position Token.type].
    split; [auto | discriminate]. }
  destruct (isalpha c || is_underscore c) eqn:Ha.
  { unfold Lexer.read_identifier.
    assert (Hp : (fun c0 => isalnum c0 || is_underscore c0) c = true).
    { simpl. unfold isalnum. destruct (isalpha c); simpl in *; auto.
      rewrite Ha. now rewrite orb_true_r. }
    destruct (scan_effect (fun c0 => isalnum c0 || is_underscore c0) lx) as [E1 E2].
    pose proof (scan_first _ lx c Hc Hp) as E3.
    destruct (Lexer.scan _ lx) as [identifier lx1]. simpl in E1, E2, E3.
    destruct (dict_get Lexer.KEYWORDS (upper identifier)) as [ty|] eqn:K.
    - intros H. inversion H; subst. split; [lia|]. split; [lia|].
      right. eexists. split; [reflexivity|]. simpl. split; auto.
      now apply (keyword_not_eof (upper identifier)).
    - intros H. inversion H; subst. split; [lia|]. split; [lia|].
      right. eexists. split; [reflexivity|]. simpl. split; [auto | discriminate]. }
  destruct (advance_effect lx c Hc) as [A1 A2].
  assert (Two : forall d, Lexer.next_is lx d = true ->
            Lexer.position (Lexer.advance (Lexer.advance lx)) = S (S (Lexer.position lx))
            /\ S (S (String.length (Lexer.rest (Lexer.advance (Lexer.advance lx)))))
               = String.length (Lexer.rest lx)).
  { intros d. unfold Lexer.next_is, Lexer.peek, Lexer.advance.
    destruct lx as [pos s]. simpl. destruct s as [|c1 [|c2 r]]; simpl; try discriminate.
    auto. }
  destruct (Ascii.eqb c ">" && Lexer.next_is lx "=") eqn:G.
  { apply andb_prop in G. destruct G as [_ G]. destruct (Two _ G) as [T1 T2].
    intros H. inversion H; subst. split; [lia|]. split; [lia|].
    right. eexists. split; [reflexivity|]. simpl. split; [auto | discriminate]. }
  destruct (Ascii.eqb c "<" && Lexer.next_is lx "=") eqn:L.
  { apply andb_prop in L. destruct L as [_ L]. destruct (Two _ L) as [T1 T2].
    intros H. inversion H; subst. split; [lia|]. split; [lia|].
    right. eexists. split; [reflexivity|]. simpl. split; [auto | discriminate]. }
  destruct (Ascii.eqb c "!" && Lexer.next_is lx "=") eqn:N.
  { apply andb_prop in N. destruct N as [_ N]. destruct (Two _ N) as [T1 T2].
    intros H. inversion H; subst. split; [lia|]. split; [lia|].
    right. eexists. split; [reflexivity|]. simpl. split; [auto | discriminate]. }
  destruct (Lexer.char_map_get Lexer.char_map c) as [ty|] eqn:M; try discriminate.
  intros H. inversion H; subst. split; [lia|]. split; [lia|].
  right. eexists. split; [reflexivity|]. simpl. split; auto.
  now apply (char_map_not_eof c).
Qed.

Lemma StronglySorted_snoc (l : list nat) (y : nat) :
  StronglySorted lt l -> Forall (fun x => x < y) l -> StronglySorted lt (l ++ [y]).
Proof.
  induction 1 as [|x l Hs IH Hx]; intros Hall; simpl.
  - repeat constructor.
  - inversion Hall; subst. constructor; auto.
    apply Forall_app. split; auto.
Qed.

(** The shape of every token list the loop returns, from a state that has
    read [n - len(rest)] characters. *)
Lemma tokenize_loop_shape n :
  forall fuel lx acc result,
    Lexer.position lx + String.length (Lexer.rest lx) = n ->
    Forall (fun tok => Token.type tok <> TokenType.EOF
                       /\ Token.position tok < Lexer.position lx) acc ->
    positions_increase acc ->
    Lexer.tokenize_loop fuel lx acc = Ok result ->
    exists pre,
      result = (pre ++ [mkToken TokenType.EOF PyNone n])%list
      /\ Forall (fun tok => Token.type tok <> TokenType.EOF
                            /\ Token.position tok < n) pre
      /\ positions_increase result.
Proof.
  induction fuel as [|fuel IH]; intros lx acc result Hn Hacc Hsorted; simpl.
  - destruct lx as [pos s]. destruct s as [|c r]; simpl in *; [|discriminate].
    intros H. inversion H; subst. exists acc.
    replace (pos + 0) with pos by lia. split; [reflexivity|]. split; [exact Hacc|].
    unfold positions_increase. rewrite map_app. simpl.
    apply StronglySorted_snoc; auto.
    rewrite Forall_map. eapply Forall_impl; [|exact Hacc]. simpl. tauto.
  - destruct (Lexer.current_char lx) as [c|] eqn:Hc.
    + destruct (Lexer.step lx c acc) as [[acc' lx']| |] eqn:E; simpl;
        try discriminate.
      destruct (step_effect lx c acc acc' lx' Hc E) as [E1 [E2 E3]].
      apply IH; [lia| |].
      * destruct E3 as [-> | [tok [-> [P1 P2]]]].
        -- eapply Forall_impl; [|exact Hacc]. simpl. intros a [A1 A2]. split; auto. lia.
        -- apply Forall_app. split.
           ++ eapply Forall_impl; [|exact Hacc]. simpl. intros a [A1 A2].
              split; auto. lia.
           ++ constructor; [|constructor]. split; auto. lia.
      * destruct E3 as [-> | [tok [-> [P1 P2]]]]; auto.
        unfold positions_increase. rewrite map_app. simpl.
        apply StronglySorted_snoc; auto.
        rewrite Forall_map. eapply Forall_impl; [|exact Hacc]. simpl.
        intros a [A1 A2]. lia.
    + unfold Lexer.current_char in Hc. destruct lx as [pos s]. simpl in *.
      destruct s; [|discriminate]. simpl in Hn.
      intros H. inversion H; subst. exists acc.
      replace (pos + 0) with pos by lia. split; [reflexivity|]. split; [exact Hacc|].
      unfold positions_increase. rewrite map_app. simpl.
      apply StronglySorted_snoc; auto.
      rewrite Forall_map. eapply Forall_impl; [|exact Hacc]. simpl. tauto.
Qed.

Lemma tokenize_shape sql tokens :
  Lexer.tokenize sql = Ok tokens ->
  exists pre,
    tokens = (pre ++ [mkToken TokenType.EOF PyNone (String.length sql)])%list
    /\ Forall (fun tok => Token.type tok <> TokenType.EOF
                          /\ Token.position tok < String.length sql) pre
    /\ positions_increase tokens.
Proof.
  unfold Lexer.tokenize. apply tokenize_loop_shape.
  - reflexivity.
  - constructor.
  - constructor.
Qed.

(** X1. A token list that [tokenize] returns is never empty: it ends with
    the EOF token, which holds [None] and is positioned at the length of
    the text, and no token before it is an EOF. *)
Theorem tokenize_ends_with_eof (sql : string) (tokens : list Token) :
  Lexer.tokenize sql = Ok tokens ->
  tokens <> []
  /\ exists pre,
       tokens = (pre ++ [mkToken TokenType.EOF PyNone (String.length sql)])%list
       /\ Forall (fun tok => Token.type tok <> TokenType.EOF) pre.
Proof.
  intros H. destruct (tokenize_shape sql tokens H) as [pre [-> [Hpre _]]]. split.
  - intros E. apply app_eq_nil in E. destruct E as [_ E]. discriminate.
  - exists pre. split; [reflexivity|].
    eapply Forall_impl; [|exact Hpre]. simpl. tauto.
Qed.

Lemma tokenize_ends_with_eof_witness :
  Lexer.tokenize "SELECT * FROM t" = Ok
    [mkToken TokenType.SELECT (PyStr "SELECT") 0;
     mkToken TokenType.STAR (PyStr "*") 7;
     mkToken TokenType.FROM (PyStr "FROM") 9;
     mkToken TokenType.IDENTIFIER (PyStr "t") 14;
     mkToken TokenType.EOF PyNone 15]
  /\ exists pre,
       [mkToken TokenType.SELECT (PyStr "SELECT") 0;
        mkToken TokenType.STAR (PyStr "*") 7;
        mkToken TokenType.FROM (PyStr "FROM") 9;
        mkToken TokenType.IDENTIFIER (PyStr "t") 14;
        mkToken TokenType.EOF PyNone 15]
       = (pre ++ [mkToken TokenType.EOF PyNone (String.length "SELECT * FROM t")])%list
       /\ Forall (fun tok => Token.type tok <> TokenType.EOF) pre.
Proof.
  split; [vm_compute; reflexivity|].
  apply (tokenize_ends_with_eof "SELECT * FROM t"). vm_compute. reflexivity.
Defined.

(** X2. In a token list that [tokenize] returns, positions grow strictly
    from token to token, and every token before the EOF starts inside the
    text. *)
Theorem tokenize_positions (sql : string) (tokens : list Token) :
  Lexer.tokenize sql = Ok tokens ->
  positions_increase tokens
  /\ Forall (fun tok => Token.position tok <= String.length sql) tokens
  /\ forall tok, In tok tokens -> Token.type tok <> TokenType.EOF ->
                 Token.position tok < String.length sql.
Proof.
  intros H. destruct (tokenize_shape sql tokens H) as [pre [-> [Hpre Hs]]].
  split; [exact Hs|]. split.
  - apply Forall_app. split.
    + eapply Forall_impl; [|exact Hpre]. simpl. intros a [_ A]. lia.
    + repeat constructor.
  - intros tok Hin Hty. apply in_app_or in Hin. destruct Hin as [Hin | [<- | []]].
    + rewrite Forall_forall in Hpre. now apply Hpre.
    + simpl in Hty. contradiction.
Qed.

Lemma tokenize_positions_witness :
  Lexer.tokenize "a >= 10" = Ok
    [mkToken TokenType.IDENTIFIER (PyStr "a") 0;
     mkToken TokenType.GREATER_EQ (PyStr ">=") 2;
     mkToken TokenType.NUMBER (PyInt 10) 5;
     mkToken TokenType.EOF PyNone 7]
  /\ positions_increase
       [mkToken TokenType.IDENTIFIER (PyStr "a") 0;
        mkToken TokenType.GREATER_EQ (PyStr ">=") 2;
        mkToken TokenType.NUMBER (PyInt 10) 5;
        mkToken TokenType.EOF PyNone 7].
Proof.
  split; [vm_compute; reflexivity|].
  apply (tokenize_positions "a >= 10"). vm_compute. reflexivity.
Defined.

(** ** Lexer: blanks, string literals, identifiers and keywords *)

Lemma read_while_all p s :
  all_chars p s = true -> read_while p s = (s, EmptyString).
Proof.
  induction s as [|c r IH]; simpl; auto.
  intros H. apply andb_prop in H. destruct H as [Hc Hr]. now rewrite Hc, IH.
Qed.

Lemma tokenize_loop_at_end fuel pos tokens :
  Lexer.tokenize_loop fuel (Lexer.mk pos EmptyString) tokens
  = Ok (tokens ++ [mkToken TokenType.EOF PyNone pos])%list.
Proof. destruct fuel; reflexivity. Qed.

(** X3. A text of whitespace only, the empty text included, tokenizes
    to the single EOF token, positioned at the length of the text. *)
Theorem tokenize_blank (sql : string) :
  all_chars isspace sql = true ->
  Lexer.tokenize sql = Ok [mkToken TokenType.EOF PyNone (String.length sql)].
Proof.
  intros H. unfold Lexer.tokenize, Lexer.init. destruct sql as [|c r].
  - reflexivity.
  - pose proof H as Hall. simpl in H. apply andb_prop in H. destruct H as [Hc Hr].
    change (String.length (String c r)) with (S (String.length r)).
    cbn [Lexer.tokenize_loop Lexer.current_char Lexer.rest].
    unfold Lexer.step. rewrite Hc. cbn [bind].
    unfold Lexer.skip_whitespace, Lexer.scan. cbn [Lexer.rest Lexer.position].
    rewrite (read_while_all isspace (String c r) Hall). cbn [snd].
    apply tokenize_loop_at_end.
Qed.

Lemma tokenize_blank_witness :
  all_chars isspace "   " = true
  /\ Lexer.tokenize "   " = Ok [mkToken TokenType.EOF PyNone 3].
Proof.
  split; [reflexivity|]. apply (tokenize_blank "   "). reflexivity.
Defined.

(** X4. A quote opens a string literal that runs to the next quote: its
    characters are copied verbatim into one STRING token positioned at the
    opening quote, and scanning goes on after the closing quote.  If the
    text ends before a closing quote, the lexer raises "Unterminated
    string" with the position of the opening quote. *)
Theorem tokenize_string_literal
    (pos : nat) (body rest : string) (fuel : nat) (tokens : list Token) :
  all_chars (fun c => negb (is_quote c)) body = true ->
  Lexer.tokenize_loop (S fuel)
    (Lexer.mk pos (String "'" (body ++ String "'" rest))) tokens
  = Lexer.tokenize_loop fuel
      (Lexer.mk (pos + String.length body + 2) rest)
      (tokens ++ [mkToken TokenType.STRING (PyStr body) pos])%list
  /\ Lexer.tokenize_loop (S fuel) (Lexer.mk pos (String "'" body)) tokens
     = Raise (UnterminatedString pos).
Proof.
  intros Hbody. split.
  - cbn [Lexer.tokenize_loop Lexer.current_char Lexer.rest].
    unfold Lexer.step.
    change (isspace "'") with false. change (isdigit "'") with false.
    change (is_quote "'") with true. cbv iota.
    unfold Lexer.read_string.
    change (Lexer.advance (Lexer.mk pos (String "'" (body ++ String "'" rest))))
      with (Lexer.mk (S pos) (body ++ String "'" rest)).
    rewrite (scan_run _ (S pos) body (String "'" rest) Hbody eq_refl).
    cbn [Lexer.current_char Lexer.rest Lexer.position]. change (is_quote "'") with true.
    cbv iota. cbn [bind].
    change (Lexer.advance (Lexer.mk (S pos + String.length body) (String "'" rest)))
      with (Lexer.mk (S (S pos + String.length body)) rest).
    replace (S (S pos + String.length body)) with (pos + String.length body + 2) by lia.
    reflexivity.
  - cbn [Lexer.tokenize_loop Lexer.current_char Lexer.rest].
    unfold Lexer.step.
    change (isspace "'") with false. change (isdigit "'") with false.
    change (is_quote "'") with true. cbv iota.
    unfold Lexer.read_string.
    change (Lexer.advance (Lexer.mk pos (String "'" body)))
      with (Lexer.mk (S pos) body).
    unfold Lexer.scan. cbn [Lexer.rest Lexer.position].
    rewrite (read_while_all _ body Hbody). reflexivity.
Qed.

Lemma tokenize_string_literal_witness :
  all_chars (fun c => negb (is_quote c)) "it is -- ok" = true
  /\ Lexer.tokenize_loop 1 (Lexer.mk 4 "'it is -- ok") []
     = Raise (UnterminatedString 4).
Proof.
  split; [reflexivity|].
  exact (proj2 (tokenize_string_literal 4 "it is -- ok" "" 0 [] eq_refl)).
Defined.

Lemma letter_class c :
  (isalpha c || is_underscore c) = true ->
  isspace c = false /\ isdigit c = false /\ is_quote c = false
  /\ ident_char c = true.
Proof.
  unfold ident_char, isalnum. intros H.
  destruct (is_underscore c) eqn:U.
  - unfold is_underscore in U. apply Ascii.eqb_eq in U. subst c.
    repeat split; reflexivity.
  - rewrite orb_false_r in H. rewrite H.
    unfold isalpha, isspace, isdigit, is_quote, in_range in *.
    assert (Hq : Ascii.eqb c "'" = false).
    { destruct (Ascii.eqb c "'") eqn:Q; auto. apply Ascii.eqb_eq in Q. subst c.
      discriminate. }
    rewrite Hq. clear Hq U.
    apply orb_prop in H.
    repeat split; auto;
      repeat match goal with
             | |- (_ || _) = false => apply orb_false_iff; split
             | |- (_ && _) = false => apply andb_false_iff
             end;
      destruct H as [H | H]; apply andb_prop in H; destruct H as [H1 H2];
      apply Nat.leb_le in H1; apply Nat.leb_le in H2;
      try (right; apply Nat.leb_gt; lia); try (left; apply Nat.leb_gt; lia).
Qed.

(** X5. A maximal run of letters, digits and underscores that starts
    with a letter or an underscore becomes one token positioned at its
    first character: if the run in upper case is a keyword, the keyword
    token holding the upper-case text (keywords are matched whatever their
    case); otherwise an IDENTIFIER holding the run as written. *)
Theorem tokenize_identifier
    (pos : nat) (c : ascii) (ident' rest : string) (fuel : nat)
    (tokens : list Token) :
  (isalpha c || is_underscore c) = true ->
  all_chars ident_char ident' = true ->
  run_ends ident_char rest = true ->
  Lexer.tokenize_loop (S fuel) (Lexer.mk pos (String c ident' ++ rest)) tokens
  = Lexer.tokenize_loop fuel
      (Lexer.mk (pos + String.length (String c ident')) rest)
      (tokens ++
       [match dict_get Lexer.KEYWORDS (upper (String c ident')) with
        | Some token_type =>
            mkToken token_type (PyStr (upper (String c ident'))) pos
        | None => mkToken TokenType.IDENTIFIER (PyStr (String c ident')) pos
        end])%list.
Proof.
  intros Hc Hrun Hend.
  destruct (letter_class c Hc) as [Hs [Hd [Hq Hi]]].
  assert (Hall : all_chars ident_char (String c ident') = true).
  { simpl. now rewrite Hi. }
  change (String c ident' ++ rest) with (String c (ident' ++ rest)).
  cbn [Lexer.tokenize_loop Lexer.current_char Lexer.rest].
  unfold Lexer.step. rewrite Hs, Hd, Hq, Hc.
  unfold Lexer.read_identifier.
  change (fun c0 => isalnum c0 || is_underscore c0) with ident_char.
  change (String c (ident' ++ rest)) with (String c ident' ++ rest).
  rewrite (scan_run ident_char pos (String c ident') rest Hall Hend).
  cbn [Lexer.position].
  destruct (dict_get Lexer.KEYWORDS (upper (String c ident'))); reflexivity.
Qed.

Lemma tokenize_identifier_witness :
  Lexer.tokenize_loop 1 (Lexer.mk 0 "sElEcT *") []
  = Lexer.tokenize_loop 0 (Lexer.mk 6 " *")
      [mkToken TokenType.SELECT (PyStr "SELECT") 0].
Proof.
  exact (tokenize_identifier 0 "s" "ElEcT" " *" 0 [] eq_refl eq_refl eq_refl).
Defined.

(** ** Parser: what it builds from the lexer's tokens *)

Lemma TokenType_eqb_eq a b : TokenType.eqb a b = true <-> a = b.
Proof. destruct a, b; simpl; split; congruence. Qed.

Lemma token_ok_eta tok :
  token_ok tok = token_ok (mkToken (Token.type tok) (Token.value tok) 0).
Proof. now destruct tok. Qed.

Lemma lexed_nonempty ts : lexed ts -> ts <> [].
Proof.
  intros [[pre [eof [-> _]]] _] E. apply app_eq_nil in E. destruct E. discriminate.
Qed.

Lemma lexed_tail tok r :
  lexed (tok :: r) -> Token.type tok <> TokenType.EOF -> lexed r.
Proof.
  intros [[pre [eof [E Heof]]] Hall] Hty. split.
  - destruct pre as [|p pre']; simpl in E; inversion E; subst.
    + contradiction.
    + now exists pre', eof.
  - now inversion Hall.
Qed.

Lemma lexed_head tok r : lexed (tok :: r) -> token_ok tok = true.
Proof. intros [_ Hall]. now inversion Hall. Qed.

Section ParsesRules.
Context {A B : Type}.
Implicit Types (good : B -> Prop).

Lemma parses_ret (a : A) (g : A -> Prop) : g a -> parses lexed (Parser.ret a) g.
Proof. intros Ha ts Hts. simpl. auto. Qed.

Lemma parses_fail (pre : list Token -> Prop) (e : error) (g : A -> Prop) :
  syntax_error e = true -> parses pre (@Parser.fail A e) g.
Proof. intros He ts _. exact He. Qed.

Lemma parses_timeout (pre : list Token -> Prop) (g : A -> Prop) :
  parses pre (fun _ => @Timeout (A * list Token)) g.
Proof. intros ts _. exact I. Qed.

Lemma parses_at ty (m : Parser.M A) (g : A -> Prop) :
  parses lexed m g -> parses (at_type ty) m g.
Proof. intros H ts [Hts _]. now apply H. Qed.

Lemma parses_seq (pre : list Token -> Prop) (m : Parser.M A) (k : A -> Parser.M B)
    (g : A -> Prop) good :
  parses pre m g -> (forall a, g a -> parses lexed (k a) good) ->
  parses pre (Parser.seq m k) good.
Proof.
  intros Hm Hk ts Hts. unfold Parser.seq. specialize (Hm ts Hts).
  destruct (m ts) as [[a ts']| |]; auto.
  destruct Hm as [Hl Ha]. now apply Hk.
Qed.

Lemma parses_type (k : TokenType.t -> Parser.M B) good :
  (forall ty, parses (at_type ty) (k ty) good) ->
  parses lexed (Parser.seq Parser.current_type k) good.
Proof.
  intros Hk ts Hts. unfold Parser.seq, Parser.current_type.
  destruct ts as [|tok r]; [now apply lexed_nonempty in Hts|].
  apply Hk. now split.
Qed.

Lemma parses_value ty (k : pyval -> Parser.M B) good :
  (forall v, token_ok (mkToken ty v 0) = true -> parses (at_type ty) (k v) good) ->
  parses (at_type ty) (Parser.seq Parser.current_value k) good.
Proof.
  intros Hk ts Hts. unfold Parser.seq, Parser.current_value.
  destruct Hts as [Hl Hty]. destruct ts as [|tok r]; [discriminate|].
  simpl in Hty. inversion Hty; subst. apply Hk.
  - rewrite <- token_ok_eta. now apply (lexed_head tok r).
  - now split.
Qed.

Lemma parses_advance ty (k : unit -> Parser.M B) good :
  ty <> TokenType.EOF -> parses lexed (k tt) good ->
  parses (at_type ty) (Parser.seq Parser.advance k) good.
Proof.
  intros Hne Hk ts [Hl Hty]. unfold Parser.seq, Parser.advance.
  destruct ts as [|tok r]; [discriminate|]. simpl in *. inversion Hty; subst.
  apply Hk. now apply (lexed_tail tok r).
Qed.

Lemma parses_expect token_type (k : Token -> Parser.M B) good :
  token_type <> TokenType.EOF ->
  (forall tok, Token.type tok = token_type -> token_ok tok = true ->
               parses lexed (k tok) good) ->
  parses lexed (Parser.seq (Parser.expect token_type) k) good.
Proof.
  intros Hne Hk ts Hts. unfold Parser.seq, Parser.expect.
  destruct ts as [|tok r]; [now apply lexed_nonempty in Hts|].
  destruct (TokenType.eqb (Token.type tok) token_type) eqn:E; [|reflexivity].
  apply TokenType_eqb_eq in E. apply Hk; auto.
  - now apply (lexed_head tok r).
  - apply (lexed_tail tok r); auto. congruence.
Qed.

End ParsesRules.

Lemma parses_expect_name : parses lexed Parser.expect_name (fun _ => True).
Proof.
  unfold Parser.expect_name. apply parses_expect; [discriminate|].
  intros tok _ _. now apply parses_ret.
Qed.

Lemma number_token_value ty v :
  ty = TokenType.NUMBER \/ ty = TokenType.STRING ->
  token_ok (mkToken ty v 0) = true -> is_literal v = true.
Proof.
  unfold token_ok, payload_ok, is_literal, is_number. simpl.
  intros [-> | ->] H; apply andb_prop in H; destruct H as [H _]; rewrite H; auto.
  apply orb_true_r.
Qed.

Lemma parses_parse_value :
  parses lexed Parser.parse_value (fun v => is_literal v = true).
Proof.
  unfold Parser.parse_value. apply parses_type. intros ty.
  destruct ty; try (apply parses_fail; reflexivity);
    (apply parses_value; intros v Hv;
     apply parses_advance; [discriminate|];
     apply parses_ret; apply (number_token_value _ v) in Hv; auto).
Qed.

Lemma operator_map_some ty op :
  Parser.operator_map ty = Some op ->
  ty <> TokenType.EOF /\ comparison_operator op = true.
Proof. destruct ty; simpl; intros H; inversion H; split; (discriminate || reflexivity). Qed.

Lemma parses_parse_condition : parses lexed Parser.parse_condition wf_where.
Proof.
  unfold Parser.parse_condition.
  apply (parses_seq _ _ _ _ _ parses_expect_name). intros column _.
  apply parses_type. intros ty.
  destruct (Parser.operator_map ty) as [op|] eqn:E;
    [|apply parses_fail; reflexivity].
  destruct (operator_map_some ty op E) as [Hne Hop].
  apply parses_advance; [exact Hne|].
  apply (parses_seq _ _ _ _ _ parses_parse_value). intros v Hv.
  apply parses_ret. simpl. auto.
Qed.

Lemma logical_token_text ty v :
  Parser.is_logical ty = true -> token_ok (mkToken ty v 0) = true ->
  ty <> TokenType.EOF /\ (Parser.text_of v = "AND" \/ Parser.text_of v = "OR").
Proof.
  unfold token_ok, logical_text_ok. simpl.
  destruct ty; simpl; try discriminate; intros _ H;
    apply andb_prop in H; destruct H as [_ H]; apply String.eqb_eq in H;
    split; try discriminate; auto.
Qed.

Lemma parses_where_loop fuel :
  forall left, wf_where left ->
               parses lexed (Parser.where_loop fuel left) wf_where.
Proof.
  induction fuel as [|fuel IH]; intros left Hleft; simpl;
    apply parses_type; intros ty;
    (destruct (Parser.is_logical ty) eqn:E;
     [|apply parses_at; now apply parses_ret]).
  - apply parses_timeout.
  - apply parses_value. intros v Hv.
    destruct (logical_token_text ty v E Hv) as [Hne Htext].
    apply parses_advance; [exact Hne|].
    apply (parses_seq _ _ _ _ _ parses_parse_condition). intros right Hright.
    apply IH. simpl. auto.
Qed.

Lemma parses_parse_where : parses lexed Parser.parse_where wf_where.
Proof.
  intros ts Hts. unfold Parser.parse_where.
  apply (parses_seq lexed Parser.parse_condition
           (fun left => Parser.where_loop (List.length ts) left)
           wf_where wf_where parses_parse_condition); auto.
  intros left Hleft. now apply parses_where_loop.
Qed.

Lemma parses_comma_loop {A : Type} (item : Parser.M A) (g : A -> Prop) :
  parses lexed item g ->
  forall fuel items,
    items <> [] -> Forall g items ->
    parses lexed (Parser.comma_loop item fuel items)
           (fun l => l <> [] /\ Forall g l).
Proof.
  intros Hitem. induction fuel as [|fuel IH]; intros items Hne Hall; simpl;
    apply parses_type; intros ty;
    (destruct (TokenType.eqb ty TokenType.COMMA) eqn:E;
     [|apply parses_at; now apply parses_ret]).
  - apply parses_timeout.
  - apply TokenType_eqb_eq in E. subst ty.
    apply parses_advance; [discriminate|].
    apply (parses_seq _ _ _ _ _ Hitem). intros x Hx.
    apply IH.
    + intros E. apply app_eq_nil in E. destruct E. discriminate.
    + apply Forall_app. split; auto.
Qed.

Lemma parses_comma_list {A : Type} (item : Parser.M A) (g : A -> Prop) :
  parses lexed item g ->
  parses lexed (Parser.comma_list item) (fun l => l <> [] /\ Forall g l).
Proof.
  intros Hitem ts Hts. unfold Parser.comma_list.
  apply (parses_seq lexed item
           (fun x => Parser.comma_loop item (List.length ts) [x])
           g _ Hitem); auto.
  intros x Hx. apply parses_comma_loop; auto. discriminate.
Qed.

Lemma parses_parse_column_definition :
  parses lexed Parser.parse_column_definition wf_column.
Proof.
  unfold Parser.parse_column_definition.
  apply (parses_seq _ _ _ _ _ parses_expect_name). intros column_name _.
  apply parses_type. intros ty.
  destruct ty; try (apply parses_fail; reflexivity).
  - apply parses_advance; [discriminate|]. apply parses_ret. left. auto.
  - apply parses_advance; [discriminate|].
    apply parses_type. intros ty'.
    destruct (TokenType.eqb ty' TokenType.LPAREN) eqn:E.
    + apply TokenType_eqb_eq in E. subst ty'.
      apply parses_advance; [discriminate|].
      apply parses_expect; [discriminate|]. intros tok Hty Hok.
      apply parses_expect; [discriminate|]. intros rp _ _.
      apply parses_ret. right. split; [reflexivity|]. right. simpl.
      unfold token_ok, payload_ok in Hok. rewrite Hty in Hok.
      apply andb_prop in Hok. now destruct Hok.
    + apply parses_at. apply parses_ret. right. auto.
Qed.

Lemma parses_parse_select : parses lexed Parser.parse_select wf_statement.
Proof.
  unfold Parser.parse_select.
  apply parses_expect; [discriminate|]. intros kw _ _.
  apply parses_type. intros ty.
  apply (parses_seq _ _ _ (fun columns : list string => columns <> [])).
  { destruct (TokenType.eqb ty TokenType.STAR) eqn:E.
    - apply TokenType_eqb_eq in E. subst ty.
      apply parses_advance; [discriminate|]. apply parses_ret. discriminate.
    - apply parses_at. intros ts Hts.
      pose proof (parses_comma_list Parser.expect_name _ parses_expect_name ts Hts) as H.
      destruct (Parser.comma_list Parser.expect_name ts) as [[l ts']| |]; auto.
      tauto. }
  intros columns Hcolumns.
  apply parses_expect; [discriminate|]. intros kw_from _ _.
  apply (parses_seq _ _ _ _ _ parses_expect_name). intros table _.
  apply parses_type. intros ty'.
  apply (parses_seq _ _ _
           (fun where_ : option WhereClause =>
              match where_ with Some w => wf_where w | None => True end)).
  { destruct (TokenType.eqb ty' TokenType.WHERE) eqn:E.
    - apply TokenType_eqb_eq in E. subst ty'.
      apply parses_advance; [discriminate|].
      apply (parses_seq _ _ _ _ _ parses_parse_where). intros w Hw.
      now apply parses_ret.
    - apply parses_at. now apply parses_ret. }
  intros where_ Hwhere. apply parses_ret. simpl. auto.
Qed.

Lemma parses_parse_insert : parses lexed Parser.parse_insert wf_statement.
Proof.
  unfold Parser.parse_insert.
  apply parses_expect; [discriminate|]. intros kw _ _.
  apply parses_expect; [discriminate|]. intros kw_into _ _.
  apply (parses_seq _ _ _ _ _ parses_expect_name). intros table _.
  apply parses_expect; [discriminate|]. intros lp _ _.
  apply (parses_seq _ _ _ _ _ (parses_comma_list _ _ parses_expect_name)).
  intros columns [Hcolumns _].
  apply parses_expect; [discriminate|]. intros rp _ _.
  apply parses_expect; [discriminate|]. intros kw_values _ _.
  apply parses_expect; [discriminate|]. intros lp2 _ _.
  apply (parses_seq _ _ _ _ _ (parses_comma_list _ _ parses_parse_value)).
  intros values [Hvalues Hlit].
  apply parses_expect; [discriminate|]. intros rp2 _ _.
  apply parses_ret. simpl. auto.
Qed.

Lemma parses_parse_create_table :
  parses lexed Parser.parse_create_table wf_statement.
Proof.
  unfold Parser.parse_create_table.
  apply parses_expect; [discriminate|]. intros kw _ _.
  apply parses_expect; [discriminate|]. intros kw_table _ _.
  apply (parses_seq _ _ _ _ _ parses_expect_name). intros table _.
  apply parses_expect; [discriminate|]. intros lp _ _.
  apply (parses_seq _ _ _ _ _
           (parses_comma_list _ _ parses_parse_column_definition)).
  intros columns [Hcolumns Hwf].
  apply parses_expect; [discriminate|]. intros rp _ _.
  apply parses_ret. simpl. auto.
Qed.

Lemma parses_parse_statement : parses lexed Parser.parse_statement wf_statement.
Proof.
  unfold Parser.parse_statement. apply parses_type. intros ty.
  destruct ty; try (apply parses_fail; reflexivity); apply parses_at.
  - apply parses_parse_select.
  - apply parses_parse_insert.
  - apply parses_parse_create_table.
Qed.

Lemma keyword_logical u ty pos :
  dict_get Lexer.KEYWORDS u = Some ty ->
  logical_text_ok (mkToken ty (PyStr u) pos) = true.
Proof.
  unfold Lexer.KEYWORDS. cbn [dict_get].
  repeat match goal with
         | |- context [String.eqb ?k u] =>
             destruct (String.eqb k u) eqn:?E;
             [intros H; inversion H; subst; unfold logical_text_ok;
              cbn [Token.type Token.value Parser.text_of];
              first [reflexivity | rewrite String.eqb_sym; assumption]|]
         end.
  discriminate.
Qed.

Lemma char_map_logical c ty v pos :
  Lexer.char_map_get Lexer.char_map c = Some ty ->
  logical_text_ok (mkToken ty v pos) = true.
Proof.
  unfold Lexer.char_map. cbn [Lexer.char_map_get].
  repeat (destruct (Ascii.eqb _ c); [intros H; inversion H; reflexivity|]).
  discriminate.
Qed.

Lemma step_logical lx c tokens tokens' lx' :
  Lexer.step lx c tokens = Ok (tokens', lx') ->
  Forall (fun tok => logical_text_ok tok = true) tokens ->
  Forall (fun tok => logical_text_ok tok = true) tokens'.
Proof.
  assert (Hadd : forall tok, logical_text_ok tok = true ->
            Forall (fun tok => logical_text_ok tok = true) tokens ->
            Forall (fun tok => logical_text_ok tok = true) (tokens ++ [tok])%list).
  { intros tok Htok Hall. apply Forall_app. split; auto. }
  unfold Lexer.step.
  destruct (isspace c). { intros H. now inversion H. }
  destruct (isdigit c).
  { unfold Lexer.read_number. destruct (Lexer.scan number_char lx) as [num_str lx1].
    destruct (contains is_dot num_str); simpl.
    - destruct (py_float num_str) as [f| |]; simpl; try discriminate.
      intros H. inversion H; subst. now apply Hadd.
    - destruct (py_int num_str) as [n| |]; simpl; try discriminate.
      intros H. inversion H; subst. now apply Hadd. }
  destruct (is_quote c).
  { unfold Lexer.read_string.
    destruct (Lexer.scan _ (Lexer.advance lx)) as [sv lx2].
    destruct (Lexer.current_char lx2) as [c2|]; simpl; try discriminate.
    destruct (is_quote c2); simpl; try discriminate.
    intros H. inversion H; subst. now apply Hadd. }
  destruct (isalpha c || is_underscore c).
  { unfold Lexer.read_identifier. destruct (Lexer.scan _ lx) as [identifier lx1].
    destruct (dict_get Lexer.KEYWORDS (upper identifier)) as [ty|] eqn:E.
    - intros H. inversion H; subst. apply Hadd; auto.
      now apply keyword_logical.
    - intros H. inversion H; subst. now apply Hadd. }
  destruct (Ascii.eqb c ">" && Lexer.next_is lx "=").
  { intros H. inversion H; subst. now apply Hadd. }
  destruct (Ascii.eqb c "<" && Lexer.next_is lx "=").
  { intros H. inversion H; subst. now apply Hadd. }
  destruct (Ascii.eqb c "!" && Lexer.next_is lx "=").
  { intros H. inversion H; subst. now apply Hadd. }
  destruct (Lexer.char_map_get Lexer.char_map c) as [ty|] eqn:E; try discriminate.
  intros H. inversion H; subst. apply Hadd; auto.
  now apply (char_map_logical c).
Qed.

Lemma tokenize_logical sql tokens :
  Lexer.tokenize sql = Ok tokens ->
  Forall (fun tok => logical_text_ok tok = true) tokens.
Proof.
  unfold Lexer.tokenize.
  generalize (String.length sql) (Lexer.init sql).
  assert (H0 : Forall (fun tok => logical_text_ok tok = true) (@nil Token))
    by constructor.
  revert H0. generalize (@nil Token) as acc.
  intros acc H0 fuel. revert acc H0.
  induction fuel as [|fuel IH]; intros acc H0 lx; simpl.
  - destruct (Lexer.current_char lx); [discriminate|].
    intros H. inversion H; subst. apply Forall_app. split; auto.
  - destruct (Lexer.current_char lx) as [c|].
    + destruct (Lexer.step lx c acc) as [[acc' lx']| |] eqn:E; simpl;
        try discriminate.
      apply IH. now apply (step_logical lx c acc acc' lx').
    + intros H. inversion H; subst. apply Forall_app. split; auto.
Qed.

(** The token lists of [tokenize] are the ones the parser rules are
    stated for. *)
Lemma tokenize_lexed sql tokens : Lexer.tokenize sql = Ok tokens -> lexed tokens.
Proof.
  intros H. split.
  - destruct (tokenize_shape sql tokens H) as [pre [-> _]].
    now exists pre, (mkToken TokenType.EOF PyNone (String.length sql)).
  - pose proof (tokenize_payload sql tokens H) as Hp.
    pose proof (tokenize_logical sql tokens H) as Hl.
    rewrite Forall_forall in *. intros tok Hin. unfold token_ok.
    now rewrite (Hp tok Hin), (Hl tok Hin).
Qed.

Lemma parse_lexed tokens :
  lexed tokens ->
  match Parser.parse tokens with
  | Ok ast => wf_statement ast
  | Raise e => syntax_error e = true
  | Timeout => True
  end.
Proof.
  intros Hl. unfold Parser.parse.
  pose proof (parses_parse_statement tokens Hl) as H.
  destruct (Parser.parse_statement tokens) as [[ast ts]| |]; simpl; tauto.
Qed.

(** X6. On a token list that [tokenize] returned, the parser never reads
    past the EOF token: whatever it raises is one of its own syntax errors
    ("Expected ...", "Unexpected statement ...") and never the
    [AttributeError] of [self.current_token.type] on [None], which an
    empty token list does give. *)
Theorem parse_raises_syntax_errors_only
    (sql : string) (tokens : list Token) (e : error) :
  Lexer.tokenize sql = Ok tokens ->
  Parser.parse tokens = Raise e ->
  syntax_error e = true
  /\ (forall attr, e <> NoneHasNoAttribute attr)
  /\ Parser.parse [] = Raise (NoneHasNoAttribute "type").
Proof.
  intros Ht Hp. pose proof (parse_lexed tokens (tokenize_lexed sql tokens Ht)) as H.
  rewrite Hp in H. split; [exact H|]. split; [|reflexivity].
  intros attr ->. discriminate.
Qed.

Lemma parse_raises_syntax_errors_only_witness :
  Lexer.tokenize "SELECT name FROM" = Ok
    [mkToken TokenType.SELECT (PyStr "SELECT") 0;
     mkToken TokenType.IDENTIFIER (PyStr "name") 7;
     mkToken TokenType.FROM (PyStr "FROM") 12;
     mkToken TokenType.EOF PyNone 16]
  /\ syntax_error (ExpectedToken TokenType.IDENTIFIER TokenType.EOF 16) = true.
Proof.
  split; [vm_compute; reflexivity|].
  apply (parse_raises_syntax_errors_only "SELECT name FROM"
           [mkToken TokenType.SELECT (PyStr "SELECT") 0;
            mkToken TokenType.IDENTIFIER (PyStr "name") 7;
            mkToken TokenType.FROM (PyStr "FROM") 12;
            mkToken TokenType.EOF PyNone 16]).
  - vm_compute. reflexivity.
  - vm_compute. reflexivity.
Defined.

(** X7. Every statement parsed from a SQL text is well formed: a SELECT
    has at least one column and, in its WHERE clause, only the six
    comparison operators, the connectives AND and OR, and number or string
    literals; an INSERT has at least one column name and one value, all
    values numbers or strings; a CREATE TABLE has at least one column, each
    declared INT without a size or VARCHAR with no size or a numeric
    size. *)
Theorem parsed_statement_well_formed (sql : string) (statement : Statement) :
  parse_sql sql = Ok statement -> wf_statement statement.
Proof.
  unfold parse_sql. destruct (Lexer.tokenize sql) as [tokens| |] eqn:Ht; simpl;
    try discriminate.
  intros Hp. pose proof (parse_lexed tokens (tokenize_lexed sql tokens Ht)) as H.
  now rewrite Hp in H.
Qed.

Lemma parsed_statement_well_formed_witness :
  wf_statement
    (CreateTableStatement "t"
       [Column.mk "id" "INT" PyNone; Column.mk "code" "VARCHAR" (PyInt 10)]).
Proof.
  apply (parsed_statement_well_formed "CREATE TABLE t (id INT, code VARCHAR(10))").
  vm_compute. reflexivity.
Defined.

(** ** The errors the engine can report *)

Lemma step_raise_lexical lx c tokens e :
  Lexer.step lx c tokens = Raise e -> lexical_error e = true.
Proof.
  unfold Lexer.step.
  destruct (isspace c); [discriminate|].
  destruct (isdigit c).
  { unfold Lexer.read_number. destruct (Lexer.scan number_char lx) as [num_str lx1].
    destruct (contains is_dot num_str); simpl;
      [|unfold py_int; destruct (max_str_digits <? _)%Z; simpl;
        intros H; inversion H; auto].
    unfold py_float. destruct (read_while isdigit num_str) as [ip r].
    destruct r as [|d fp].
    - destruct (Nat.eqb (String.length ip) 0); simpl; intros H; inversion H; auto.
    - destruct (is_dot d && all_chars isdigit fp
                && negb (Nat.eqb (String.length ip + String.length fp) 0));
        simpl; intros H; inversion H; auto. }
  destruct (is_quote c).
  { unfold Lexer.read_string.
    destruct (Lexer.scan _ (Lexer.advance lx)) as [sv lx2].
    destruct (Lexer.current_char lx2) as [c2|]; simpl.
    - destruct (is_quote c2); simpl; intros H; inversion H; auto.
    - intros H; inversion H; auto. }
  destruct (isalpha c || is_underscore c).
  { destruct (Lexer.read_identifier lx). discriminate. }
  destruct (Ascii.eqb c ">" && Lexer.next_is lx "="); [discriminate|].
  destruct (Ascii.eqb c "<" && Lexer.next_is lx "="); [discriminate|].
  destruct (Ascii.eqb c "!" && Lexer.next_is lx "="); [discriminate|].
  destruct (Lexer.char_map_get Lexer.char_map c); [discriminate|].
  intros H. inversion H. reflexivity.
Qed.

Lemma tokenize_raise_lexical sql e :
  Lexer.tokenize sql = Raise e -> lexical_error e = true.
Proof.
  unfold Lexer.tokenize.
  generalize (String.length sql) (Lexer.init sql) (@nil Token).
  induction n as [|fuel IH]; intros lx acc; simpl.
  - destruct (Lexer.current_char lx); discriminate.
  - destruct (Lexer.current_char lx) as [c|]; [|discriminate].
    destruct (Lexer.step lx c acc) as [[acc' lx']|e'|] eqn:E; simpl.
    + apply IH.
    + intros H. inversion H; subst. now apply (step_raise_lexical lx c acc).
    + discriminate.
Qed.

Lemma py_order_semantic op test a b e :
  py_order op test a b = Raise e -> semantic_error e = true.
Proof.
  unfold py_order. destruct (py_compare a b); intros H; inversion H. reflexivity.
Qed.

Lemma evaluate_condition_semantic row column operator value e :
  comparison_operator operator = true ->
  Executor.evaluate_condition row column operator value = Raise e ->
  semantic_error e = true.
Proof.
  intros Hop. unfold Executor.evaluate_condition.
  destruct (dict_get row column) as [v|]; [|intros H; inversion H; reflexivity].
  unfold Executor.apply_operator.
  unfold comparison_operator in Hop. simpl in Hop. rewrite orb_false_r in Hop.
  destruct (String.eqb operator "="); [discriminate|].
  destruct (String.eqb operator ">"); [apply py_order_semantic|].
  destruct (String.eqb operator "<"); [apply py_order_semantic|].
  destruct (String.eqb operator ">="); [apply py_order_semantic|].
  destruct (String.eqb operator "<="); [apply py_order_semantic|].
  destruct (String.eqb operator "!="); discriminate.
Qed.

Lemma evaluate_where_semantic row where_ e :
  wf_where where_ ->
  Executor.evaluate_where row where_ = Raise e -> semantic_error e = true.
Proof.
  revert e. induction where_ as [column operator value | l IHl operator r IHr];
    intros e; simpl.
  - intros [Hop _]. now apply evaluate_condition_semantic.
  - intros [Hl [Hop Hr]].
    destruct (Executor.evaluate_where row l) as [bl|el|]; simpl;
      [| intros H; inversion H; subst; now apply IHl | discriminate].
    destruct (Executor.evaluate_where row r) as [br|er|]; simpl;
      [| intros H; inversion H; subst; now apply IHr | discriminate].
    destruct Hop as [-> | ->]; simpl; discriminate.
Qed.

Lemma filter_rows_semantic where_ rows e :
  wf_where where_ ->
  Executor.filter_rows where_ rows = Raise e -> semantic_error e = true.
Proof.
  intros Hwf. induction rows as [|row r IH]; simpl; [discriminate|].
  destruct (Executor.evaluate_where row where_) as [b|e'|] eqn:E; simpl.
  - destruct (Executor.filter_rows where_ r) as [k|e'|]; simpl; try discriminate.
    intros H. inversion H; subst. now apply IH.
  - intros H. inversion H; subst. now apply (evaluate_where_semantic row where_).
  - discriminate.
Qed.

Lemma check_requested_semantic table_name names cols e :
  Executor.check_requested table_name names cols = Raise e ->
  semantic_error e = true.
Proof.
  induction cols as [|c r IH]; simpl; [discriminate|].
  destruct (str_in c names); auto. intros H. inversion H. reflexivity.
Qed.

Lemma validate_row_semantic table row e :
  Table.validate_row table row = Raise e -> semantic_error e = true.
Proof.
  unfold Table.validate_row.
  destruct (Table.check_keys _ _ _) as [[]|e'|] eqn:K; simpl.
  - destruct (Table.check_columns row (Table.columns table)) as [[]|e'|] eqn:C;
      simpl; try discriminate.
    intros H. inversion H; subst. clear K H.
    induction (Table.columns table) as [|col r IH]; simpl in C; [discriminate|].
    destruct (Table.check_column row col) as [[]|e'|] eqn:E; simpl in C; auto;
      [|discriminate].
    inversion C; subst. clear C IH. unfold Table.check_column in E.
    destruct (dict_get row (Column.name col)) as [v|]; [|discriminate].
    destruct (String.eqb (Column.data_type col) "INT").
    { destruct (isinstance_int v); inversion E. reflexivity. }
    destruct (String.eqb (Column.data_type col) "VARCHAR"); [|discriminate].
    destruct v; try (inversion E; reflexivity).
    destruct (truthy (Column.size col)); [|discriminate].
    destruct (py_gt _ _) as [[]|e'|] eqn:G; simpl in E; inversion E; subst;
      try reflexivity.
    now apply (py_order_semantic _ _ _ _ _ G).
  - intros H. inversion H; subst. clear H.
    induction (dict_keys row) as [|key r IH]; simpl in K; [discriminate|].
    destruct (str_in key (Table.get_column_names table)); auto.
    inversion K. reflexivity.
  - discriminate.
Qed.

Lemma executor_raise_semantic storage statement e :
  wf_statement statement ->
  fst (Executor.execute storage statement) = Raise e -> semantic_error e = true.
Proof.
  destruct statement as [columns table where_ | table columns values | table columns];
    simpl.
  - intros [_ Hw]. unfold Executor.execute_select.
    destruct (StorageEngine.get_table storage table) as [t|];
      [|intros H; inversion H; reflexivity].
    destruct where_ as [w|].
    + destruct (Executor.filter_rows w (Table.rows t)) as [rows|e'|] eqn:F; simpl.
      * destruct (Executor.is_star columns); simpl; [discriminate|].
        destruct (Executor.check_requested _ _ _) as [[]|e'|] eqn:C; simpl;
          try discriminate.
        intros H. inversion H; subst. now apply check_requested_semantic in C.
      * intros H. inversion H; subst. now apply filter_rows_semantic in F.
      * discriminate.
    + simpl. destruct (Executor.is_star columns); simpl; [discriminate|].
      destruct (Executor.check_requested _ _ _) as [[]|e'|] eqn:C; simpl;
        try discriminate.
      intros H. inversion H; subst. now apply check_requested_semantic in C.
  - intros _. unfold Executor.execute_insert, StorageEngine.insert_row.
    destruct (StorageEngine.get_table storage table) as [t|]; simpl;
      [|intros H; inversion H; reflexivity].
    unfold Table.insert.
    destruct (Table.validate_row t (Executor.build_row columns values))
      as [b|e'|] eqn:V; simpl; try discriminate.
    intros H. inversion H; subst. now apply validate_row_semantic in V.
  - intros _. unfold Executor.execute_create_table, StorageEngine.create_table.
    destruct (dict_mem (StorageEngine.tables storage) table); simpl;
      [|discriminate].
    intros H. inversion H. reflexivity.
Qed.

(** *** A refused write *)

Lemma save_table_on_accepting self table :
  StorageEngine.save_table_on StorageEngine.accepting self table
  = (Ok tt, StorageEngine.save_table self table).
Proof. reflexivity. Qed.

(** On a disk that accepts every write the two forms of each method
    agree. *)
Lemma execute_on_accepting storage statement :
  Executor.execute_on StorageEngine.accepting storage statement
  = Executor.execute storage statement.
Proof. destruct statement; reflexivity. Qed.

Lemma pipeline_on_accepting storage sql :
  SQLEngine.pipeline_on StorageEngine.accepting storage sql
  = SQLEngine.pipeline storage sql.
Proof. reflexivity. Qed.

(** A statement on any disk: either it does what it does on an accepting
    disk, or the write it attempts is refused; then it raises the
    [OSError], memory is as the statement leaves it on an accepting disk,
    and no file has changed. *)
Lemma execute_on_cases disk storage statement :
  Executor.execute_on disk storage statement = Executor.execute storage statement
  \/ exists message result,
       fst (Executor.execute storage statement) = Ok result
       /\ Executor.execute_on disk storage statement
          = (Raise (OSError message),
             StorageEngine.mk
               (StorageEngine.tables (snd (Executor.execute storage statement)))
               (StorageEngine.files storage)).
Proof.
  destruct statement as [columns table where_ | table columns values | table columns];
    simpl; auto.
  - unfold Executor.execute_insert_on, Executor.execute_insert,
      StorageEngine.insert_row_on, StorageEngine.insert_row.
    destruct (StorageEngine.get_table storage table) as [t|]; auto.
    destruct (Table.insert t (Executor.build_row columns values)) as [[[]| |] t'];
      auto.
    unfold StorageEngine.save_table_on. cbn [Table.name].
    destruct (disk (Table.name t' ++ ".json")) as [message|]; auto.
    right. exists message. eexists. split; reflexivity.
  - unfold Executor.execute_create_table_on, Executor.execute_create_table,
      StorageEngine.create_table_on, StorageEngine.create_table.
    destruct (dict_mem (StorageEngine.tables storage) table); auto.
    unfold StorageEngine.save_table_on.
    destruct (disk (Table.name (Table.new table columns) ++ ".json"))
      as [message|]; auto.
    right. exists message. eexists. split; reflexivity.
Qed.

Lemma pipeline_on_cases disk storage sql :
  SQLEngine.pipeline_on disk storage sql = SQLEngine.pipeline storage sql
  \/ exists message statement result,
       parse_sql sql = Ok statement
       /\ wf_statement statement
       /\ fst (Executor.execute storage statement) = Ok result
       /\ SQLEngine.pipeline_on disk storage sql
          = (Raise (OSError message),
             StorageEngine.mk
               (StorageEngine.tables (snd (Executor.execute storage statement)))
               (StorageEngine.files storage)).
Proof.
  unfold SQLEngine.pipeline_on, SQLEngine.pipeline, parse_sql.
  destruct (Lexer.tokenize sql) as [tokens| |] eqn:Ht; simpl; auto.
  pose proof (parse_lexed tokens (tokenize_lexed sql tokens Ht)) as Hwf.
  destruct (Parser.parse tokens) as [statement| |]; simpl; auto.
  destruct (execute_on_cases disk storage statement)
    as [E | [message [result [Hr E]]]]; auto.
  right. exists message, statement, result. auto.
Qed.

(** X8. Every error the pipeline raises for an ASCII SQL text belongs
    to one of four families, by stage: the lexer raises only lexical errors
    (unexpected character, unterminated string, a numeric literal that
    [float()] or [int()] refuses), the parser (on the lexer's tokens) only
    syntax errors, and the executor (on a parsed statement, on a disk that
    may refuse the write) only semantic errors or the [OSError] of the
    write.  In particular the "Unknown operator", "Unknown logical
    operator" branches of the WHERE evaluator and the [AttributeError] on a
    missing token are never reached from a text. *)
Theorem engine_errors_classified
    (disk : StorageEngine.Disk) (storage : StorageEngine.t) (sql : string) :
  all_chars is_ascii sql = true ->
  (forall e, Lexer.tokenize sql = Raise e -> lexical_error e = true)
  /\ (forall tokens e,
        Lexer.tokenize sql = Ok tokens -> Parser.parse tokens = Raise e ->
        syntax_error e = true)
  /\ (forall statement e,
        parse_sql sql = Ok statement ->
        fst (Executor.execute_on disk storage statement) = Raise e ->
        (semantic_error e || io_error e) = true)
  /\ (forall e,
        fst (SQLEngine.pipeline_on disk storage sql) = Raise e ->
        (lexical_error e || syntax_error e || semantic_error e || io_error e)
        = true
        /\ (forall op, e <> UnknownOperator op)
        /\ (forall op, e <> UnknownLogicalOperator op)
        /\ (forall attr, e <> NoneHasNoAttribute attr)).
Proof.
  intros _.
  assert (Hlex : forall e, Lexer.tokenize sql = Raise e -> lexical_error e = true)
    by apply tokenize_raise_lexical.
  assert (Hsyn : forall tokens e,
             Lexer.tokenize sql = Ok tokens -> Parser.parse tokens = Raise e ->
             syntax_error e = true).
  { intros tokens e Ht Hp.
    pose proof (parse_lexed tokens (tokenize_lexed sql tokens Ht)) as H.
    now rewrite Hp in H. }
  assert (Hsem : forall statement e,
             parse_sql sql = Ok statement ->
             fst (Executor.execute_on disk storage statement) = Raise e ->
             (semantic_error e || io_error e) = true).
  { intros statement e Hp He.
    destruct (execute_on_cases disk storage statement)
      as [E | [message [result [_ E]]]]; rewrite E in He.
    - rewrite (executor_raise_semantic storage statement e); auto.
      unfold parse_sql in Hp.
      destruct (Lexer.tokenize sql) as [tokens| |] eqn:Ht; simpl in Hp;
        try discriminate.
      pose proof (parse_lexed tokens (tokenize_lexed sql tokens Ht)) as H.
      now rewrite Hp in H.
    - simpl in He. inversion He. reflexivity. }
  split; [exact Hlex|]. split; [exact Hsyn|]. split; [exact Hsem|].
  intros e He.
  assert (Hclass : (lexical_error e || syntax_error e || semantic_error e
                    || io_error e) = true).
  { unfold SQLEngine.pipeline_on in He. unfold parse_sql in Hsem.
    destruct (Lexer.tokenize sql) as [tokens|e'|] eqn:Ht; simpl in *.
    - destruct (Parser.parse tokens) as [ast|e'|] eqn:Hp; simpl in *.
      + pose proof (Hsem ast e eq_refl He) as H. apply orb_prop in H.
        destruct H as [H | H]; rewrite H; now rewrite !orb_true_r.
      + inversion He; subst e'. rewrite (Hsyn tokens e eq_refl Hp).
        now rewrite orb_true_r.
      + discriminate.
    - inversion He; subst e'. now rewrite (Hlex e eq_refl).
    - discriminate. }
  split; [exact Hclass|].
  repeat split; intros x ->; discriminate.
Qed.

Lemma engine_errors_classified_witness :
  all_chars is_ascii "CREATE TABLE t (a INT)" = true
  /\ (semantic_error (OSError "[Errno 13] Permission denied")
      || io_error (OSError "[Errno 13] Permission denied")) = true.
Proof.
  split; [reflexivity|].
  apply (proj1 (proj2 (proj2
           (engine_errors_classified
              (fun _ => Some "[Errno 13] Permission denied") SQLEngine.empty
              "CREATE TABLE t (a INT)" eq_refl)))
           (CreateTableStatement "t" [Column.mk "a" "INT" PyNone]));
    vm_compute; reflexivity.
Defined.

(** ** Parser: the statements of the grammar *)

Lemma seq_ok {A B : Type} (m : Parser.M A) (k : A -> Parser.M B) ts a ts' :
  m ts = Ok (a, ts') -> Parser.seq m k ts = k a ts'.
Proof. intros H. unfold Parser.seq. now rewrite H. Qed.

Lemma expect_ok ty tok ts :
  has_type ty tok = true -> Parser.expect ty (tok :: ts) = Ok (tok, ts).
Proof. unfold has_type, Parser.expect. now intros ->. Qed.

Lemma expect_name_ok tok ts :
  has_type TokenType.IDENTIFIER tok = true ->
  Parser.expect_name (tok :: ts) = Ok (Parser.text_of (Token.value tok), ts).
Proof.
  intros H. unfold Parser.expect_name. now rewrite (seq_ok _ _ _ _ _ (expect_ok _ _ _ H)).
Qed.

Lemma parse_value_ok tok ts :
  is_literal_token tok = true ->
  Parser.parse_value (tok :: ts) = Ok (Token.value tok, ts).
Proof.
  unfold is_literal_token, has_type, Parser.parse_value, Parser.seq,
    Parser.current_type. simpl.
  destruct (Token.type tok); simpl; try discriminate; reflexivity.
Qed.

Lemma comma_loop_chunks {A : Type} (item : Parser.M A)
    (follows : list Token -> Prop) (rest : list Token) :
  (forall c ts, has_type TokenType.COMMA c = true -> follows (c :: ts)) ->
  follows rest ->
  starts_with (fun tok => negb (has_type TokenType.COMMA tok)) rest = true ->
  forall (more : list (Token * (list Token * A))) fuel items,
    List.length more <= fuel ->
    Forall (fun p => has_type TokenType.COMMA (fst p) = true
                     /\ spells item follows (snd p)) more ->
    Parser.comma_loop item fuel items
      (flat_map (fun p => fst p :: fst (snd p)) more ++ rest)%list
    = Ok ((items ++ map (fun p => snd (snd p)) more)%list, rest).
Proof.
  intros Hcomma Hrest Hstop.
  induction more as [|[c [toks x]] m IH]; intros fuel items Hfuel Hall.
  - simpl. rewrite app_nil_r. destruct rest as [|tok r]; [discriminate|].
    simpl in Hstop. apply negb_true_iff in Hstop. unfold has_type in Hstop.
    destruct fuel; simpl; unfold Parser.seq, Parser.current_type; simpl;
      rewrite Hstop; reflexivity.
  - inversion Hall as [|? ? [Hc Hx] Hm]; subst. simpl in Hc, Hx, Hfuel.
    destruct fuel as [|fuel]; [lia|].
    change (flat_map (fun p => fst p :: fst (snd p)) ((c, (toks, x)) :: m) ++ rest)%list
      with (c :: ((toks ++ flat_map (fun p => fst p :: fst (snd p)) m) ++ rest))%list.
    rewrite <- app_assoc.
    simpl. unfold Parser.seq at 1. unfold Parser.current_type at 1.
    unfold has_type in Hc. rewrite Hc.
    unfold Parser.seq at 1. unfold Parser.advance at 1. cbn [tl].
    assert (Hnext : follows (flat_map (fun p => fst p :: fst (snd p)) m ++ rest)%list).
    { destruct m as [|[c' p'] m']; simpl; auto.
      inversion Hm as [|? ? [Hc' _] _]; subst. now apply Hcomma. }
    rewrite (seq_ok _ _ _ _ _ (Hx _ Hnext)). simpl.
    rewrite IH; auto; [|lia].
    now rewrite <- app_assoc.
Qed.

Lemma comma_list_chunks {A : Type} (item : Parser.M A)
    (follows : list Token -> Prop) (rest : list Token)
    (first : list Token * A) (more : list (Token * (list Token * A))) :
  (forall c ts, has_type TokenType.COMMA c = true -> follows (c :: ts)) ->
  follows rest ->
  starts_with (fun tok => negb (has_type TokenType.COMMA tok)) rest = true ->
  spells item follows first ->
  Forall (fun p => has_type TokenType.COMMA (fst p) = true
                   /\ spells item follows (snd p)) more ->
  Parser.comma_list item
    ((fst first ++ flat_map (fun p => fst p :: fst (snd p)) more) ++ rest)%list
  = Ok (snd first :: map (fun p => snd (snd p)) more, rest).
Proof.
  intros Hcomma Hrest Hstop Hfirst Hmore. unfold Parser.comma_list.
  rewrite <- app_assoc.
  assert (Hnext : follows (flat_map (fun p => fst p :: fst (snd p)) more ++ rest)%list).
  { destruct more as [|[c' p'] m']; simpl; auto.
    inversion Hmore as [|? ? [Hc' _] _]; subst. now apply Hcomma. }
  rewrite (seq_ok _ _ _ _ _ (Hfirst _ Hnext)).
  rewrite (comma_loop_chunks item follows rest Hcomma Hrest Hstop); auto.
  rewrite !length_app, length_flat_map. simpl.
  clear. induction more as [|p m IH]; simpl; lia.
Qed.

(** Comma-separated one-token items. *)
Lemma comma_list_separated {A : Type} (item : Parser.M A)
    (is_item : Token -> bool) (get : Token -> A) (s : Separated)
    (rest : list Token) :
  (forall tok ts, is_item tok = true -> item (tok :: ts) = Ok (get tok, ts)) ->
  separated_ok is_item s = true ->
  starts_with (fun tok => negb (has_type TokenType.COMMA tok)) rest = true ->
  Parser.comma_list item (separated_tokens s ++ rest)%list
  = Ok (map get (separated_items s), rest).
Proof.
  intros Hitem Hok Hstop. destruct s as [first more].
  unfold separated_ok in Hok. simpl in Hok. apply andb_prop in Hok.
  destruct Hok as [Hfirst Hmore].
  pose proof (comma_list_chunks item (fun _ => True) rest
                ([first], get first)
                (map (fun p => (fst p, ([snd p], get (snd p)))) more)) as H.
  assert (E1 : (fst ([first], get first)
                ++ flat_map (fun p => fst p :: fst (snd p))
                     (map (fun p : Token * Token => (fst p, ([snd p], get (snd p))))
                          more))%list
               = separated_tokens (first, more)).
  { unfold separated_tokens. simpl. f_equal.
    clear. induction more as [|p m IH]; simpl; auto. now rewrite IH. }
  assert (E2 : snd ([first], get first)
               :: map (fun p => snd (snd p))
                    (map (fun p : Token * Token => (fst p, ([snd p], get (snd p))))
                         more)
               = map get (separated_items (first, more))).
  { unfold separated_items. simpl. f_equal. rewrite !map_map. reflexivity. }
  rewrite E1, E2 in H. apply H; auto.
  - intros ts _. simpl. now apply Hitem.
  - rewrite forallb_forall in Hmore. apply Forall_forall.
    intros p Hin. apply in_map_iff in Hin. destruct Hin as [q [<- Hq]].
    specialize (Hmore q Hq). apply andb_prop in Hmore. destruct Hmore as [Hc Hi].
    split; [exact Hc|]. intros ts _. simpl. now apply Hitem.
Qed.

Lemma starts_other ty other tok ts :
  has_type ty tok = true -> ty <> other ->
  starts_with (fun t => negb (has_type other t)) (tok :: ts) = true.
Proof.
  unfold has_type. simpl. intros H Hne. apply TokenType_eqb_eq in H. subst ty.
  apply negb_true_iff. destruct (TokenType.eqb (Token.type tok) other) eqn:E; auto.
  apply TokenType_eqb_eq in E. contradiction.
Qed.

Lemma seq_type_ok {B : Type} (k : TokenType.t -> Parser.M B) tok ts :
  Parser.seq Parser.current_type k (tok :: ts) = k (Token.type tok) (tok :: ts).
Proof. reflexivity. Qed.

(** X9. The parser accepts every token sequence of the INSERT rule,
    [INSERT INTO ident ( ident (, ident)* ) VALUES ( literal (, literal)* )],
    whatever tokens come after the closing parenthesis, and returns the
    statement with the name of the table, the column names and the values
    in the order written. *)
Theorem parse_insert_tokens
    (kw_insert kw_into table lparen rparen kw_values lparen2 rparen2 : Token)
    (columns values : Separated) (rest : list Token) :
  has_type TokenType.INSERT kw_insert = true ->
  has_type TokenType.INTO kw_into = true ->
  has_type TokenType.IDENTIFIER table = true ->
  has_type TokenType.LPAREN lparen = true ->
  separated_ok (has_type TokenType.IDENTIFIER) columns = true ->
  has_type TokenType.RPAREN rparen = true ->
  has_type TokenType.VALUES kw_values = true ->
  has_type TokenType.LPAREN lparen2 = true ->
  separated_ok is_literal_token values = true ->
  has_type TokenType.RPAREN rparen2 = true ->
  Parser.parse
    ([kw_insert; kw_into; table; lparen] ++ separated_tokens columns
     ++ [rparen; kw_values; lparen2] ++ separated_tokens values
     ++ [rparen2] ++ rest)%list
  = Ok (InsertStatement
          (Parser.text_of (Token.value table))
          (map (fun tok => Parser.text_of (Token.value tok))
               (separated_items columns))
          (map Token.value (separated_items values))).
Proof.
  intros H1 H2 H3 H4 Hcols H5 H6 H7 Hvals H8.
  unfold Parser.parse, Parser.parse_statement. cbn [app].
  rewrite seq_type_ok.
  pose proof H1 as H1'. unfold has_type in H1'. apply TokenType_eqb_eq in H1'.
  rewrite H1'. unfold Parser.parse_insert.
  rewrite (seq_ok _ _ _ _ _ (expect_ok _ _ _ H1)).
  rewrite (seq_ok _ _ _ _ _ (expect_ok _ _ _ H2)).
  rewrite (seq_ok _ _ _ _ _ (expect_name_ok _ _ H3)).
  rewrite (seq_ok _ _ _ _ _ (expect_ok _ _ _ H4)).
  rewrite (seq_ok _ _ _ _ _
             (comma_list_separated Parser.expect_name _
                (fun tok => Parser.text_of (Token.value tok)) columns _
                expect_name_ok Hcols
                (starts_other TokenType.RPAREN TokenType.COMMA _ _ H5 ltac:(discriminate)))).
  rewrite (seq_ok _ _ _ _ _ (expect_ok _ _ _ H5)).
  rewrite (seq_ok _ _ _ _ _ (expect_ok _ _ _ H6)).
  rewrite (seq_ok _ _ _ _ _ (expect_ok _ _ _ H7)).
  rewrite (seq_ok _ _ _ _ _
             (comma_list_separated Parser.parse_value _ Token.value values _
                parse_value_ok Hvals
                (starts_other TokenType.RPAREN TokenType.COMMA _ _ H8 ltac:(discriminate)))).
  rewrite (seq_ok _ _ _ _ _ (expect_ok _ _ _ H8)).
  reflexivity.
Qed.

Lemma parse_insert_tokens_witness :
  Lexer.tokenize "INSERT INTO t (a, b) VALUES (1, 'x');" = Ok
    ([mkToken TokenType.INSERT (PyStr "INSERT") 0;
      mkToken TokenType.INTO (PyStr "INTO") 7;
      mkToken TokenType.IDENTIFIER (PyStr "t") 12;
      mkToken TokenType.LPAREN (PyStr "(") 14]
     ++ separated_tokens
          (mkToken TokenType.IDENTIFIER (PyStr "a") 15,
           [(mkToken TokenType.COMMA (PyStr ",") 16,
             mkToken TokenType.IDENTIFIER (PyStr "b") 18)])
     ++ [mkToken TokenType.RPAREN (PyStr ")") 19;
         mkToken TokenType.VALUES (PyStr "VALUES") 21;
         mkToken TokenType.LPAREN (PyStr "(") 28]
     ++ separated_tokens
          (mkToken TokenType.NUMBER (PyInt 1) 29,
           [(mkToken TokenType.COMMA (PyStr ",") 30,
             mkToken TokenType.STRING (PyStr "x") 32)])
     ++ [mkToken TokenType.RPAREN (PyStr ")") 35]
     ++ [mkToken TokenType.SEMICOLON (PyStr ";") 36;
         mkToken TokenType.EOF PyNone 37])%list
  /\ parse_sql "INSERT INTO t (a, b) VALUES (1, 'x');"
     = Ok (InsertStatement "t" ["a"; "b"] [PyInt 1; PyStr "x"]).
Proof.
  assert (Ht : Lexer.tokenize "INSERT INTO t (a, b) VALUES (1, 'x');" = Ok
    ([mkToken TokenType.INSERT (PyStr "INSERT") 0;
      mkToken TokenType.INTO (PyStr "INTO") 7;
      mkToken TokenType.IDENTIFIER (PyStr "t") 12;
      mkToken TokenType.LPAREN (PyStr "(") 14]
     ++ separated_tokens
          (mkToken TokenType.IDENTIFIER (PyStr "a") 15,
           [(mkToken TokenType.COMMA (PyStr ",") 16,
             mkToken TokenType.IDENTIFIER (PyStr "b") 18)])
     ++ [mkToken TokenType.RPAREN (PyStr ")") 19;
         mkToken TokenType.VALUES (PyStr "VALUES") 21;
         mkToken TokenType.LPAREN (PyStr "(") 28]
     ++ separated_tokens
          (mkToken TokenType.NUMBER (PyInt 1) 29,
           [(mkToken TokenType.COMMA (PyStr ",") 30,
             mkToken TokenType.STRING (PyStr "x") 32)])
     ++ [mkToken TokenType.RPAREN (PyStr ")") 35]
     ++ [mkToken TokenType.SEMICOLON (PyStr ";") 36;
         mkToken TokenType.EOF PyNone 37])%list).
  { vm_compute. reflexivity. }
  split; [exact Ht|].
  unfold parse_sql. rewrite Ht. cbn [bind].
  apply parse_insert_tokens; reflexivity.
Defined.

Lemma parse_column_definition_spells c :
  column_tokens_ok c = true ->
  spells Parser.parse_column_definition
         (fun ts => starts_with (fun tok => negb (has_type TokenType.LPAREN tok)) ts
                    = true)
         (column_tokens c, column_of c).
Proof.
  intros Hok ts Hts. unfold Parser.parse_column_definition.
  destruct c as [ident kw | ident kw | ident kw lp num rp]; simpl in Hok |- *.
  - apply andb_prop in Hok. destruct Hok as [Hi Hk].
    rewrite (seq_ok _ _ _ _ _ (expect_name_ok _ _ Hi)). rewrite seq_type_ok.
    unfold has_type in Hk. apply TokenType_eqb_eq in Hk. rewrite Hk. reflexivity.
  - apply andb_prop in Hok. destruct Hok as [Hi Hk].
    rewrite (seq_ok _ _ _ _ _ (expect_name_ok _ _ Hi)). rewrite seq_type_ok.
    unfold has_type in Hk. apply TokenType_eqb_eq in Hk. rewrite Hk.
    unfold Parser.seq at 1. unfold Parser.advance at 1. cbn [tl].
    destruct ts as [|tok r]; [discriminate|]. rewrite seq_type_ok.
    simpl in Hts. apply negb_true_iff in Hts. unfold has_type in Hts.
    rewrite Hts. reflexivity.
  - repeat (apply andb_prop in Hok; destruct Hok as [Hok ?]).
    rewrite (seq_ok _ _ _ _ _ (expect_name_ok _ _ Hok)). rewrite seq_type_ok.
    match goal with H : has_type TokenType.VARCHAR kw = true |- _ =>
      unfold has_type in H; apply TokenType_eqb_eq in H; rewrite H end.
    unfold Parser.seq at 1. unfold Parser.advance at 1. cbn [tl].
    rewrite seq_type_ok.
    match goal with H : has_type TokenType.LPAREN lp = true |- _ =>
      unfold has_type in H; rewrite H end.
    unfold Parser.seq at 1. unfold Parser.advance at 1. cbn [tl].
    match goal with H : has_type TokenType.NUMBER num = true |- _ =>
      rewrite (seq_ok _ _ _ _ _ (expect_ok _ _ _ H)) end.
    match goal with H : has_type TokenType.RPAREN rp = true |- _ =>
      rewrite (seq_ok _ _ _ _ _ (expect_ok _ _ _ H)) end.
    reflexivity.
Qed.

(** X10. The parser accepts every token sequence of the CREATE TABLE
    rule, [CREATE TABLE ident ( column_def (, column_def)* )] with
    [column_def := ident (INT | VARCHAR | VARCHAR ( NUMBER ))], whatever
    tokens come after the closing parenthesis, and returns the statement
    with the columns in the order written: INT and unsized VARCHAR columns
    have no size, a sized VARCHAR has the number written. *)
Theorem parse_create_table_tokens
    (kw_create kw_table table lparen rparen : Token)
    (first : ColumnTokens) (more : list (Token * ColumnTokens))
    (rest : list Token) :
  has_type TokenType.CREATE kw_create = true ->
  has_type TokenType.TABLE kw_table = true ->
  has_type TokenType.IDENTIFIER table = true ->
  has_type TokenType.LPAREN lparen = true ->
  column_tokens_ok first = true ->
  forallb (fun p => has_type TokenType.COMMA (fst p) && column_tokens_ok (snd p))
          more = true ->
  has_type TokenType.RPAREN rparen = true ->
  Parser.parse
    ([kw_create; kw_table; table; lparen] ++ column_list_tokens first more
     ++ [rparen] ++ rest)%list
  = Ok (CreateTableStatement
          (Parser.text_of (Token.value table))
          (column_of first :: map (fun p => column_of (snd p)) more)).
Proof.
  intros H1 H2 H3 H4 Hfirst Hmore H5.
  unfold Parser.parse, Parser.parse_statement. cbn [app].
  rewrite seq_type_ok.
  pose proof H1 as H1'. unfold has_type in H1'. apply TokenType_eqb_eq in H1'.
  rewrite H1'. unfold Parser.parse_create_table.
  rewrite (seq_ok _ _ _ _ _ (expect_ok _ _ _ H1)).
  rewrite (seq_ok _ _ _ _ _ (expect_ok _ _ _ H2)).
  rewrite (seq_ok _ _ _ _ _ (expect_name_ok _ _ H3)).
  rewrite (seq_ok _ _ _ _ _ (expect_ok _ _ _ H4)).
  pose proof (comma_list_chunks Parser.parse_column_definition
                (fun ts => starts_with
                             (fun tok => negb (has_type TokenType.LPAREN tok)) ts
                           = true)
                (rparen :: rest)
                (column_tokens first, column_of first)
                (map (fun p => (fst p, (column_tokens (snd p), column_of (snd p))))
                     more)) as H.
  assert (E1 : ((fst (column_tokens first, column_of first)
                 ++ flat_map (fun p => fst p :: fst (snd p))
                      (map (fun p : Token * ColumnTokens =>
                              (fst p, (column_tokens (snd p), column_of (snd p))))
                           more)) ++ rparen :: rest)%list
               = (column_list_tokens first more ++ rparen :: rest)%list).
  { unfold column_list_tokens. cbn [fst]. do 2 f_equal.
    clear. induction more as [|p m IH]; simpl; auto. now rewrite IH. }
  assert (E2 : snd (column_tokens first, column_of first)
               :: map (fun p => snd (snd p))
                    (map (fun p : Token * ColumnTokens =>
                            (fst p, (column_tokens (snd p), column_of (snd p))))
                         more)
               = column_of first :: map (fun p => column_of (snd p)) more).
  { cbn [snd]. f_equal. rewrite map_map. reflexivity. }
  rewrite E1, E2 in H.
  assert (Hlist : Parser.comma_list Parser.parse_column_definition
                    (column_list_tokens first more ++ rparen :: rest)%list
                  = Ok (column_of first :: map (fun p => column_of (snd p)) more,
                        rparen :: rest)); [apply H|].
  6: { cbn [app]. rewrite (seq_ok _ _ _ _ _ Hlist).
       rewrite (seq_ok _ _ _ _ _ (expect_ok _ _ _ H5)). reflexivity. }
  - intros c ts Hc.
    apply (starts_other TokenType.COMMA TokenType.LPAREN c ts Hc). discriminate.
  - apply (starts_other TokenType.RPAREN TokenType.LPAREN rparen rest H5). discriminate.
  - apply (starts_other TokenType.RPAREN TokenType.COMMA rparen rest H5). discriminate.
  - now apply parse_column_definition_spells.
  - rewrite forallb_forall in Hmore. apply Forall_forall.
    intros p Hin. apply in_map_iff in Hin. destruct Hin as [q [<- Hq]].
    specialize (Hmore q Hq). apply andb_prop in Hmore. destruct Hmore as [Hc Hi].
    split; [exact Hc|]. now apply parse_column_definition_spells.
Qed.

Lemma parse_create_table_tokens_witness :
  Parser.parse
    ([mkToken TokenType.CREATE (PyStr "CREATE") 0;
      mkToken TokenType.TABLE (PyStr "TABLE") 7;
      mkToken TokenType.IDENTIFIER (PyStr "t") 13;
      mkToken TokenType.LPAREN (PyStr "(") 15]
     ++ column_list_tokens
          (IntColumn (mkToken TokenType.IDENTIFIER (PyStr "id") 16)
                     (mkToken TokenType.INT (PyStr "INT") 19))
          [(mkToken TokenType.COMMA (PyStr ",") 22,
            SizedVarcharColumn
              (mkToken TokenType.IDENTIFIER (PyStr "code") 24)
              (mkToken TokenType.VARCHAR (PyStr "VARCHAR") 29)
              (mkToken TokenType.LPAREN (PyStr "(") 36)
              (mkToken TokenType.NUMBER (PyInt 10) 37)
              (mkToken TokenType.RPAREN (PyStr ")") 39));
           (mkToken TokenType.COMMA (PyStr ",") 40,
            VarcharColumn
              (mkToken TokenType.IDENTIFIER (PyStr "note") 42)
              (mkToken TokenType.VARCHAR (PyStr "VARCHAR") 47))]
     ++ [mkToken TokenType.RPAREN (PyStr ")") 54]
     ++ [mkToken TokenType.EOF PyNone 55])%list
  = Ok (CreateTableStatement "t"
          [Column.mk "id" "INT" PyNone; Column.mk "code" "VARCHAR" (PyInt 10);
           Column.mk "note" "VARCHAR" PyNone]).
Proof. apply parse_create_table_tokens; reflexivity. Defined.

Lemma forallb_Forall_and {A : Type} (p q : A -> bool) (l : list A) :
  forallb (fun x => p x && q x) l = true ->
  Forall (fun x => p x = true /\ q x = true) l.
Proof.
  intros H. rewrite forallb_forall in H. apply Forall_forall.
  intros x Hx. apply andb_prop. now apply H.
Qed.

Lemma parse_where_tokens first more rest :
  cond_tokens_ok first = true ->
  forallb (fun p => Parser.is_logical (Token.type (fst p))
                    && cond_tokens_ok (snd p)) more = true ->
  clause_ends rest = true ->
  Parser.parse_where (clause_tokens first more ++ rest)%list
  = Ok (left_nested (condition_of first) more, rest).
Proof.
  intros Hfirst Hmore Hend. unfold Parser.parse_where, clause_tokens.
  unfold Parser.seq at 1. rewrite <- app_assoc.
  rewrite (parse_condition_ok first _ Hfirst).
  apply where_loop_ok; auto.
  - rewrite !length_app, length_flat_map. simpl.
    clear. induction more as [|p m IH]; simpl; lia.
  - apply (forallb_Forall_and
             (fun p => Parser.is_logical (Token.type (fst p)))
             (fun p => cond_tokens_ok (snd p))). exact Hmore.
Qed.

Lemma optional_where_tokens (w : WhereTokens) (rest : list Token) :
  where_tokens_ok w rest = true ->
  Parser.seq Parser.current_type
    (fun ty => if TokenType.eqb ty TokenType.WHERE
               then Parser.seq Parser.advance
                      (fun _ => Parser.seq Parser.parse_where
                                  (fun c => Parser.ret (Some c)))
               else Parser.ret None)
    (where_tokens w ++ rest)%list
  = Ok (where_of w, rest).
Proof.
  intros Hok. destruct w as [[kw [first more]]|]; simpl in Hok.
  - repeat (apply andb_prop in Hok; destruct Hok as [Hok ?]).
    cbn [where_tokens where_of app]. rewrite seq_type_ok.
    unfold has_type in Hok. rewrite Hok.
    unfold Parser.seq at 1. unfold Parser.advance at 1. cbn [tl].
    rewrite (seq_ok _ _ _ _ _ (parse_where_tokens first more rest
                                 ltac:(assumption) ltac:(assumption)
                                 ltac:(assumption))).
    reflexivity.
  - cbn [where_tokens where_of app]. destruct rest as [|tok r]; [discriminate|].
    rewrite seq_type_ok. simpl in Hok. apply negb_true_iff in Hok.
    unfold has_type in Hok. rewrite Hok. reflexivity.
Qed.

(** X11. The parser accepts every token sequence of the SELECT rule,
    [SELECT ( * | ident (, ident)* ) FROM ident [WHERE where_expr]], as
    long as the token after it neither opens a WHERE part (when none is
    written) nor continues one with AND or OR.  The statement names the
    columns in the order written (or the single pseudo-column [*]), the
    table, and the WHERE tree nested to the left, or no WHERE at all. *)
Theorem parse_select_tokens
    (kw_select kw_from table : Token) (cols : SelectColumns)
    (w : WhereTokens) (rest : list Token) :
  has_type TokenType.SELECT kw_select = true ->
  select_columns_ok cols = true ->
  has_type TokenType.FROM kw_from = true ->
  has_type TokenType.IDENTIFIER table = true ->
  where_tokens_ok w rest = true ->
  Parser.parse
    ([kw_select] ++ select_columns_tokens cols ++ [kw_from; table]
     ++ where_tokens w ++ rest)%list
  = Ok (SelectStatement (select_columns_of cols)
                        (Parser.text_of (Token.value table))
                        (where_of w)).
Proof.
  intros H1 Hcols H2 H3 Hw.
  unfold Parser.parse, Parser.parse_statement. cbn [app].
  rewrite seq_type_ok.
  pose proof H1 as H1'. unfold has_type in H1'. apply TokenType_eqb_eq in H1'.
  rewrite H1'. unfold Parser.parse_select.
  rewrite (seq_ok _ _ _ _ _ (expect_ok _ _ _ H1)).
  assert (Htail : forall columns,
             Parser.seq (Parser.expect TokenType.FROM)
               (fun _ => Parser.seq Parser.expect_name
                  (fun name => Parser.seq Parser.current_type
                     (fun ty' => Parser.seq
                        (if TokenType.eqb ty' TokenType.WHERE
                         then Parser.seq Parser.advance
                                (fun _ => Parser.seq Parser.parse_where
                                            (fun c => Parser.ret (Some c)))
                         else Parser.ret None)
                        (fun where_ =>
                           Parser.ret (SelectStatement columns name where_)))))
               (kw_from :: table :: where_tokens w ++ rest)%list
             = Ok (SelectStatement columns (Parser.text_of (Token.value table))
                                   (where_of w), rest)).
  { intros columns.
    rewrite (seq_ok _ _ _ _ _ (expect_ok _ _ _ H2)).
    rewrite (seq_ok _ _ _ _ _ (expect_name_ok _ _ H3)).
    pose proof (optional_where_tokens w rest Hw) as Hopt.
    unfold Parser.seq at 1 in Hopt. unfold Parser.seq at 1.
    destruct (Parser.current_type (where_tokens w ++ rest)%list)
      as [[ty ts]| |]; try discriminate.
    cbn [bind] in Hopt |- *. unfold Parser.seq at 1. rewrite Hopt. reflexivity. }
  destruct cols as [star | [first more]]; simpl in Hcols.
  - cbn [select_columns_tokens select_columns_of app]. rewrite seq_type_ok.
    unfold has_type in Hcols. rewrite Hcols.
    unfold Parser.seq at 1. unfold Parser.seq at 1. unfold Parser.advance at 1.
    cbn [tl Parser.ret bind]. rewrite Htail. reflexivity.
  - cbn [select_columns_tokens select_columns_of].
    pose proof (comma_list_separated Parser.expect_name
                  (has_type TokenType.IDENTIFIER)
                  (fun tok => Parser.text_of (Token.value tok))
                  (first, more)
                  (kw_from :: table :: where_tokens w ++ rest)%list
                  expect_name_ok Hcols
                  (starts_other TokenType.FROM TokenType.COMMA _ _ H2
                     ltac:(discriminate))) as Hlist.
    change (separated_tokens (first, more)
            ++ [kw_from; table] ++ where_tokens w ++ rest)%list
      with (separated_tokens (first, more)
            ++ kw_from :: table :: where_tokens w ++ rest)%list.
    unfold separated_ok in Hcols. apply andb_prop in Hcols.
    destruct Hcols as [Hfirst _]. cbn [fst] in Hfirst.
    unfold separated_tokens in Hlist |- *. cbn [fst snd app] in Hlist |- *.
    rewrite seq_type_ok. unfold has_type in Hfirst.
    apply TokenType_eqb_eq in Hfirst. rewrite Hfirst.
    cbn [TokenType.eqb].
    rewrite (seq_ok _ _ _ _ _ Hlist). rewrite Htail. reflexivity.
Qed.

Lemma parse_select_tokens_witness :
  Parser.parse
    ([mkToken TokenType.SELECT (PyStr "SELECT") 0]
     ++ select_columns_tokens
          (NamedColumns
             (mkToken TokenType.IDENTIFIER (PyStr "name") 7,
              [(mkToken TokenType.COMMA (PyStr ",") 11,
                mkToken TokenType.IDENTIFIER (PyStr "age") 13)]))
     ++ [mkToken TokenType.FROM (PyStr "FROM") 17;
         mkToken TokenType.IDENTIFIER (PyStr "users") 22]
     ++ where_tokens
          (Some (mkToken TokenType.WHERE (PyStr "WHERE") 28,
                 (mkCondTokens (mkToken TokenType.IDENTIFIER (PyStr "age") 34)
                               (mkToken TokenType.GREATER_EQ (PyStr ">=") 38)
                               (mkToken TokenType.NUMBER (PyInt 18) 41),
                  [(mkToken TokenType.OR (PyStr "OR") 44,
                    mkCondTokens (mkToken TokenType.IDENTIFIER (PyStr "name") 47)
                                 (mkToken TokenType.EQUALS (PyStr "=") 52)
                                 (mkToken TokenType.STRING (PyStr "Al") 54))])))
     ++ [mkToken TokenType.EOF PyNone 58])%list
  = Ok (SelectStatement ["name"; "age"] "users"
          (Some (CompoundCondition (Condition "age" ">=" (PyInt 18)) "OR"
                                   (Condition "name" "=" (PyStr "Al"))))).
Proof. apply parse_select_tokens; reflexivity. Defined.

(* ------------------------------------------------------------------ *)
(** ** WHERE evaluation                                                 *)
(* ------------------------------------------------------------------ *)

Lemma evaluate_all_app row l1 l2 :
  evaluate_all row (l1 ++ l2)%list
  = let* _ := evaluate_all row l1 in evaluate_all row l2.
Proof.
  induction l1 as [|[[c op] v] r IH]; simpl; auto.
  destruct (Executor.evaluate_condition row c op v); simpl; auto.
Qed.

(** X12. [evaluate_where] does not short-circuit.  On a tree whose
    connectives are AND and OR it evaluates every simple condition, left
    to right, whatever the earlier ones returned: the first exception among
    them is the exception of the whole tree, and when all of them return
    the result is their combination by conjunction and disjunction. *)
Theorem evaluate_where_no_short_circuit (row : Row) (w : WhereClause) :
  connectives_ok w = true ->
  Executor.evaluate_where row w
  = let* _ := evaluate_all row (conditions w) in Ok (truth row w).
Proof.
  induction w as [c op v | lhs IHl op rhs IHr]; intros Hok.
  - simpl. unfold holds. simpl.
    destruct (Executor.evaluate_condition row c op v) as [[|]| |]; reflexivity.
  - simpl in Hok. apply andb_prop in Hok. destruct Hok as [Hok Hr].
    apply andb_prop in Hok. destruct Hok as [Hl Hop].
    cbn [Executor.evaluate_where conditions truth].
    rewrite (IHl Hl), (IHr Hr), evaluate_all_app.
    destruct (evaluate_all row (conditions lhs)) as [[]| |]; simpl; auto.
    destruct (evaluate_all row (conditions rhs)) as [[]| |]; simpl; auto.
    destruct (String.eqb op "AND"); auto.
    simpl in Hop. now rewrite Hop.
Qed.

Lemma evaluate_where_no_short_circuit_witness :
  Executor.evaluate_where [("age", PyInt 30)]
    (CompoundCondition (Condition "age" "<" (PyInt 26)) "AND"
                       (Condition "name" "=" (PyStr "Bob")))
  = Raise (ColumnNotFoundInRow "name").
Proof.
  rewrite evaluate_where_no_short_circuit; reflexivity.
Defined.

(** X13. The outcome of a WHERE tree on a row depends only on the values
    the row has under the columns the tree names: two rows that agree on
    them get the same result or the same exception. *)
Theorem evaluate_where_reads_named_columns (row1 row2 : Row) (w : WhereClause) :
  (forall column, In column (where_columns w) ->
                  dict_get row1 column = dict_get row2 column) ->
  Executor.evaluate_where row1 w = Executor.evaluate_where row2 w.
Proof.
  unfold where_columns.
  induction w as [c op v | lhs IHl op rhs IHr]; intros H.
  - simpl. unfold Executor.evaluate_condition.
    rewrite (H c); [reflexivity|]. simpl. auto.
  - simpl in H |- *. rewrite map_app in H.
    rewrite IHl, IHr; auto; intros column Hin; apply H, in_or_app; auto.
Qed.

Lemma evaluate_where_reads_named_columns_witness :
  Executor.evaluate_where [("id", PyInt 1); ("age", PyInt 30)] age_between
  = Executor.evaluate_where [("age", PyInt 30); ("name", PyStr "Bob")] age_between.
Proof.
  apply evaluate_where_reads_named_columns.
  intros column [<- | [<- | []]]; reflexivity.
Defined.

Lemma py_compare_comparable a b :
  comparable a b = match py_compare a b with Some _ => true | None => false end.
Proof. destruct a, b; reflexivity. Qed.

(** X14. The six comparison operators on a row that has the column.
    [=] and [!=] never raise and are each other's negation.  Between two
    numbers or two strings, exactly one of [<], [=], [>] holds, [<=] is
    [<] or [=], and [>=] is [>] or [=].  Between any other two values the
    four ordering operators raise the [TypeError] of the comparison, and
    [=] holds only between [None] and [None]. *)
Theorem comparison_trichotomy (row : Row) (column : string) (v value : pyval) :
  dict_get row column = Some v ->
  exists eq,
    Executor.evaluate_condition row column "=" value = Ok eq
    /\ Executor.evaluate_condition row column "!=" value = Ok (negb eq)
    /\ if comparable v value
       then exists lt gt,
           Executor.evaluate_condition row column "<" value = Ok lt
           /\ Executor.evaluate_condition row column ">" value = Ok gt
           /\ Executor.evaluate_condition row column "<=" value = Ok (lt || eq)
           /\ Executor.evaluate_condition row column ">=" value = Ok (gt || eq)
           /\ exactly_one lt eq gt = true
       else
         eq = match v, value with PyNone, PyNone => true | _, _ => false end
         /\ Executor.evaluate_condition row column "<" value
            = Raise (NotSupportedBetween "<" v value)
         /\ Executor.evaluate_condition row column ">" value
            = Raise (NotSupportedBetween ">" v value)
         /\ Executor.evaluate_condition row column "<=" value
            = Raise (NotSupportedBetween "<=" v value)
         /\ Executor.evaluate_condition row column ">=" value
            = Raise (NotSupportedBetween ">=" v value).
Proof.
  intros Hget. unfold Executor.evaluate_condition. rewrite Hget.
  exists (py_eq v value). cbn [Executor.apply_operator String.eqb Ascii.eqb
                                 Bool.eqb].
  split; [reflexivity|]. split; [reflexivity|].
  rewrite py_compare_comparable.
  unfold py_lt, py_gt, py_le, py_ge, py_order.
  destruct (py_compare v value) as [c|] eqn:Hc.
  - assert (Heq : py_eq v value = match c with Eq => true | _ => false end).
    { unfold py_eq. rewrite Hc. destruct v, value; try discriminate; reflexivity. }
    rewrite Heq.
    exists (match c with Lt => true | _ => false end),
           (match c with Gt => true | _ => false end).
    destruct c; repeat split; reflexivity.
  - split; [|repeat split; reflexivity].
    unfold py_eq. rewrite Hc. destruct v, value; reflexivity.
Qed.

Lemma comparison_trichotomy_witness :
  exists eq,
    Executor.evaluate_condition [("age", PyInt 30)] "age" "=" (PyStr "30") = Ok eq
    /\ Executor.evaluate_condition [("age", PyInt 30)] "age" "!=" (PyStr "30")
       = Ok (negb eq)
    /\ if comparable (PyInt 30) (PyStr "30")
       then exists lt gt,
           Executor.evaluate_condition [("age", PyInt 30)] "age" "<" (PyStr "30")
           = Ok lt
           /\ Executor.evaluate_condition [("age", PyInt 30)] "age" ">" (PyStr "30")
              = Ok gt
           /\ Executor.evaluate_condition [("age", PyInt 30)] "age" "<=" (PyStr "30")
              = Ok (lt || eq)
           /\ Executor.evaluate_condition [("age", PyInt 30)] "age" ">=" (PyStr "30")
              = Ok (gt || eq)
           /\ exactly_one lt eq gt = true
       else
         eq = false
         /\ Executor.evaluate_condition [("age", PyInt 30)] "age" "<" (PyStr "30")
            = Raise (NotSupportedBetween "<" (PyInt 30) (PyStr "30"))
         /\ Executor.evaluate_condition [("age", PyInt 30)] "age" ">" (PyStr "30")
            = Raise (NotSupportedBetween ">" (PyInt 30) (PyStr "30"))
         /\ Executor.evaluate_condition [("age", PyInt 30)] "age" "<=" (PyStr "30")
            = Raise (NotSupportedBetween "<=" (PyInt 30) (PyStr "30"))
         /\ Executor.evaluate_condition [("age", PyInt 30)] "age" ">=" (PyStr "30")
            = Raise (NotSupportedBetween ">=" (PyInt 30) (PyStr "30")).
Proof.
  exact (comparison_trichotomy [("age", PyInt 30)] "age" (PyInt 30) (PyStr "30")
           eq_refl).
Defined.

(* ------------------------------------------------------------------ *)
(** ** File names                                                       *)
(* ------------------------------------------------------------------ *)

Lemma append_inj_l (a b s : string) : a ++ s = b ++ s -> a = b.
Proof.
  revert b. induction a as [|c a IH]; intros [|d b] H; simpl in H.
  - reflexivity.
  - apply (f_equal String.length) in H. simpl in H.
    rewrite length_append_str in H. lia.
  - apply (f_equal String.length) in H. simpl in H.
    rewrite length_append_str in H. lia.
  - inversion H. f_equal. auto.
Qed.

Lemma substring_all (s : string) : substring 0 (String.length s) s = s.
Proof. induction s as [|c s IH]; simpl; congruence. Qed.

Lemma substring_append_prefix (a b : string) :
  substring 0 (String.length a) (a ++ b) = a.
Proof.
  induction a as [|c a IH]; simpl.
  - now destruct b.
  - now rewrite IH.
Qed.

Lemma substring_append_suffix (a b : string) :
  substring (String.length a) (String.length b) (a ++ b) = b.
Proof.
  induction a as [|c a IH]; simpl; auto. apply substring_all.
Qed.

Lemma substring_split (n : nat) (s : string) :
  n <= String.length s ->
  s = substring 0 n s ++ substring n (String.length s - n) s.
Proof.
  revert n. induction s as [|c s IH]; intros [|n] H; simpl in *; try lia; auto.
  - now rewrite substring_all.
  - f_equal. apply IH. lia.
Qed.

Lemma endswith_append (a suffix : string) : endswith (a ++ suffix) suffix = true.
Proof.
  unfold endswith. rewrite length_append_str.
  replace (String.length a + String.length suffix - String.length suffix)
    with (String.length a) by lia.
  rewrite substring_append_suffix, String.eqb_refl.
  apply andb_true_intro. split; [apply Nat.leb_le; lia | reflexivity].
Qed.

Lemma drop_last_append (a suffix : string) :
  drop_last (String.length suffix) (a ++ suffix) = a.
Proof.
  unfold drop_last. rewrite length_append_str.
  replace (String.length a + String.length suffix - String.length suffix)
    with (String.length a) by lia.
  apply substring_append_prefix.
Qed.

Lemma endswith_split (s suffix : string) :
  endswith s suffix = true -> s = drop_last (String.length suffix) s ++ suffix.
Proof.
  unfold endswith, drop_last. intros H. apply andb_prop in H.
  destruct H as [Hlen Heq]. apply Nat.leb_le in Hlen. apply String.eqb_eq in Heq.
  rewrite (substring_split (String.length s - String.length suffix) s) at 1
    by lia.
  f_equal. rewrite <- Heq at 3. f_equal. lia.
Qed.

(* ------------------------------------------------------------------ *)
(** ** The store                                                        *)
(* ------------------------------------------------------------------ *)

Section DictOrder.
Context {V : Type}.
Implicit Types (d : dict V) (k : string) (v : V).

Lemma dict_get_none d k : dict_get d k = None <-> ~ In k (dict_keys d).
Proof.
  rewrite <- dict_mem_in_keys. unfold dict_mem.
  destruct (dict_get d k); split; intros H; congruence.
Qed.

Lemma dict_keys_set_NoDup d k v :
  NoDup (dict_keys d) -> NoDup (dict_keys (dict_set d k v)).
Proof.
  intros H. rewrite dict_keys_set. destruct (dict_mem d k) eqn:E; auto.
  apply NoDup_rev in H. rewrite <- (rev_involutive (dict_keys d ++ [k])).
  apply NoDup_rev. rewrite rev_app_distr. simpl. constructor; auto.
  rewrite <- in_rev. intros Hin. apply dict_mem_in_keys in Hin. congruence.
Qed.

Lemma dict_get_in d k v :
  NoDup (dict_keys d) -> (dict_get d k = Some v <-> In (k, v) d).
Proof.
  induction d as [|[k' v'] r IH]; simpl; intros Hnd.
  - split; [discriminate | tauto].
  - inversion Hnd as [|? ? Hnot Hr]; subst.
    destruct (String.eqb k' k) eqn:E.
    + apply String.eqb_eq in E. subst k'. split.
      * intros H. inversion H. auto.
      * intros [H | H]; [now inversion H|].
        exfalso. apply Hnot. change k with (fst (k, v)). now apply in_map.
    + apply String.eqb_neq in E. rewrite (IH Hr). split; auto.
      intros [H | H]; auto. inversion H. contradiction.
Qed.

(** Lookups do not depend on the order of the entries. *)
Lemma dict_get_permutation d d' k :
  NoDup (dict_keys d) -> Permutation d d' -> dict_get d k = dict_get d' k.
Proof.
  intros Hnd Hp.
  assert (Hnd' : NoDup (dict_keys d')).
  { unfold dict_keys in *. eapply Permutation_NoDup; [|exact Hnd].
    now apply Permutation_map. }
  destruct (dict_get d k) as [v|] eqn:E1.
  - apply (dict_get_in d k v Hnd) in E1. symmetry.
    apply (dict_get_in d' k v Hnd'). eapply Permutation_in; eauto.
  - destruct (dict_get d' k) as [v|] eqn:E2; auto.
    apply (dict_get_in d' k v Hnd') in E2.
    apply Permutation_sym in Hp.
    pose proof (Permutation_in _ Hp E2) as Hin.
    apply (dict_get_in d k v Hnd) in Hin. congruence.
Qed.

End DictOrder.

Lemma file_name_inj (a b : string) : a ++ ".json" = b ++ ".json" -> a = b.
Proof. apply append_inj_l. Qed.

(** X15. [create_table] on a name in use raises "already exists" and
    changes nothing.  On a fresh name the table is entered in memory first,
    with the given columns and no rows, its name last in [list_tables], and
    every other table and file stays as before.  Then the file is written:
    if the disk accepts it the call returns and the file holds the empty
    table; if the disk refuses it the call raises the [OSError] and the
    table stays in memory without a file. *)
Theorem create_table_effect
    (disk : StorageEngine.Disk) (storage : StorageEngine.t) (name : string)
    (columns : list Column) :
  if StorageEngine.table_exists storage name
  then StorageEngine.create_table_on disk storage name columns
       = (Raise (TableAlreadyExists name), storage)
  else exists storage',
      snd (StorageEngine.create_table_on disk storage name columns) = storage'
      /\ StorageEngine.get_table storage' name = Some (Table.mk name columns [])
      /\ StorageEngine.list_tables storage'
         = (StorageEngine.list_tables storage ++ [name])%list
      /\ (forall other,
            other <> name ->
            StorageEngine.get_table storage' other
            = StorageEngine.get_table storage other
            /\ StorageEngine.persisted storage' other
               = StorageEngine.persisted storage other)
      /\ match disk (name ++ ".json") with
         | None =>
             fst (StorageEngine.create_table_on disk storage name columns) = Ok tt
             /\ StorageEngine.persisted storage' name
                = Some (Table.to_dict (Table.mk name columns []))
         | Some message =>
             fst (StorageEngine.create_table_on disk storage name columns)
             = Raise (OSError message)
             /\ StorageEngine.persisted storage' name
                = StorageEngine.persisted storage name
         end.
Proof.
  unfold StorageEngine.table_exists, StorageEngine.create_table_on.
  destruct (dict_mem (StorageEngine.tables storage) name) eqn:E; [reflexivity|].
  eexists. split; [reflexivity|].
  unfold StorageEngine.save_table_on, Table.new. cbn [Table.name].
  destruct (disk (name ++ ".json")) as [message|];
    unfold StorageEngine.get_table, StorageEngine.persisted,
      StorageEngine.list_tables, StorageEngine.save_table; simpl;
    rewrite ?dict_get_set_same, dict_keys_set, E.
  - repeat split; auto. apply dict_get_set_other. congruence.
  - repeat split; auto.
    + apply dict_get_set_other. congruence.
    + apply dict_get_set_other. intros Hf. apply file_name_inj in Hf. congruence.
Qed.

(** X26. [insert_row] on a missing table raises "does not exist", and on
    a row that fails validation raises the error of the validation; in both
    cases nothing changes.  A row that passes validation is appended to the
    table in memory first, other tables staying as they are.  Then the file
    is written: if the disk accepts it the call returns and the file of the
    table holds the table with the new row; if the disk refuses it the call
    raises the [OSError], no file has changed, and the row stays in memory
    without being stored. *)
Theorem insert_row_effect
    (disk : StorageEngine.Disk) (storage : StorageEngine.t) (name : string)
    (row : Row) :
  match StorageEngine.get_table storage name with
  | None =>
      StorageEngine.insert_row_on disk storage name row
      = (Raise (TableDoesNotExist name), storage)
  | Some table =>
      match Table.validate_row table row with
      | Raise e =>
          StorageEngine.insert_row_on disk storage name row = (Raise e, storage)
      | Timeout => False
      | Ok _ =>
          let table' :=
            Table.mk (Table.name table) (Table.columns table)
                     (Table.rows table ++ [row]) in
          exists storage',
            snd (StorageEngine.insert_row_on disk storage name row) = storage'
            /\ StorageEngine.get_table storage' name = Some table'
            /\ (forall other,
                  other <> name ->
                  StorageEngine.get_table storage' other
                  = StorageEngine.get_table storage other)
            /\ match disk (Table.name table ++ ".json") with
               | None =>
                   fst (StorageEngine.insert_row_on disk storage name row) = Ok tt
                   /\ StorageEngine.files storage'
                      = dict_set (StorageEngine.files storage)
                                 (Table.name table ++ ".json")
                                 (Table.to_dict table')
               | Some message =>
                   fst (StorageEngine.insert_row_on disk storage name row)
                   = Raise (OSError message)
                   /\ StorageEngine.files storage' = StorageEngine.files storage
               end
      end
  end.
Proof.
  unfold StorageEngine.insert_row_on.
  destruct (StorageEngine.get_table storage name) as [table|] eqn:Hget;
    [|reflexivity].
  unfold Table.insert.
  destruct (validate_row_cases table row) as [Hv | [e Hv]]; rewrite Hv.
  - cbn zeta. eexists. split; [reflexivity|].
    unfold StorageEngine.save_table_on. cbn [Table.name].
    destruct (disk (Table.name table ++ ".json")) as [message|];
      unfold StorageEngine.get_table, StorageEngine.save_table; simpl;
      rewrite dict_get_set_same; repeat split; auto;
      intros other Hne; apply dict_get_set_other; congruence.
  - unfold StorageEngine.get_table in Hget. rewrite (dict_set_id _ _ _ Hget).
    now destruct storage.
Qed.

(** What a statement does to the store: nothing, or one table is added
    with its file, or one row is appended to a table and its file is
    rewritten. *)
Lemma execute_state storage statement :
  snd (Executor.execute storage statement) = storage
  \/ (exists table columns,
        statement = CreateTableStatement table columns
        /\ StorageEngine.get_table storage table = None
        /\ snd (Executor.execute storage statement)
           = StorageEngine.mk
               (dict_set (StorageEngine.tables storage) table
                         (Table.mk table columns []))
               (dict_set (StorageEngine.files storage) (table ++ ".json")
                         (Table.to_dict (Table.mk table columns []))))
  \/ (exists table columns values t,
        statement = InsertStatement table columns values
        /\ StorageEngine.get_table storage table = Some t
        /\ Table.validate_row t (Executor.build_row columns values) = Ok true
        /\ snd (Executor.execute storage statement)
           = StorageEngine.mk
               (dict_set (StorageEngine.tables storage) table
                  (Table.mk (Table.name t) (Table.columns t)
                     (Table.rows t ++ [Executor.build_row columns values])))
               (dict_set (StorageEngine.files storage) (Table.name t ++ ".json")
                  (Table.to_dict
                     (Table.mk (Table.name t) (Table.columns t)
                        (Table.rows t ++ [Executor.build_row columns values]))))).
Proof.
  destruct statement as [columns table where_ | table columns values | table columns].
  - left. reflexivity.
  - simpl. unfold Executor.execute_insert, StorageEngine.insert_row.
    destruct (StorageEngine.get_table storage table) as [t|] eqn:Hget;
      [|left; reflexivity].
    unfold Table.insert.
    destruct (validate_row_cases t (Executor.build_row columns values))
      as [Hv | [e Hv]]; rewrite Hv; simpl.
    + right. right. exists table, columns, values, t. auto.
    + left. unfold StorageEngine.get_table in Hget.
      rewrite (dict_set_id _ _ _ Hget). now destruct storage.
  - simpl. unfold Executor.execute_create_table, StorageEngine.create_table.
    unfold StorageEngine.get_table, dict_mem.
    destruct (dict_get (StorageEngine.tables storage) table) eqn:Hget; simpl.
    + left. reflexivity.
    + right. left. exists table, columns. auto.
Qed.

(** The store after a SQL text: untouched when the text does not parse,
    otherwise what executing the well-formed statement leaves. *)
Lemma pipeline_state storage sql :
  snd (SQLEngine.pipeline storage sql) = storage
  \/ exists statement,
      parse_sql sql = Ok statement
      /\ wf_statement statement
      /\ SQLEngine.pipeline storage sql = Executor.execute storage statement.
Proof.
  unfold SQLEngine.pipeline, parse_sql.
  destruct (Lexer.tokenize sql) as [tokens| |] eqn:Ht; simpl; auto.
  pose proof (parse_lexed tokens (tokenize_lexed sql tokens Ht)) as Hwf.
  destruct (Parser.parse tokens) as [statement| |]; simpl; auto.
  right. exists statement. auto.
Qed.

Lemma execute_extends storage statement name table :
  StorageEngine.get_table storage name = Some table ->
  exists table',
    StorageEngine.get_table (snd (Executor.execute storage statement)) name
    = Some table'
    /\ extends table table'
    /\ List.length (Table.rows table') <= S (List.length (Table.rows table))
    /\ (statement_table statement <> name -> table' = table).
Proof.
  intros Hget.
  assert (Hsame : exists table',
             Some table = Some table' /\ extends table table'
             /\ List.length (Table.rows table') <= S (List.length (Table.rows table))
             /\ (statement_table statement <> name -> table' = table)).
  { exists table. repeat split; auto. exists []. now rewrite app_nil_r. }
  destruct (execute_state storage statement)
    as [-> | [[tbl [cols [-> [Hnone ->]]]] | [tbl [cols [vals [t [-> [Hsome [_ ->]]]]]]]]].
  - now rewrite Hget.
  - unfold StorageEngine.get_table in *. simpl.
    rewrite dict_get_set_other, Hget; [exact Hsame | congruence].
  - unfold StorageEngine.get_table in *. simpl.
    destruct (String.eqb tbl name) eqn:E.
    + apply String.eqb_eq in E. subst tbl. rewrite dict_get_set_same.
      rewrite Hget in Hsome. inversion Hsome; subst t.
      eexists. split; [reflexivity|]. simpl. repeat split; auto.
      * eexists. reflexivity.
      * rewrite length_app. simpl. lia.
      * congruence.
    + apply String.eqb_neq in E. rewrite dict_get_set_other, Hget; auto.
Qed.

(** X16. The engine only appends.  Whatever SQL text is executed, a table
    that exists still exists afterwards under the same name, with the same
    schema and with its rows as a prefix of the new rows; at most one row
    is added, and none when the statement names another table. *)
Theorem engine_only_appends
    (storage : StorageEngine.t) (sql name : string) (table : Table.t) :
  StorageEngine.get_table storage name = Some table ->
  exists table',
    StorageEngine.get_table (snd (SQLEngine.pipeline storage sql)) name
    = Some table'
    /\ extends table table'
    /\ List.length (Table.rows table') <= S (List.length (Table.rows table))
    /\ (forall statement,
          parse_sql sql = Ok statement -> statement_table statement <> name ->
          table' = table).
Proof.
  intros Hget.
  destruct (pipeline_state storage sql) as [-> | [statement [Hp [_ ->]]]].
  - exists table. rewrite Hget. repeat split; auto.
    exists []. now rewrite app_nil_r.
  - destruct (execute_extends storage statement name table Hget)
      as [table' [H1 [H2 [H3 H4]]]].
    exists table'. repeat split; auto; try apply H2.
    intros statement' Hp'. rewrite Hp in Hp'. inversion Hp'. subst. exact H4.
Qed.

Lemma engine_only_appends_witness :
  exists table',
    StorageEngine.get_table
      (snd (SQLEngine.pipeline users_storage
              "INSERT INTO users (id, name) VALUES (4, 'Dan')")) "users"
    = Some table'
    /\ extends users_table table'
    /\ List.length (Table.rows table') <= S (List.length (Table.rows users_table))
    /\ (forall statement,
          parse_sql "INSERT INTO users (id, name) VALUES (4, 'Dan')" = Ok statement ->
          statement_table statement <> "users" ->
          table' = users_table).
Proof.
  exact (engine_only_appends users_storage
           "INSERT INTO users (id, name) VALUES (4, 'Dan')" "users" users_table
           eq_refl).
Defined.

(** *** Memory and disk *)

Lemma table_record_round_trip (table : Table.t) :
  Table.from_dict (Table.to_dict table) = table.
Proof.
  destruct table as [name columns rows].
  unfold Table.from_dict, Table.to_dict; simpl. f_equal.
  rewrite map_map. rewrite <- (map_id columns) at 2.
  apply map_ext. now intros [n dt sz].
Qed.

Lemma synced_empty : synced SQLEngine.empty.
Proof.
  repeat split; simpl; try constructor. intros name table H. discriminate.
Qed.

(** Storing a table under its own name and writing its file keeps memory
    and disk in agreement. *)
Lemma synced_set storage name table :
  synced storage ->
  Table.name table = name ->
  synced (StorageEngine.mk
            (dict_set (StorageEngine.tables storage) name table)
            (dict_set (StorageEngine.files storage) (name ++ ".json")
                      (Table.to_dict table))).
Proof.
  intros [Hf [Ht [Hp Hn]]] Hname.
  unfold synced, StorageEngine.persisted, StorageEngine.get_table in *. simpl.
  split; [now apply dict_keys_set_NoDup|].
  split; [now apply dict_keys_set_NoDup|].
  split.
  - intros other. destruct (String.eqb name other) eqn:E.
    + apply String.eqb_eq in E. subst other. now rewrite !dict_get_set_same.
    + apply String.eqb_neq in E. rewrite !dict_get_set_other; auto.
      intros Heq. apply file_name_inj in Heq. contradiction.
  - intros other t. destruct (String.eqb name other) eqn:E.
    + apply String.eqb_eq in E. subst other. rewrite dict_get_set_same.
      intros H. inversion H. now subst.
    + apply String.eqb_neq in E. rewrite dict_get_set_other; auto.
Qed.

Lemma synced_execute storage statement :
  synced storage -> synced (snd (Executor.execute storage statement)).
Proof.
  intros Hs.
  destruct (execute_state storage statement)
    as [-> | [[tbl [cols [_ [_ ->]]]] | [tbl [cols [vals [t [_ [Hsome [_ ->]]]]]]]]];
    auto.
  - now apply synced_set.
  - destruct Hs as [Hf [Ht [Hp Hn]]]. rewrite (Hn tbl t Hsome).
    apply synced_set; [repeat split; auto | reflexivity].
Qed.

(** One lookup in the tables [load_database] builds. *)
Lemma load_database_get files name :
  forall acc,
    NoDup (dict_keys files) ->
    dict_get (fold_left StorageEngine.load_file files acc) name
    = match dict_get files (name ++ ".json") with
      | Some data => Some (Table.from_dict data)
      | None => dict_get acc name
      end.
Proof.
  induction files as [|[filename data] r IH]; intros acc Hnd; simpl; auto.
  inversion Hnd as [|? ? Hnot Hr]; subst. rewrite (IH _ Hr).
  destruct (String.eqb filename (name ++ ".json")) eqn:E.
  - apply String.eqb_eq in E. subst filename.
    apply dict_get_none in Hnot. rewrite Hnot.
    unfold StorageEngine.load_file. rewrite (endswith_append name ".json").
    change 5 with (String.length ".json"). rewrite drop_last_append.
    apply dict_get_set_same.
  - apply String.eqb_neq in E.
    destruct (dict_get r (name ++ ".json")); auto.
    unfold StorageEngine.load_file.
    destruct (endswith filename ".json") eqn:Hend; auto.
    apply dict_get_set_other. intros Heq. apply E.
    rewrite (endswith_split filename ".json" Hend).
    change (String.length ".json") with 5. now rewrite Heq.
Qed.

Lemma load_database_NoDup files :
  forall acc,
    NoDup (dict_keys acc) ->
    NoDup (dict_keys (fold_left StorageEngine.load_file files acc)).
Proof.
  induction files as [|[filename data] r IH]; intros acc Hnd; simpl; auto.
  apply IH. unfold StorageEngine.load_file.
  destruct (endswith filename ".json"); auto. now apply dict_keys_set_NoDup.
Qed.

Lemma extends_refl table : extends table table.
Proof. repeat split. exists []. now rewrite app_nil_r. Qed.

Lemma extends_trans t1 t2 t3 : extends t1 t2 -> extends t2 t3 -> extends t1 t3.
Proof.
  intros [N1 [C1 [new1 R1]]] [N2 [C2 [new2 R2]]]. repeat split; try congruence.
  exists (new1 ++ new2)%list. now rewrite R2, R1, app_assoc.
Qed.

Lemma lagging_empty : lagging SQLEngine.empty.
Proof.
  repeat split; simpl; try constructor; intros; discriminate.
Qed.

(** A table that grows in memory while no file changes. *)
Lemma lagging_tables_set storage name table' :
  lagging storage ->
  Table.name table' = name ->
  (forall table, StorageEngine.get_table storage name = Some table ->
                 extends table table') ->
  lagging (StorageEngine.mk
             (dict_set (StorageEngine.tables storage) name table')
             (StorageEngine.files storage)).
Proof.
  intros [Hf [Ht [Hn Hp]]] Hname Hext.
  unfold lagging, StorageEngine.persisted, StorageEngine.get_table in *. simpl.
  split; [exact Hf|]. split; [now apply dict_keys_set_NoDup|]. split.
  - intros other t. destruct (String.eqb name other) eqn:E.
    + apply String.eqb_eq in E. subst other. rewrite dict_get_set_same.
      intros H. inversion H. now subst.
    + apply String.eqb_neq in E. rewrite dict_get_set_other; auto.
  - intros other data Hd. destruct (Hp other data Hd) as [saved [t [E1 [E2 E3]]]].
    exists saved. destruct (String.eqb name other) eqn:E.
    + apply String.eqb_eq in E. subst other. exists table'.
      rewrite dict_get_set_same. split; [exact E1|]. split; [reflexivity|].
      eapply extends_trans; [exact E3|]. now apply Hext.
    + apply String.eqb_neq in E. exists t. rewrite dict_get_set_other; auto.
Qed.

(** A table stored under its own name whose file is written. *)
Lemma lagging_set storage name table :
  lagging storage ->
  Table.name table = name ->
  lagging (StorageEngine.mk
             (dict_set (StorageEngine.tables storage) name table)
             (dict_set (StorageEngine.files storage) (name ++ ".json")
                       (Table.to_dict table))).
Proof.
  intros [Hf [Ht [Hn Hp]]] Hname.
  unfold lagging, StorageEngine.persisted, StorageEngine.get_table in *. simpl.
  split; [now apply dict_keys_set_NoDup|].
  split; [now apply dict_keys_set_NoDup|]. split.
  - intros other t. destruct (String.eqb name other) eqn:E.
    + apply String.eqb_eq in E. subst other. rewrite dict_get_set_same.
      intros H. inversion H. now subst.
    + apply String.eqb_neq in E. rewrite dict_get_set_other; auto.
  - intros other data. destruct (String.eqb name other) eqn:E.
    + apply String.eqb_eq in E. subst other. rewrite !dict_get_set_same.
      intros H. inversion H. exists table, table.
      split; [reflexivity|]. split; [reflexivity|]. apply extends_refl.
    + apply String.eqb_neq in E. rewrite !dict_get_set_other; auto.
      intros Heq. apply file_name_inj in Heq. contradiction.
Qed.

Lemma lagging_execute_on disk storage statement :
  lagging storage -> lagging (snd (Executor.execute_on disk storage statement)).
Proof.
  intros Hl. pose proof Hl as [Hf [Ht [Hn Hp]]].
  destruct (execute_on_cases disk storage statement)
    as [E | [message [result [_ E]]]]; rewrite E; clear E;
    destruct (execute_state storage statement)
      as [E | [[tbl [cols [_ [Hnone E]]]] | [tbl [cols [vals [t [_ [Hsome [_ E]]]]]]]]];
    rewrite E; clear E; cbn [snd StorageEngine.tables].
  - exact Hl.
  - apply lagging_set; [exact Hl | reflexivity].
  - rewrite (Hn tbl t Hsome). apply lagging_set; [exact Hl | reflexivity].
  - now destruct storage.
  - apply lagging_tables_set; [exact Hl | reflexivity |].
    intros table Hget. congruence.
  - apply lagging_tables_set; [exact Hl | exact (Hn tbl t Hsome) |].
    intros table Hget. rewrite Hsome in Hget. inversion Hget; subst table.
    split; [reflexivity|]. split; [reflexivity|].
    now exists [Executor.build_row cols vals].
Qed.

Lemma pipeline_on_state disk storage sql :
  snd (SQLEngine.pipeline_on disk storage sql) = storage
  \/ exists statement,
      snd (SQLEngine.pipeline_on disk storage sql)
      = snd (Executor.execute_on disk storage statement).
Proof.
  unfold SQLEngine.pipeline_on.
  destruct (Lexer.tokenize sql) as [tokens| |]; simpl; auto.
  destruct (Parser.parse tokens) as [statement| |]; simpl; eauto.
Qed.

Lemma reached_lagging allowed storage : reached allowed storage -> lagging storage.
Proof.
  induction 1 as [|disk storage sql _ IH _]; [apply lagging_empty|].
  destruct (pipeline_on_state disk storage sql) as [-> | [statement ->]]; auto.
  now apply lagging_execute_on.
Qed.

Lemma reached_synced storage : reached write_accepted storage -> synced storage.
Proof.
  induction 1 as [|disk storage sql _ IH Hok]; [apply synced_empty|].
  destruct (pipeline_on_cases disk storage sql)
    as [E | [message [statement [result [_ [_ [_ E]]]]]]].
  - rewrite E. destruct (pipeline_state storage sql) as [-> | [statement [_ [_ ->]]]];
      auto. now apply synced_execute.
  - rewrite E in Hok. exfalso. now apply (Hok message).
Qed.

(** X17. Closing and reopening the database.  Take a store reached from
    a fresh engine by any SQL texts, on a disk that may have refused any of
    the writes, and open a new [StorageEngine] on the same directory,
    whatever the order in which the directory lists its files.  Every table
    the new engine loads is a table of the old one as it once was: same
    name, same schema, and its rows are the first rows of the table in
    memory.  If no call ended on a refused write, nothing is lost: the new
    engine has the same table under every name and the same set of table
    names. *)
Theorem reopen_restores_tables
    (storage : StorageEngine.t) (listing : dict TableDict.t) :
  reached any_outcome storage ->
  Permutation listing (StorageEngine.files storage) ->
  (forall name saved,
      StorageEngine.get_table (StorageEngine.open listing) name = Some saved ->
      exists table,
        StorageEngine.get_table storage name = Some table
        /\ extends saved table)
  /\ (reached write_accepted storage ->
      (forall name,
          StorageEngine.get_table (StorageEngine.open listing) name
          = StorageEngine.get_table storage name)
      /\ Permutation (StorageEngine.list_tables (StorageEngine.open listing))
                     (StorageEngine.list_tables storage)).
Proof.
  intros Hr Hp. destruct (reached_lagging _ storage Hr) as [Hf [Ht [Hn Hd]]].
  assert (Hl : NoDup (dict_keys listing)).
  { unfold dict_keys in *. eapply Permutation_NoDup; [|exact Hf].
    apply Permutation_map. now apply Permutation_sym. }
  assert (Hload : forall name,
             StorageEngine.get_table (StorageEngine.open listing) name
             = option_map Table.from_dict (StorageEngine.persisted storage name)).
  { intros name. unfold StorageEngine.open, StorageEngine.load_database.
    unfold StorageEngine.get_table at 1. simpl.
    rewrite (load_database_get listing name [] Hl).
    rewrite (dict_get_permutation listing _ (name ++ ".json") Hl Hp).
    unfold StorageEngine.persisted.
    now destruct (dict_get (StorageEngine.files storage) (name ++ ".json")). }
  split.
  - intros name saved. rewrite Hload.
    destruct (StorageEngine.persisted storage name) as [data|] eqn:E; simpl;
      [|discriminate].
    intros H. inversion H; subst saved.
    destruct (Hd name data E) as [saved [table [-> [Hget Hext]]]].
    exists table. now rewrite table_record_round_trip.
  - intros Hclean. destruct (reached_synced storage Hclean) as [_ [_ [Hs _]]].
    assert (Hget : forall name,
               StorageEngine.get_table (StorageEngine.open listing) name
               = StorageEngine.get_table storage name).
    { intros name. rewrite Hload, Hs.
      destruct (StorageEngine.get_table storage name); simpl; auto.
      now rewrite table_record_round_trip. }
    split; [exact Hget|].
    unfold StorageEngine.list_tables. apply NoDup_Permutation; auto.
    + unfold StorageEngine.open, StorageEngine.load_database. simpl.
      apply load_database_NoDup. constructor.
    + intros name. rewrite <- !dict_mem_in_keys. unfold dict_mem.
      change (dict_get (StorageEngine.tables (StorageEngine.open listing)) name)
        with (StorageEngine.get_table (StorageEngine.open listing) name).
      change (dict_get (StorageEngine.tables storage) name)
        with (StorageEngine.get_table storage name).
      now rewrite Hget.
Qed.

Lemma reopen_restores_tables_witness :
  (forall name saved,
      StorageEngine.get_table
        (StorageEngine.open
           [("a.json", TableDict.mk "a" [ColumnDict.mk "x" "INT" (Some PyNone)] [])])
        name = Some saved ->
      exists table,
        StorageEngine.get_table
          (snd (SQLEngine.pipeline_on
                  (fun _ => Some "[Errno 28] No space left on device")
                  (snd (SQLEngine.pipeline_on StorageEngine.accepting
                          SQLEngine.empty "CREATE TABLE a (x INT)"))
                  "INSERT INTO a (x) VALUES (1)"))
          name = Some table
        /\ extends saved table)
  /\ StorageEngine.get_table
       (snd (SQLEngine.pipeline_on
               (fun _ => Some "[Errno 28] No space left on device")
               (snd (SQLEngine.pipeline_on StorageEngine.accepting
                       SQLEngine.empty "CREATE TABLE a (x INT)"))
               "INSERT INTO a (x) VALUES (1)"))
       "a"
     = Some (Table.mk "a" [Column.mk "x" "INT" PyNone] [[("x", PyInt 1)]]).
Proof.
  split; [|vm_compute; reflexivity].
  apply (reopen_restores_tables
           (snd (SQLEngine.pipeline_on
                   (fun _ => Some "[Errno 28] No space left on device")
                   (snd (SQLEngine.pipeline_on StorageEngine.accepting
                           SQLEngine.empty "CREATE TABLE a (x INT)"))
                   "INSERT INTO a (x) VALUES (1)"))
           [("a.json", TableDict.mk "a" [ColumnDict.mk "x" "INT" (Some PyNone)] [])]).
  - repeat (apply reached_execute; [|exact I]). apply reached_empty.
  - vm_compute. apply Permutation_refl.
Defined.

(** *** What the tables hold *)

Lemma check_columns_ok row cols :
  Table.check_columns row cols = Ok tt ->
  forall col, In col cols -> Table.check_column row col = Ok tt.
Proof.
  induction cols as [|c r IH]; simpl; [tauto|].
  destruct (check_column_cases row c) as [Hc | [e Hc]]; rewrite Hc; simpl;
    [|discriminate].
  intros H col [<- | Hin]; auto.
Qed.

Lemma validate_row_ok table row :
  Table.validate_row table row = Ok true ->
  (forall key, In key (dict_keys row) -> In key (Table.get_column_names table))
  /\ (forall col, In col (Table.columns table) ->
                  Table.check_column row col = Ok tt).
Proof.
  unfold Table.validate_row. intros H.
  destruct (check_keys_cases (Table.name table) (Table.get_column_names table)
              (dict_keys row)) as [Hk | [e Hk]]; rewrite Hk in H; simpl in H;
    [|discriminate].
  destruct (check_columns_cases row (Table.columns table)) as [Hc | [e Hc]];
    rewrite Hc in H; simpl in H; [|discriminate].
  split.
  - now apply (check_keys_ok (Table.name table)).
  - now apply check_columns_ok.
Qed.

(** Validation reads the name and the schema of the table, not its rows. *)
Lemma validate_row_schema table rows row :
  Table.validate_row (Table.mk (Table.name table) (Table.columns table) rows) row
  = Table.validate_row table row.
Proof. reflexivity. Qed.

Lemma reachable_tables_valid storage :
  reachable storage ->
  forall name table,
    StorageEngine.get_table storage name = Some table ->
    Table.columns table <> [] /\ Forall wf_column (Table.columns table)
    /\ rows_valid table.
Proof.
  induction 1 as [|storage sql _ IH]; intros name table Hget; [discriminate|].
  destruct (pipeline_state storage sql) as [E | [statement [_ [Hwf E]]]];
    rewrite E in Hget; [now apply (IH name)|].
  destruct (execute_state storage statement)
    as [E' | [[tbl [cols [-> [_ E']]]] | [tbl [cols [vals [t [-> [Hsome [Hv E']]]]]]]]];
    rewrite E' in Hget; [now apply (IH name)| |];
    unfold StorageEngine.get_table in Hget; simpl in Hget;
    (destruct (String.eqb tbl name) eqn:En;
     [apply String.eqb_eq in En; subst tbl; rewrite dict_get_set_same in Hget;
      inversion Hget; subst table; clear Hget
     |apply String.eqb_neq in En; rewrite dict_get_set_other in Hget by assumption;
      now apply (IH name)]).
  - simpl in Hwf. destruct Hwf as [Hne Hcols]. unfold rows_valid. simpl.
    repeat split; auto.
  - destruct (IH name t Hsome) as [Hne [Hcols Hrows]].
    unfold rows_valid in *. simpl. repeat split; auto.
    apply Forall_app. split.
    + eapply Forall_impl; [|exact Hrows]. intros row Hrow.
      now rewrite validate_row_schema.
    + constructor; [|constructor]. now rewrite validate_row_schema.
Qed.

(** X18. What a table can hold.  In a store reached from a fresh engine
    by any SQL texts, every table has at least one column, every column is
    INT or VARCHAR, and every stored row passes the validation of its
    table; so every value in a row sits under a declared column name and,
    for each column of that name, is an [int] if the column is INT and a
    [str] no longer than the declared size (when the size is non-zero) if
    it is VARCHAR.  No row holds [None] or a [float]. *)
Theorem stored_rows_conform
    (storage : StorageEngine.t) (name : string) (table : Table.t) :
  reachable storage ->
  StorageEngine.get_table storage name = Some table ->
  Table.columns table <> []
  /\ Forall wf_column (Table.columns table)
  /\ forall row,
      In row (Table.rows table) ->
      Table.validate_row table row = Ok true
      /\ forall c v,
          dict_get row c = Some v ->
          In c (Table.get_column_names table)
          /\ (isinstance_int v = true \/ isinstance_str v = true)
          /\ forall col,
              In col (Table.columns table) -> Column.name col = c ->
              (Column.data_type col = "INT" /\ isinstance_int v = true)
              \/ (Column.data_type col = "VARCHAR"
                  /\ exists text,
                      v = PyStr text
                      /\ (truthy (Column.size col) = true ->
                          py_le (PyInt (Z.of_nat (String.length text)))
                                (Column.size col) = Ok true)).
Proof.
  intros Hr Hget.
  destruct (reachable_tables_valid storage Hr name table Hget)
    as [Hne [Hcols Hrows]].
  split; [exact Hne|]. split; [exact Hcols|].
  intros row Hin. unfold rows_valid in Hrows. rewrite Forall_forall in Hrows.
  pose proof (Hrows row Hin) as Hv. split; [exact Hv|].
  intros c v Hc. destruct (validate_row_ok table row Hv) as [Hkeys Hchecks].
  assert (Hdecl : In c (Table.get_column_names table)).
  { apply Hkeys. eapply dict_get_some_in_keys; eauto. }
  assert (Htyped : forall col,
             In col (Table.columns table) -> Column.name col = c ->
             (Column.data_type col = "INT" /\ isinstance_int v = true)
             \/ (Column.data_type col = "VARCHAR"
                 /\ exists text,
                     v = PyStr text
                     /\ (truthy (Column.size col) = true ->
                         py_le (PyInt (Z.of_nat (String.length text)))
                               (Column.size col) = Ok true))).
  { intros col Hcol Hname. pose proof (Hchecks col Hcol) as Hck.
    rewrite Forall_forall in Hcols. pose proof (Hcols col Hcol) as Hwf.
    unfold Table.check_column in Hck. rewrite Hname, Hc in Hck.
    destruct Hwf as [[Hty _] | [Hty _]]; rewrite Hty in Hck |- *; simpl in Hck.
    - left. split; auto. destruct (isinstance_int v); [reflexivity|discriminate].
    - right. split; auto. destruct v as [|n|f|text]; try discriminate.
      exists text. split; auto. intros Hsize. rewrite Hsize in Hck.
      unfold py_gt, py_le, py_order in *.
      destruct (py_compare _ _) as [cmp|]; [|discriminate].
      destruct cmp; simpl in Hck; try discriminate; reflexivity. }
  split; [exact Hdecl|]. split; [|exact Htyped].
  unfold Table.get_column_names in Hdecl. apply in_map_iff in Hdecl.
  destruct Hdecl as [col [Hname Hcol]].
  destruct (Htyped col Hcol Hname) as [[_ Hi] | [_ [text [-> _]]]]; auto.
Qed.

Lemma stored_rows_conform_witness :
  Table.columns test_table <> []
  /\ Forall wf_column (Table.columns test_table)
  /\ forall row,
      In row (Table.rows test_table) ->
      Table.validate_row test_table row = Ok true
      /\ forall c v,
          dict_get row c = Some v ->
          In c (Table.get_column_names test_table)
          /\ (isinstance_int v = true \/ isinstance_str v = true)
          /\ forall col,
              In col (Table.columns test_table) -> Column.name col = c ->
              (Column.data_type col = "INT" /\ isinstance_int v = true)
              \/ (Column.data_type col = "VARCHAR"
                  /\ exists text,
                      v = PyStr text
                      /\ (truthy (Column.size col) = true ->
                          py_le (PyInt (Z.of_nat (String.length text)))
                                (Column.size col) = Ok true)).
Proof.
  apply (stored_rows_conform
           (snd (SQLEngine.pipeline
                   (snd (SQLEngine.pipeline SQLEngine.empty
                           "CREATE TABLE test (id INT, code VARCHAR(10))"))
                   "INSERT INTO test (id, code) VALUES (1, 'ABC')"))
           "test" test_table).
  - repeat apply reachable_execute. apply reachable_empty.
  - vm_compute. reflexivity.
Defined.

(* ------------------------------------------------------------------ *)
(** ** Statements one after the other                                   *)
(* ------------------------------------------------------------------ *)

(** X19. A SELECT on a table just created.  After a successful CREATE
    TABLE, a SELECT of [*] or of declared columns from the new table
    returns no row, whatever its WHERE clause says (the clause is evaluated
    on no row, so a clause naming an unknown column raises nothing); the
    result lists the declared columns for [*], the requested ones
    otherwise, and prints as "(0 rows affected)", without a header. *)
Theorem select_after_create
    (float_str : pyfloat -> string) (storage storage' : StorageEngine.t)
    (table : string) (columns : list Column) (created : QueryResult.t)
    (cols : list string) (w : option WhereClause) :
  Executor.execute storage (CreateTableStatement table columns)
  = (Ok created, storage') ->
  Executor.is_star cols = true
  \/ (forall c, In c cols -> In c (map Column.name columns)) ->
  exists result,
    Executor.execute storage' (SelectStatement cols table w)
    = (Ok result, storage')
    /\ QueryResult.columns result
       = (if Executor.is_star cols then map Column.name columns else cols)
    /\ QueryResult.rows result = []
    /\ render float_str result = "(0 rows affected)".
Proof.
  intros Hc Hcols. simpl in Hc.
  unfold Executor.execute_create_table, StorageEngine.create_table in Hc.
  destruct (dict_mem (StorageEngine.tables storage) table); [discriminate|].
  inversion Hc; subst; clear Hc.
  cbn [Executor.execute]. unfold Executor.execute_select.
  unfold StorageEngine.get_table, StorageEngine.save_table. cbn [StorageEngine.tables].
  rewrite dict_get_set_same. unfold Table.new. cbn [Table.rows].
  assert (Hrows : match w with
                  | Some c => Executor.filter_rows c []
                  | None => Ok []
                  end = Ok []) by now destruct w.
  rewrite Hrows. cbn [bind].
  unfold Table.get_column_names. cbn [Table.columns].
  destruct (Executor.is_star cols) eqn:Hstar.
  - cbn [bind]. eexists. split; [reflexivity|]. repeat split.
  - destruct Hcols as [Hs | Hdecl]; [discriminate|].
    rewrite (check_requested_ok table _ cols Hdecl). cbn [bind].
    eexists. split; [reflexivity|]. repeat split.
Qed.

Lemma select_after_create_witness :
  exists result,
    Executor.execute
      (snd (Executor.execute SQLEngine.empty
              (CreateTableStatement "users" users_columns)))
      (SelectStatement ["name"] "users" (Some (Condition "salary" ">" (PyInt 0))))
    = (Ok result,
       snd (Executor.execute SQLEngine.empty
              (CreateTableStatement "users" users_columns)))
    /\ QueryResult.columns result
       = (if Executor.is_star ["name"] then map Column.name users_columns
          else ["name"])
    /\ QueryResult.rows result = []
    /\ render no_float_text result = "(0 rows affected)".
Proof.
  apply (select_after_create no_float_text SQLEngine.empty _ "users" users_columns
           (QueryResult.of_message "Table 'users' created successfully")).
  - reflexivity.
  - right. intros c [<- | []]. simpl. auto.
Defined.

Lemma filter_rows_app where_ rows1 rows2 :
  Executor.filter_rows where_ (rows1 ++ rows2)%list
  = let* kept1 := Executor.filter_rows where_ rows1 in
    let* kept2 := Executor.filter_rows where_ rows2 in
    Ok (kept1 ++ kept2)%list.
Proof.
  induction rows1 as [|row r IH]; simpl.
  - now destruct (Executor.filter_rows where_ rows2).
  - destruct (Executor.evaluate_where row where_) as [keep| |]; simpl; auto.
    rewrite IH.
    destruct (Executor.filter_rows where_ r) as [kept1| |]; simpl; auto.
    destruct (Executor.filter_rows where_ rows2) as [kept2| |]; simpl; auto.
    now destruct keep.
Qed.

(** X20. A SELECT after an INSERT.  If an INSERT succeeds, its result
    reports one affected row, and a SELECT that succeeded before it now
    returns the same columns and the same rows followed by the projection
    of the inserted row, provided the WHERE clause (if any) holds on that
    row; if the clause is false on it the result is unchanged.  The new row
    comes last. *)
Theorem select_after_insert
    (storage storage' : StorageEngine.t) (table : string)
    (columns : list string) (values : list pyval) (inserted before : QueryResult.t)
    (cols : list string) (w : option WhereClause) (keep : bool) :
  Executor.execute storage (InsertStatement table columns values)
  = (Ok inserted, storage') ->
  Executor.execute_select storage cols table w = Ok before ->
  match w with
  | Some c => Executor.evaluate_where (Executor.build_row columns values) c
  | None => Ok true
  end = Ok keep ->
  inserted = QueryResult.mk [] [] 1 (Some ("1 row inserted into '" ++ table ++ "'"))
  /\ Executor.execute_select storage' cols table w
     = Ok (QueryResult.mk
             (QueryResult.columns before)
             (QueryResult.rows before
              ++ (if keep
                  then [Executor.project (QueryResult.columns before)
                          (Executor.build_row columns values)]
                  else []))
             0 None).
Proof.
  intros Hi Hs Hk. simpl in Hi.
  unfold Executor.execute_insert, StorageEngine.insert_row in Hi.
  unfold Executor.execute_select in *.
  destruct (StorageEngine.get_table storage table) as [t|] eqn:Hget;
    [|discriminate].
  unfold Table.insert in Hi.
  destruct (Table.validate_row t (Executor.build_row columns values))
    as [ok| |]; simpl in Hi; try discriminate.
  inversion Hi; subst; clear Hi. split; [reflexivity|].
  unfold StorageEngine.get_table, StorageEngine.save_table. cbn [StorageEngine.tables].
  rewrite dict_get_set_same.
  unfold Table.get_column_names in *. cbn [Table.rows Table.columns].
  assert (Hrows : forall rows,
             match w with
             | Some c => Executor.filter_rows c (Table.rows t)
             | None => Ok (Table.rows t)
             end = Ok rows ->
             match w with
             | Some c => Executor.filter_rows c
                           (Table.rows t ++ [Executor.build_row columns values])
             | None => Ok (Table.rows t ++ [Executor.build_row columns values])%list
             end = Ok (rows ++ (if keep then [Executor.build_row columns values]
                                else []))%list).
  { intros rows Hrows. destruct w as [c|].
    - rewrite filter_rows_app, Hrows. simpl. rewrite Hk. reflexivity.
    - inversion Hrows; subst. inversion Hk; subst. reflexivity. }
  destruct (match w with
            | Some c => Executor.filter_rows c (Table.rows t)
            | None => Ok (Table.rows t)
            end) as [rows| |]; simpl in Hs; try discriminate.
  rewrite (Hrows rows eq_refl). cbn [bind].
  destruct (if Executor.is_star cols
            then Ok (map Column.name (Table.columns t))
            else let* _ := Executor.check_requested table
                             (map Column.name (Table.columns t)) cols in
                 Ok cols) as [columns'| |]; simpl in Hs |- *; try discriminate.
  inversion Hs; subst; clear Hs. unfold QueryResult.new. simpl.
  rewrite map_app. now destruct keep.
Qed.

Lemma select_after_insert_witness :
  QueryResult.mk [] [] 1 (Some "1 row inserted into 'users'")
  = QueryResult.mk [] [] 1 (Some ("1 row inserted into '" ++ "users" ++ "'"))
  /\ Executor.execute_select
       (snd (Executor.execute users_storage
               (InsertStatement "users" ["id"; "age"] [PyInt 4; PyInt 31])))
       ["id"; "name"] "users" (Some age_between)
     = Ok (QueryResult.mk ["id"; "name"]
             [[("id", PyInt 2); ("name", PyStr "Bob")];
              [("id", PyInt 4); ("name", PyNone)]]
             0 None).
Proof.
  exact (select_after_insert users_storage _ "users" ["id"; "age"]
           [PyInt 4; PyInt 31] _
           (QueryResult.mk ["id"; "name"]
              [[("id", PyInt 2); ("name", PyStr "Bob")]] 0 None)
           ["id"; "name"] (Some age_between) true eq_refl eq_refl eq_refl).
Defined.

(* ------------------------------------------------------------------ *)
(** ** Validation                                                       *)
(* ------------------------------------------------------------------ *)

Lemma check_keys_first table_name names keys e :
  Table.check_keys table_name names keys = Raise e ->
  exists pre key post,
    keys = (pre ++ key :: post)%list
    /\ (forall k, In k pre -> In k names)
    /\ ~ In key names
    /\ e = ColumnDoesNotExist key table_name.
Proof.
  induction keys as [|key r IH]; simpl; [discriminate|].
  destruct (str_in key names) eqn:E.
  - intros H. destruct (IH H) as [pre [k [post [-> [Hpre [Hk He]]]]]].
    exists (key :: pre), k, post. repeat split; auto.
    intros x [<- | Hx]; auto. now apply str_in_In.
  - intros H. inversion H. exists [], key, r. repeat split; auto.
    + intros k [].
    + intros Hin. apply str_in_In in Hin. congruence.
Qed.

Lemma check_columns_first row cols e :
  Table.check_columns row cols = Raise e ->
  exists pre col post,
    cols = (pre ++ col :: post)%list
    /\ (forall c, In c pre -> Table.check_column row c = Ok tt)
    /\ Table.check_column row col = Raise e.
Proof.
  induction cols as [|col r IH]; simpl; [discriminate|].
  destruct (check_column_cases row col) as [Hc | [e' Hc]]; rewrite Hc; simpl.
  - intros H. destruct (IH H) as [pre [c [post [-> [Hpre He]]]]].
    exists (col :: pre), c, post. repeat split; auto.
    intros x [<- | Hx]; auto.
  - intros H. inversion H; subst. exists [], col, r. repeat split; auto.
    intros c [].
Qed.

(** X21. Which error a rejected row gets.  If the row has a key that is
    no declared column, the error names the first such key in the order of
    the row, even when a value under a declared column is of the wrong
    type.  Only when every key is declared does the error come from a
    column check, and then from the first failing column in the order of
    the schema, not of the row. *)
Theorem validate_row_error_order (table : Table.t) (row : Row) (e : error) :
  Table.validate_row table row = Raise e ->
  (exists pre key post,
      dict_keys row = (pre ++ key :: post)%list
      /\ (forall k, In k pre -> In k (Table.get_column_names table))
      /\ ~ In key (Table.get_column_names table)
      /\ e = ColumnDoesNotExist key (Table.name table))
  \/ ((forall k, In k (dict_keys row) -> In k (Table.get_column_names table))
      /\ exists pre col post,
          Table.columns table = (pre ++ col :: post)%list
          /\ (forall c, In c pre -> Table.check_column row c = Ok tt)
          /\ Table.check_column row col = Raise e).
Proof.
  unfold Table.validate_row. intros H.
  destruct (Table.check_keys (Table.name table) (Table.get_column_names table)
              (dict_keys row)) as [[]| e' |] eqn:Hk; simpl in H.
  - right. split; [now apply (check_keys_ok (Table.name table))|].
    destruct (Table.check_columns row (Table.columns table)) as [[]| e' |] eqn:Hc;
      simpl in H; try discriminate.
    inversion H; subst. now apply check_columns_first.
  - left. inversion H; subst. now apply check_keys_first.
  - discriminate.
Qed.

Lemma validate_row_error_order_witness :
  (exists pre key post,
      dict_keys [("id", PyStr "one"); ("phone", PyInt 5); ("fax", PyInt 6)]
      = (pre ++ key :: post)%list
      /\ (forall k, In k pre -> In k (Table.get_column_names test_table))
      /\ ~ In key (Table.get_column_names test_table)
      /\ ColumnDoesNotExist "phone" "test"
         = ColumnDoesNotExist key (Table.name test_table))
  \/ ((forall k,
          In k (dict_keys [("id", PyStr "one"); ("phone", PyInt 5); ("fax", PyInt 6)]) ->
          In k (Table.get_column_names test_table))
      /\ exists pre col post,
          Table.columns test_table = (pre ++ col :: post)%list
          /\ (forall c, In c pre ->
                        Table.check_column
                          [("id", PyStr "one"); ("phone", PyInt 5); ("fax", PyInt 6)] c
                        = Ok tt)
          /\ Table.check_column
               [("id", PyStr "one"); ("phone", PyInt 5); ("fax", PyInt 6)] col
             = Raise (ColumnDoesNotExist "phone" "test")).
Proof.
  exact (validate_row_error_order test_table
           [("id", PyStr "one"); ("phone", PyInt 5); ("fax", PyInt 6)]
           (ColumnDoesNotExist "phone" "test") eq_refl).
Defined.

(** X22. Nothing checks that the column names of a CREATE TABLE differ.
    If a table declares the same name once as INT and once as VARCHAR,
    validation rejects every row that has a value under that name: an [int]
    fails the VARCHAR check and anything else fails the INT check. *)
Theorem conflicting_declarations_reject
    (table : Table.t) (row : Row) (c : string) (v : pyval)
    (col_int col_varchar : Column) :
  In col_int (Table.columns table) ->
  In col_varchar (Table.columns table) ->
  Column.name col_int = c -> Column.data_type col_int = "INT" ->
  Column.name col_varchar = c -> Column.data_type col_varchar = "VARCHAR" ->
  dict_get row c = Some v ->
  exists e, Table.validate_row table row = Raise e.
Proof.
  intros Hi Hv Hni Hti Hnv Htv Hget.
  apply validate_row_raises_iff. right.
  destruct (isinstance_int v) eqn:E.
  - exists col_varchar. split; auto. unfold Table.check_column.
    rewrite Hnv, Hget, Htv. simpl. destruct v; try discriminate; eauto.
  - exists col_int. split; auto. unfold Table.check_column.
    rewrite Hni, Hget, Hti, E. simpl. eauto.
Qed.

Lemma conflicting_declarations_reject_witness :
  parse_sql "CREATE TABLE t (a INT, a VARCHAR)"
  = Ok (CreateTableStatement "t"
          [Column.mk "a" "INT" PyNone; Column.mk "a" "VARCHAR" PyNone])
  /\ exists e,
      Table.validate_row
        (Table.mk "t" [Column.mk "a" "INT" PyNone; Column.mk "a" "VARCHAR" PyNone] [])
        [("a", PyInt 1)]
      = Raise e.
Proof.
  split; [vm_compute; reflexivity|].
  apply (conflicting_declarations_reject _ _ "a" (PyInt 1)
           (Column.mk "a" "INT" PyNone) (Column.mk "a" "VARCHAR" PyNone));
    simpl; auto.
Defined.

(* ------------------------------------------------------------------ *)
(** ** Where the lexer fails                                            *)
(* ------------------------------------------------------------------ *)

Lemma append_assoc_str (a b c : string) : (a ++ b) ++ c = a ++ b ++ c.
Proof. induction a as [|x a IH]; simpl; congruence. Qed.

Lemma reads_init sql : reads sql (Lexer.init sql).
Proof. now exists EmptyString. Qed.

Lemma reads_scan p sql lx :
  reads sql lx ->
  reads sql (snd (Lexer.scan p lx))
  /\ Lexer.rest lx
     = fst (Lexer.scan p lx) ++ Lexer.rest (snd (Lexer.scan p lx))
  /\ all_chars p (fst (Lexer.scan p lx)) = true
  /\ run_ends p (Lexer.rest (snd (Lexer.scan p lx))) = true.
Proof.
  intros [before [Hs Hl]]. unfold Lexer.scan.
  destruct (read_while_split p (Lexer.rest lx)) as [E1 [E2 E3]].
  destruct (read_while p (Lexer.rest lx)) as [run r]. simpl in *.
  repeat split; auto.
  exists (before ++ run). simpl. split.
  - now rewrite append_assoc_str, <- E1.
  - rewrite length_append_str. lia.
Qed.

Lemma reads_advance sql lx c :
  reads sql lx -> Lexer.current_char lx = Some c -> reads sql (Lexer.advance lx).
Proof.
  intros [before [Hs Hl]]. unfold Lexer.current_char, Lexer.advance.
  destruct (Lexer.rest lx) as [|d r] eqn:Hr; [discriminate|]. intros _.
  exists (before ++ String d EmptyString). simpl. split.
  - now rewrite append_assoc_str.
  - rewrite length_append_str. simpl. lia.
Qed.

Lemma not_quote_run s :
  all_chars (fun c => negb (is_quote c)) s = true -> contains is_quote s = false.
Proof.
  induction s as [|c r IH]; simpl; auto.
  intros H. apply andb_prop in H. destruct H as [Hc Hr].
  apply negb_true_iff in Hc. now rewrite Hc, IH.
Qed.

Lemma step_reads sql lx c tokens tokens' lx' :
  reads sql lx -> Lexer.current_char lx = Some c ->
  Lexer.step lx c tokens = Ok (tokens', lx') -> reads sql lx'.
Proof.
  intros Hr Hc. unfold Lexer.step.
  destruct (isspace c).
  { intros H. inversion H. unfold Lexer.skip_whitespace.
    apply (reads_scan isspace sql lx Hr). }
  destruct (isdigit c).
  { unfold Lexer.read_number.
    pose proof (proj1 (reads_scan number_char sql lx Hr)) as Hs.
    destruct (Lexer.scan number_char lx) as [num_str lx1]. simpl in Hs.
    destruct (contains is_dot num_str); simpl.
    - destruct (py_float num_str); simpl; try discriminate.
      intros H. inversion H. now subst.
    - destruct (py_int num_str); simpl; try discriminate.
      intros H. inversion H. now subst. }
  destruct (is_quote c).
  { unfold Lexer.read_string.
    pose proof (reads_advance sql lx c Hr Hc) as Ha.
    pose proof (proj1 (reads_scan (fun c => negb (is_quote c)) sql _ Ha)) as Hs.
    destruct (Lexer.scan _ (Lexer.advance lx)) as [sv lx2]. simpl in Hs.
    destruct (Lexer.current_char lx2) as [c2|] eqn:Hc2; simpl; [|discriminate].
    destruct (is_quote c2); simpl; [|discriminate].
    intros H. inversion H. subst. now apply (reads_advance sql lx2 c2). }
  destruct (isalpha c || is_underscore c).
  { unfold Lexer.read_identifier.
    pose proof (proj1 (reads_scan (fun c => isalnum c || is_underscore c) sql lx Hr))
      as Hs.
    destruct (Lexer.scan _ lx) as [identifier lx1]. simpl in Hs.
    destruct (dict_get Lexer.KEYWORDS (upper identifier));
      intros H; inversion H; now subst. }
  assert (Htwo : forall d, Lexer.next_is lx d = true ->
                           reads sql (Lexer.advance (Lexer.advance lx))).
  { intros d Hd. pose proof (reads_advance sql lx c Hr Hc) as Ha.
    unfold Lexer.next_is, Lexer.peek in Hd.
    destruct (Lexer.rest lx) as [|x [|y r]] eqn:Hrest; try discriminate.
    apply (reads_advance sql _ y Ha).
    unfold Lexer.current_char, Lexer.advance. simpl. now rewrite Hrest. }
  destruct (Ascii.eqb c ">" && Lexer.next_is lx "=") eqn:E1.
  { apply andb_prop in E1. intros H. inversion H. subst. apply (Htwo "="%char), E1. }
  destruct (Ascii.eqb c "<" && Lexer.next_is lx "=") eqn:E2.
  { apply andb_prop in E2. intros H. inversion H. subst. apply (Htwo "="%char), E2. }
  destruct (Ascii.eqb c "!" && Lexer.next_is lx "=") eqn:E3.
  { apply andb_prop in E3. intros H. inversion H. subst. apply (Htwo "="%char), E3. }
  destruct (Lexer.char_map_get Lexer.char_map c); [|discriminate].
  intros H. inversion H. subst. now apply (reads_advance sql lx c).
Qed.

Lemma step_located sql lx c tokens e :
  reads sql lx -> Lexer.current_char lx = Some c ->
  Lexer.step lx c tokens = Raise e -> located sql e.
Proof.
  intros Hr Hc. pose proof Hr as [before [Hs Hl]].
  assert (Hrest : exists r, Lexer.rest lx = String c r).
  { unfold Lexer.current_char in Hc. destruct (Lexer.rest lx) as [|d r];
      [discriminate|]. inversion Hc. eauto. }
  destruct Hrest as [r Hrest].
  unfold Lexer.step.
  destruct (isspace c) eqn:Hsp; [discriminate|].
  destruct (isdigit c) eqn:Hd.
  { unfold Lexer.read_number.
    destruct (reads_scan number_char sql lx Hr) as [_ [E1 [E2 E3]]].
    destruct (Lexer.scan number_char lx) as [num_str lx1]. simpl in E1, E2, E3.
    destruct (contains is_dot num_str) eqn:Hdot; simpl.
    2: { unfold py_int.
         destruct (max_str_digits <? Z.of_nat (String.length num_str))%Z eqn:Hlong;
           simpl; [|discriminate].
         intros H. inversion H; subst e; clear H. simpl.
         exists before, num_str, (Lexer.rest lx1).
         rewrite contains_count in Hdot. apply negb_false_iff, Nat.eqb_eq in Hdot.
         split; [now rewrite Hs, E1|].
         split; [now apply number_chars_no_dot|].
         split; [exact E3|]. split; [reflexivity|]. now apply Z.ltb_lt. }
    destruct (py_float num_str) as [f|e'|] eqn:Hf; simpl; try discriminate.
    intros H. inversion H; subst e'; clear H.
    assert (Hnum : exists run', num_str = String c run').
    { rewrite Hrest in E1. destruct num_str as [|d run'].
      - simpl in E1. rewrite <- E1 in E3. simpl in E3.
        unfold number_char in E3. rewrite Hd in E3. discriminate.
      - inversion E1. eauto. }
    destruct Hnum as [run' ->].
    assert (Hrun : all_chars number_char run' = true).
    { simpl in E2. now apply andb_prop in E2. }
    destruct (py_float_run c run' Hd Hrun) as [Hone Hmany].
    rewrite contains_count in Hdot. apply negb_true_iff, Nat.eqb_neq in Hdot.
    assert (Hcount : 2 <= count_chars is_dot (String c run')).
    { destruct (Nat.eq_dec (count_chars is_dot (String c run')) 1) as [E|E]; [|lia].
      destruct (Hone E) as [f Hok]. congruence. }
    rewrite (Hmany Hcount) in Hf. inversion Hf; subst e. simpl.
    exists before, (Lexer.rest lx1). repeat split; auto.
    now rewrite Hs, E1. }
  destruct (is_quote c) eqn:Hq.
  { unfold Lexer.read_string.
    pose proof (reads_advance sql lx c Hr Hc) as Ha.
    destruct (reads_scan (fun c => negb (is_quote c)) sql _ Ha) as [_ [E1 [E2 E3]]].
    destruct (Lexer.scan _ (Lexer.advance lx)) as [sv lx2]. simpl in E1, E2, E3.
    assert (Hc' : c = "'"%char) by now apply Ascii.eqb_eq.
    assert (Hend : Lexer.current_char lx2 = None ->
                   located sql (UnterminatedString (Lexer.position lx))).
    { unfold Lexer.current_char. intros Hnone.
      destruct (Lexer.rest lx2) eqn:Hr2; [|discriminate].
      simpl. exists before, sv. split; [|split; auto].
      - rewrite Hs, Hrest, Hc'. do 2 f_equal.
        unfold Lexer.advance in E1. rewrite Hrest in E1. simpl in E1.
        rewrite E1. clear. induction sv; simpl; congruence.
      - now apply not_quote_run. }
    destruct (Lexer.current_char lx2) as [c2|] eqn:Hc2; simpl.
    - unfold Lexer.current_char in Hc2.
      destruct (Lexer.rest lx2) as [|d r2]; [discriminate|]. inversion Hc2; subst d.
      simpl in E3. apply negb_true_iff in E3. rewrite negb_false_iff in E3.
      rewrite E3. discriminate.
    - intros H. inversion H; subst e. now apply Hend. }
  destruct (isalpha c || is_underscore c) eqn:Hal.
  { destruct (Lexer.read_identifier lx). discriminate. }
  destruct (Ascii.eqb c ">" && Lexer.next_is lx "="); [discriminate|].
  destruct (Ascii.eqb c "<" && Lexer.next_is lx "="); [discriminate|].
  destruct (Ascii.eqb c "!" && Lexer.next_is lx "=") eqn:Hbang; [discriminate|].
  destruct (Lexer.char_map_get Lexer.char_map c) eqn:Hmap; [discriminate|].
  intros H. inversion H; subst e. simpl.
  exists before, r. split; [now rewrite Hs, Hrest|]. split; [exact Hl|].
  unfold starts_no_token. rewrite Hsp, Hd, Hq, Hal, Hmap. cbn [negb andb].
  apply negb_true_iff. etransitivity; [|exact Hbang]. f_equal.
  unfold Lexer.next_is, Lexer.peek. cbn [Lexer.rest]. now rewrite Hrest.
Qed.

Lemma tokenize_loop_located sql :
  forall fuel lx tokens e,
    reads sql lx ->
    Lexer.tokenize_loop fuel lx tokens = Raise e -> located sql e.
Proof.
  induction fuel as [|fuel IH]; intros lx tokens e Hr; simpl;
    destruct (Lexer.current_char lx) as [c|] eqn:Hc; try discriminate.
  destruct (Lexer.step lx c tokens) as [[tokens' lx']| e' |] eqn:Hstep; simpl;
    try discriminate.
  - apply IH. eapply step_reads; eauto.
  - intros H. inversion H; subst e'. eapply step_located; eauto.
Qed.

(** X23. What a lexer exception says about the text.  "Unexpected
    character 'c' at position p": the character at offset [p] is [c], and
    no token starts with it there ([c] is no blank, digit, quote, letter,
    underscore, operator or delimiter, or it is a [!] that no [=] follows).
    "Unterminated string at position p": there is a quote at offset [p]
    and none after it.  "could not convert string to float: 's'": [s] is a
    maximal run of digits and dots of the text, with at least two dots.
    "Exceeds the limit (4300 digits) ...: value has n digits": the text has
    a maximal run of [n] digits, without a dot, and [n] is above 4300. *)
Theorem tokenize_error_located (sql : string) (e : error) :
  Lexer.tokenize sql = Raise e -> located sql e.
Proof.
  unfold Lexer.tokenize. apply tokenize_loop_located, reads_init.
Qed.

Lemma tokenize_error_located_witness :
  located "SELECT a FROM t WHERE a ! 3" (UnexpectedCharacter "!" 24)
  /\ located "SELECT 'abc" (UnterminatedString 7).
Proof.
  split; apply tokenize_error_located; vm_compute; reflexivity.
Defined.

(* ------------------------------------------------------------------ *)
(** ** Operators and delimiters                                         *)
(* ------------------------------------------------------------------ *)

Lemma char_map_chars c ty :
  Lexer.char_map_get Lexer.char_map c = Some ty ->
  In (c, ty) Lexer.char_map.
Proof.
  unfold Lexer.char_map. cbn [Lexer.char_map_get].
  repeat match goal with
         | |- context [Ascii.eqb ?k c] =>
             destruct (Ascii.eqb k c) eqn:E;
             [apply Ascii.eqb_eq in E; subst c; intros H; inversion H; subst ty;
              simpl; tauto | clear E]
         end.
  discriminate.
Qed.

(** X24. Operators and delimiters.  One of [= > < ( ) , ; *] becomes a
    single token holding that character, unless it is [>] or [<] directly
    followed by [=]; so [==] is two EQUALS tokens.  [>=], [<=] and [!=]
    become one token holding both characters, and scanning resumes two
    characters on.  A [!] that no [=] follows is an unexpected
    character. *)
Theorem tokenize_operator
    (pos : nat) (rest : string) (fuel : nat) (tokens : list Token) :
  (forall c ty,
      Lexer.char_map_get Lexer.char_map c = Some ty ->
      Lexer.next_is (Lexer.mk pos (String c rest)) "=" = false
      \/ (c <> ">"%char /\ c <> "<"%char) ->
      Lexer.tokenize_loop (S fuel) (Lexer.mk pos (String c rest)) tokens
      = Lexer.tokenize_loop fuel (Lexer.mk (S pos) rest)
          (tokens ++ [mkToken ty (PyStr (String c EmptyString)) pos])%list)
  /\ (forall c ty,
        In (c, ty) [(">"%char, TokenType.GREATER_EQ);
                    ("<"%char, TokenType.LESS_EQ);
                    ("!"%char, TokenType.NOT_EQ)] ->
        Lexer.tokenize_loop (S fuel)
          (Lexer.mk pos (String c (String "=" rest))) tokens
        = Lexer.tokenize_loop fuel (Lexer.mk (S (S pos)) rest)
            (tokens ++ [mkToken ty (PyStr (String c "=")) pos])%list)
  /\ (Lexer.next_is (Lexer.mk pos (String "!" rest)) "=" = false ->
      Lexer.tokenize_loop (S fuel) (Lexer.mk pos (String "!" rest)) tokens
      = Raise (UnexpectedCharacter "!" pos)).
Proof.
  split; [|split].
  - intros c ty Hmap Hnext. pose proof (char_map_chars c ty Hmap) as Hin.
    cbn [Lexer.tokenize_loop Lexer.current_char Lexer.rest].
    unfold Lexer.step. cbn [Lexer.position].
    simpl in Hin.
    repeat (destruct Hin as [Hin | Hin];
            [inversion Hin; subst c ty; clear Hin;
             cbn [isspace isdigit is_quote isalpha is_underscore in_range
                  nat_of_ascii orb andb Ascii.eqb Bool.eqb];
             try (destruct Hnext as [Hnext | [H1 H2]];
                  [rewrite Hnext | congruence]);
             vm_compute isspace; reflexivity
            |]).
    contradiction.
  - intros c ty Hin. simpl in Hin.
    destruct Hin as [Hin | [Hin | [Hin | []]]]; inversion Hin; subst c ty;
      reflexivity.
  - intros Hnext.
    cbn [Lexer.tokenize_loop Lexer.current_char Lexer.rest].
    unfold Lexer.step. cbn [Lexer.position].
    change (isspace "!") with false. change (isdigit "!") with false.
    change (is_quote "!") with false.
    change (isalpha "!" || is_underscore "!") with false.
    change (Ascii.eqb "!" ">") with false. change (Ascii.eqb "!" "<") with false.
    change (Ascii.eqb "!" "!") with true. cbn [andb].
    rewrite Hnext. reflexivity.
Qed.

(* ------------------------------------------------------------------ *)
(** ** Rows that lack a column                                          *)
(* ------------------------------------------------------------------ *)

Lemma evaluate_where_missing_column row w c :
  In c (where_columns w) -> dict_get row c = None ->
  exists e, Executor.evaluate_where row w = Raise e.
Proof.
  unfold where_columns.
  induction w as [column op v | lhs IHl op rhs IHr]; simpl; intros Hin Hget.
  - destruct Hin as [<- | []]. unfold Executor.evaluate_condition.
    rewrite Hget. eauto.
  - rewrite map_app in Hin. apply in_app_or in Hin.
    destruct (evaluate_where_cases row lhs) as [[b Hl] | [e Hl]]; rewrite Hl;
      simpl; eauto.
    destruct Hin as [Hin | Hin].
    + destruct (IHl Hin Hget) as [e He]. congruence.
    + destruct (IHr Hin Hget) as [e He]. rewrite He. simpl. eauto.
Qed.

Lemma filter_rows_raises w rows row e :
  In row rows -> Executor.evaluate_where row w = Raise e ->
  exists e', Executor.filter_rows w rows = Raise e'.
Proof.
  intros Hin He.
  destruct (filter_rows_cases w rows) as [[kept Hk] | Hr]; auto.
  apply filter_rows_ok in Hk. destruct Hk as [Hall _].
  rewrite Forall_forall in Hall. destruct (Hall row Hin) as [b Hb]. congruence.
Qed.

(** X25. INSERT may leave columns out, and the row then has no entry for
    them.  One such row is enough to make every SELECT on the table whose
    WHERE clause names a column the row lacks raise, whatever the other
    rows hold and wherever in the clause the column appears: no row is
    returned. *)
Theorem select_where_missing_value
    (storage : StorageEngine.t) (name : string) (table : Table.t) (row : Row)
    (cols : list string) (w : WhereClause) (c : string) :
  StorageEngine.get_table storage name = Some table ->
  In row (Table.rows table) ->
  In c (where_columns w) ->
  dict_get row c = None ->
  exists e, Executor.execute_select storage cols name (Some w) = Raise e.
Proof.
  intros Hget Hrow Hc Hnone. unfold Executor.execute_select. rewrite Hget.
  destruct (evaluate_where_missing_column row w c Hc Hnone) as [e He].
  destruct (filter_rows_raises w (Table.rows table) row e Hrow He) as [e' ->].
  simpl. eauto.
Qed.

Lemma select_where_missing_value_witness :
  exists e,
    Executor.execute_select
      (snd (Executor.execute users_storage
              (InsertStatement "users" ["id"; "name"] [PyInt 4; PyStr "Dan"])))
      ["name"] "users" (Some (Condition "age" ">" (PyInt 0)))
    = Raise e.
Proof.
  apply (select_where_missing_value _ "users"
           (Table.mk "users" users_columns
              (users_rows ++ [[("id", PyInt 4); ("name", PyStr "Dan")]]))
           [("id", PyInt 4); ("name", PyStr "Dan")] _ _ "age").
  - reflexivity.
  - simpl. tauto.
  - simpl. tauto.
  - reflexivity.
Defined.

(* ------------------------------------------------------------------ *)
(** ** The engine on a disk that refuses writes                         *)
(* ------------------------------------------------------------------ *)

Lemma classified_not_io e :
  (lexical_error e || syntax_error e || semantic_error e) = true ->
  io_error e = false.
Proof. destruct e; simpl; intros H; auto; discriminate. Qed.

(** On a disk that accepts every write no [OSError] is raised. *)
Lemma pipeline_raise_not_io storage sql e :
  fst (SQLEngine.pipeline storage sql) = Raise e -> io_error e = false.
Proof.
  intros He. apply classified_not_io. unfold SQLEngine.pipeline in He.
  destruct (Lexer.tokenize sql) as [tokens|e'|] eqn:Ht; simpl in He.
  - pose proof (parse_lexed tokens (tokenize_lexed sql tokens Ht)) as Hp.
    destruct (Parser.parse tokens) as [ast|e'|]; simpl in He.
    + rewrite (executor_raise_semantic storage ast e Hp He).
      now rewrite !orb_true_r.
    + inversion He; subst e'. rewrite Hp. now rewrite orb_true_r.
    + discriminate.
  - inversion He; subst e'. now rewrite (tokenize_raise_lexical sql e Ht).
  - discriminate.
Qed.

(** The stores of [reachable] are those reached without a refused
    write on a disk that accepts every write. *)
Lemma reachable_reached storage : reachable storage -> reached write_accepted storage.
Proof.
  induction 1 as [|storage sql _ IH]; [constructor|].
  rewrite <- pipeline_on_accepting. constructor; auto.
  rewrite pipeline_on_accepting. intros message He.
  apply pipeline_raise_not_io in He. discriminate.
Qed.

